(** * TicTacToeRealTimeSync: the React client, embedded and verified

    The development follows the client sources: [lib/api.js], the
    [useWebSocket] hook, [GamePage], [ReplayPage], [HomePage] and the
    game components ([GameBoard], [GameCell], [MoveHistory],
    [ReplayControls]).  The FastAPI server is not part of the sources; the
    parts of it the replay page depends on are modelled from the
    specification in [Module Backend]. *)

From Stdlib Require Import ZArith List String Ascii Bool Lia DecimalString.
Import ListNotations.

Local Open Scope string_scope.
Local Open Scope Z_scope.

(** ** JavaScript primitives used by the client *)

Module Js.

(** A JavaScript string is held as a Rocq string, in an encoding that is
    the identity on ASCII text; concatenation and equality are those of
    the encoding.  The built-in methods of strings are not part of the
    sources.  What ECMA-262 fixes for them on ASCII text is written out
    first: [toUpperCase] sends [a]..[z] to [A]..[Z] and keeps every other
    ASCII character. *)
Definition upper_ascii (c : ascii) : ascii :=
  let n := nat_of_ascii c in
  if ((97 <=? n) && (n <=? 122))%nat then ascii_of_nat (n - 32) else c.

Fixpoint ascii_toUpperCase (s : string) : string :=
  match s with
  | EmptyString => EmptyString
  | String c r => String (upper_ascii c) (ascii_toUpperCase r)
  end.

(** The ASCII characters that [trim] removes: tab, line feed, vertical
    tab, form feed, carriage return and space. *)
Definition ascii_space (c : ascii) : bool :=
  let n := nat_of_ascii c in
  ((9 <=? n) && (n <=? 13) || (n =? 32))%nat.

Fixpoint ascii_trimStart (s : string) : string :=
  match s with
  | EmptyString => EmptyString
  | String c r => if ascii_space c then ascii_trimStart r else s
  end.

(** A character is dropped at the end when it is white space and nothing
    but white space follows it. *)
Fixpoint ascii_trimEnd (s : string) : string :=
  match s with
  | EmptyString => EmptyString
  | String c r =>
      match ascii_trimEnd r with
      | EmptyString => if ascii_space c then EmptyString else String c EmptyString
      | r' => String c r'
      end
  end.

Definition ascii_trim (s : string) : string := ascii_trimEnd (ascii_trimStart s).

(** ASCII text: every code unit is below 128. *)
Definition is_ascii_char (c : ascii) : bool := (nat_of_ascii c <? 128)%nat.

Fixpoint is_ascii (s : string) : bool :=
  match s with
  | EmptyString => true
  | String c r => is_ascii_char c && is_ascii r
  end.

(** The methods of strings the client calls: [s.toUpperCase()],
    [s.trim()] and [s.length].  Outside ASCII they follow the Unicode
    tables ([toUpperCase] can lengthen a string, as for U+00DF, and [trim]
    removes every Unicode white space and line terminator, as U+00A0), so
    they are taken as given, with their values on ASCII text. *)
Record strings : Type := mkStrings {
  toUpperCase : string -> string;
  trim : string -> string;
  length : string -> Z;
  toUpperCase_ascii :
    forall s, is_ascii s = true -> toUpperCase s = ascii_toUpperCase s;
  trim_ascii :
    forall s, is_ascii s = true -> trim s = ascii_trim s;
  length_ascii :
    forall s, is_ascii s = true -> length s = Z.of_nat (String.length s)
}.

(** Rendering of an integer inside a template literal. *)
Definition show (z : Z) : string := NilZero.string_of_int (Z.to_int z).

(** [a === b] on values that are a string, [null] or [undefined]; the two
    absent values are kept apart, since [undefined === null] is false. *)
Inductive ref : Type :=
| Undefined
| Null
| Str (s : string).

Definition strict_eq (a b : ref) : bool :=
  match a, b with
  | Undefined, Undefined => true
  | Null, Null => true
  | Str s, Str t => String.eqb s t
  | _, _ => false
  end.

(** Such a value inside a template literal. *)
Definition template (a : ref) : string :=
  match a with
  | Undefined => "undefined"
  | Null => "null"
  | Str s => s
  end.

(** Such a value as a JSX child: React renders nothing for [null] and
    [undefined]. *)
Definition jsx_child (a : ref) : string :=
  match a with
  | Str s => s
  | _ => EmptyString
  end.

(** Truthiness of such a value: absent values and the empty string are
    falsy. *)
Definition truthy (a : ref) : bool :=
  match a with
  | Str s => negb (String.eqb s EmptyString)
  | _ => false
  end.

End Js.

(** The ASCII functions themselves, applied to any string: on ASCII text
    they are JavaScript's.  The examples, which are on ASCII text, are run
    with them. *)
Definition ascii_strings : Js.strings :=
  Js.mkStrings Js.ascii_toUpperCase Js.ascii_trim
               (fun s => Z.of_nat (String.length s))
               (fun _ _ => eq_refl) (fun _ _ => eq_refl) (fun _ _ => eq_refl).

(** ** The participant held by [PlayerContext] *)

Record Player : Type := mkPlayer {
  player_id : string;
  player_username : string
}.

(** [player?.id] *)
Definition opt_id (player : option Player) : Js.ref :=
  match player with
  | Some p => Js.Str (player_id p)
  | None => Js.Undefined
  end.

(** ** The game document exchanged with the server

    Field names are those the client reads: [game.state.board],
    [game.state.current_turn], [game.moves], [move.symbol],
    [move.position], ...  A cell or a winner is ['X'], ['O'] or [null]. *)

Inductive Mark : Type := MarkX | MarkO.
Inductive Mode : Type := local | online.
Inductive Status : Type := waiting | in_progress | completed.

Definition Mark_eqb (a b : Mark) : bool :=
  match a, b with
  | MarkX, MarkX | MarkO, MarkO => true
  | _, _ => false
  end.

Definition Board : Type := list (option Mark).

Record Move : Type := mkMove {
  symbol : Mark;
  position : Z;
  timestamp : Z
}.

Record GameState : Type := mkGameState {
  board : Board;
  current_turn : Mark;
  winner : option Mark;
  is_draw : bool;
  winning_line : option (list Z)
}.

Record Game : Type := mkGame {
  id : string;
  code : string;
  mode : Mode;
  status : Status;
  player_x_id : Js.ref;
  player_o_id : Js.ref;
  player_x_username : string;
  player_o_username : Js.ref;
  state : GameState;
  moves : list Move
}.

(** One entry of the replay payload: [snapshot.board], [snapshot.move]. *)
Record Snapshot : Type := mkSnapshot {
  snap_board : Board;
  snap_move : option Move
}.

(** The replay payload: [replayData.game], [replayData.snapshots],
    [replayData.total_moves]. *)
Record ReplayData : Type := mkReplayData {
  game : Game;
  snapshots : list Snapshot;
  total_moves : Z
}.

(** [arr[i]] for a number [i]: [undefined] outside the array. *)
Definition index {A : Type} (l : list A) (i : Z) : option A :=
  if i <? 0 then None else nth_error l (Z.to_nat i).

(** ** The server, modelled from the specification

    The FastAPI server is not among the sources.  What the replay page
    consumes is produced there, so the Board Engine, the Session Store and
    the Replay Reconstructor are written down here from sections 3 and 4 of
    the specification. *)

Module Backend.

(** Modelled from the spec: the empty 9-cell board of section 3. *)
Definition empty_board : Board := repeat None 9.

Definition occupied (c : option Mark) : bool :=
  match c with Some _ => true | None => false end.

(** Modelled from the spec: the number of non-empty cells (section 3). *)
Definition filled (b : Board) : nat := List.length (filter occupied b).

(** Modelled from the spec: the turn-parity invariant of section 3; X moves
    first, so after [n] moves it is X's turn iff [n] is even. *)
Definition turn_after (n : nat) : Mark := if Nat.even n then MarkX else MarkO.

Fixpoint set_cell (b : Board) (n : nat) (m : Mark) : Board :=
  match b, n with
  | [], _ => []
  | _ :: r, 0%nat => Some m :: r
  | c :: r, S n' => c :: set_cell r n' m
  end.

(** Modelled from the spec: the Board Engine's [apply(board, mark, cell)]
    of section 4.1, absent from the sources.  It fails when the cell is
    outside 0-8, when the cell is occupied, or when it is not [mark]'s
    turn; the turn is the parity of the marks already on the board. *)
Definition apply (b : Board) (mark : Mark) (cell : Z) : option Board :=
  if (cell <? 0) || (8 <? cell) then None
  else match nth_error b (Z.to_nat cell) with
       | Some None =>
           if Mark_eqb mark (turn_after (filled b))
           then Some (set_cell b (Z.to_nat cell) mark)
           else None
       | _ => None
       end.

Inductive Outcome : Type :=
| InProgress
| Win (m : Mark) (triple : list Z)
| Draw.

(** Modelled from the spec: the 8 fixed lines of section 4.1, in scan
    order: rows, columns, diagonals. *)
Definition lines : list (Z * Z * Z) :=
  [(0, 1, 2); (3, 4, 5); (6, 7, 8);
   (0, 3, 6); (1, 4, 7); (2, 5, 8);
   (0, 4, 8); (2, 4, 6)].

Definition line_winner (b : Board) (l : Z * Z * Z) : option Mark :=
  let '(i, j, k) := l in
  match index b i, index b j, index b k with
  | Some (Some m1), Some (Some m2), Some (Some m3) =>
      if Mark_eqb m1 m2 && Mark_eqb m2 m3 then Some m1 else None
  | _, _, _ => None
  end.

Fixpoint first_win (b : Board) (ls : list (Z * Z * Z)) : option (Mark * list Z) :=
  match ls with
  | [] => None
  | l :: r =>
      match line_winner b l with
      | Some m => let '(i, j, k) := l in Some (m, [i; j; k])
      | None => first_win b r
      end
  end.

(** Modelled from the spec: the Board Engine's [evaluate(board)] of
    section 4.1, absent from the sources.  The first matching line in
    scan order is a win; a draw is declared only when no win is found and
    all 9 cells are filled. *)
Definition evaluate (b : Board) : Outcome :=
  match first_win b lines with
  | Some (m, t) => Win m t
  | None => if (filled b =? 9)%nat then Draw else InProgress
  end.

Inductive Error : Type :=
| NotFound | IllegalMove | NotYourTurn | GameOver
| AlreadyFull | SelfJoin | StaleWrite | ConnectionError.

Inductive result (A : Type) : Type :=
| Ok (a : A)
| Err (e : Error).
Arguments Ok {A} a.
Arguments Err {A} e.

Definition fresh_state : GameState :=
  mkGameState empty_board MarkX None false None.

(** Modelled from the spec: the Session Store's [create(mode, creator)] of
    section 4.2, absent from the sources: [waiting] for an online game,
    [in_progress] with both marks bound to the creator for a local one.
    The fresh id and join code are passed in. *)
Definition create (gid gcode : string) (m : Mode) (creator : Player) : Game :=
  match m with
  | online =>
      mkGame gid gcode online waiting
        (Js.Str (player_id creator)) Js.Null
        (player_username creator) Js.Null fresh_state []
  | local =>
      mkGame gid gcode local in_progress
        (Js.Str (player_id creator)) (Js.Str (player_id creator))
        (player_username creator) (Js.Str (player_username creator))
        fresh_state []
  end.

(** Modelled from the spec: the Session Store's [join(game, participant)]
    of section 4.2, absent from the sources.  It fails when the game is
    not [waiting] or the joiner is the creator; otherwise it binds the
    second mark and flips the status to [in_progress]. *)
Definition join (g : Game) (p : Player) : result Game :=
  match status g with
  | waiting =>
      if Js.strict_eq (Js.Str (player_id p)) (player_x_id g) then Err SelfJoin
      else Ok (mkGame (id g) (code g) (mode g) in_progress
                 (player_x_id g) (Js.Str (player_id p))
                 (player_x_username g) (Js.Str (player_username p))
                 (state g) (moves g))
  | _ => Err AlreadyFull
  end.

(** Modelled from the spec: which mark a participant controls (section
    4.2): in a local game the single controlling participant plays the
    expected mark, whichever it is; in an online game a participant plays
    the one mark bound to them. *)
Definition controls (g : Game) (pid : string) (expected : Mark) : bool :=
  match mode g with
  | local => Js.strict_eq (Js.Str pid) (player_x_id g)
  | online =>
      match expected with
      | MarkX => Js.strict_eq (Js.Str pid) (player_x_id g)
      | MarkO => Js.strict_eq (Js.Str pid) (player_o_id g)
      end
  end.

(** Modelled from the spec: the Session Store's
    [move(game, participant, cell)] of section 4.2, absent from the
    sources.  The expected mark comes from the parity of the move log;
    the Board Engine decides legality; on success the move is appended
    and board, turn and outcome are recomputed.  Only an [in_progress]
    game accepts moves (no transition of section 4.1 lets a move leave
    [waiting]; the spec names no error kind for it, [NotYourTurn] is
    used). *)
Definition move (g : Game) (pid : string) (cell time : Z) : result Game :=
  match status g with
  | completed => Err GameOver
  | waiting => Err NotYourTurn
  | in_progress =>
      let expected := turn_after (List.length (moves g)) in
      if negb (controls g pid expected) then Err NotYourTurn
      else match apply (board (state g)) expected cell with
           | None => Err IllegalMove
           | Some b' =>
               let log := (moves g ++ [mkMove expected cell time])%list in
               let turn := turn_after (List.length log) in
               let '(st, stat) :=
                 match evaluate b' with
                 | Win m t => (mkGameState b' turn (Some m) false (Some t), completed)
                 | Draw => (mkGameState b' turn None true None, completed)
                 | InProgress => (mkGameState b' turn None false None, in_progress)
                 end in
               Ok (mkGame (id g) (code g) (mode g) stat
                     (player_x_id g) (player_o_id g)
                     (player_x_username g) (player_o_username g)
                     st log)
           end
  end.

(** Modelled from the spec: the mutations a stored game goes through after
    its creation (section 3, lifecycle); a failed operation surfaces its
    error and leaves the game unchanged. *)
Inductive op : Type :=
| Join (p : Player)
| MoveBy (pid : string) (cell time : Z).

Definition step (g : Game) (o : op) : Game :=
  match o with
  | Join p => match join g p with Ok g' => g' | Err _ => g end
  | MoveBy pid cell time => match move g pid cell time with Ok g' => g' | Err _ => g end
  end.

Definition run (g : Game) (ops : list op) : Game := fold_left step ops g.

(** Modelled from the spec: "empty board + fold of move log" (section 3),
    from a given board, through [apply]. *)
Fixpoint board_after (b : Board) (log : list Move) : option Board :=
  match log with
  | [] => Some b
  | m :: r =>
      match apply b (symbol m) (position m) with
      | Some b' => board_after b' r
      | None => None
      end
  end.

Fixpoint snapshots_from (b : Board) (log : list Move) : option (list Snapshot) :=
  match log with
  | [] => Some []
  | m :: r =>
      match apply b (symbol m) (position m) with
      | Some b' =>
          match snapshots_from b' r with
          | Some l => Some (mkSnapshot b' (Some m) :: l)
          | None => None
          end
      | None => None
      end
  end.

(** Modelled from the spec: the Replay Reconstructor's [reconstruct(game)]
    of section 4.5, absent from the sources: a left-to-right fold of the
    move log through [apply], starting with the empty board at index 0,
    each later entry pairing a board with the move that produced it. *)
Definition reconstruct (g : Game) : option (list Snapshot) :=
  match snapshots_from empty_board (moves g) with
  | Some l => Some (mkSnapshot empty_board None :: l)
  | None => None
  end.

(** Modelled from the spec: the payload of "fetch replay" (section 6),
    absent from the sources: the reconstructed snapshot sequence, the
    final game (which carries the move log) and the number of moves, under
    the names the client reads. *)
Definition replay (g : Game) : option ReplayData :=
  match reconstruct g with
  | Some l => Some (mkReplayData g l (Z.of_nat (List.length (moves g))))
  | None => None
  end.

End Backend.

(** ** [components/game/MoveHistory] *)

Module MoveHistory.

(** [Math.floor(pos / 3) + 1] and [(pos % 3) + 1]; [%] is the truncated
    remainder. *)
Definition row (pos : Z) : Z := pos / 3 + 1.
Definition col (pos : Z) : Z := Z.rem pos 3 + 1.

Definition coord (pos : Z) : Z * Z := (row pos, col pos).

Definition positionToCoord (pos : Z) : string :=
  "(" ++ Js.show (row pos) ++ "," ++ Js.show (col pos) ++ ")".

(** One button of the list: its [data-testid], the text it shows, the
    index its click passes to [onMoveClick], and whether it is marked
    active. *)
Record entry : Type := mkEntry {
  testid : string;
  number : string;
  text : string;
  click : Z;
  active : bool
}.

Definition show_mark (m : Mark) : string :=
  match m with MarkX => "X" | MarkO => "O" end.

(** [moves.map((move, index) => ...)] from a given [index]. *)
Fixpoint move_entries (index : Z) (moves : list Move) (currentMoveIndex : Z)
  : list entry :=
  match moves with
  | [] => []
  | move :: rest =>
      mkEntry ("move-item-" ++ Js.show (index + 1))
              (Js.show (index + 1) ++ ".")
              (show_mark (symbol move) ++ positionToCoord (position move))
              (index + 1)
              (currentMoveIndex =? index + 1)
      :: move_entries (index + 1) rest currentMoveIndex
  end.

(** The rendered list: the "Start" button, then one button per move. *)
Definition entries (moves : list Move) (currentMoveIndex : Z) : list entry :=
  mkEntry "move-item-0" "0." "Start" 0 (currentMoveIndex =? 0)
  :: move_entries 0 moves currentMoveIndex.

End MoveHistory.

(** ** [components/game/ReplayControls] *)

Inductive Speed : Type := Speed0_5 | Speed1 | Speed1_5 | Speed2.

Module ReplayControls.

Record props : Type := mkProps {
  currentMove : Z;
  totalMoves : Z;
  isPlaying : bool;
  playbackSpeed : Speed
}.

(** What the user can operate: the five buttons, the timeline slider and
    the speed buttons. *)
Inductive control : Type :=
| GoToStartBtn
| StepBackBtn
| PlayPauseBtn
| StepForwardBtn
| GoToEndBtn
| SliderTo (v : Z)
| SpeedBtn (s : Speed).

(** The callback prop a control invokes. *)
Inductive callback : Type :=
| OnPlay
| OnPause
| OnStepBack
| OnStepForward
| OnGoToStart
| OnGoToEnd
| OnSeek (value : Z)
| OnSpeedChange (s : Speed).

(** A disabled button invokes nothing.  The slider ([components/ui/slider],
    a range slider that is not among the sources) is given [min={0}],
    [max={totalMoves}] and [step={1}]: it is taken to report whole values
    between its bounds and no others. *)
Definition operate (p : props) (c : control) : option callback :=
  match c with
  | GoToStartBtn => if currentMove p =? 0 then None else Some OnGoToStart
  | StepBackBtn => if currentMove p =? 0 then None else Some OnStepBack
  | PlayPauseBtn => if isPlaying p then Some OnPause else Some OnPlay
  | StepForwardBtn =>
      if currentMove p =? totalMoves p then None else Some OnStepForward
  | GoToEndBtn =>
      if currentMove p =? totalMoves p then None else Some OnGoToEnd
  | SliderTo v =>
      if (0 <=? v) && (v <=? totalMoves p) then Some (OnSeek v) else None
  | SpeedBtn s => Some (OnSpeedChange s)
  end.

End ReplayControls.

(** ** [pages/ReplayPage] *)

Module ReplayPage.

Record page : Type := mkPage {
  replayData : option ReplayData;
  loading : bool;
  currentMoveIndex : Z;
  isPlaying : bool;
  playbackSpeed : Speed
}.

(** The component as mounted, before the replay request settles. *)
Definition mounted : page := mkPage None true 0 false Speed1.

Definition setIsPlaying (b : bool) (st : page) : page :=
  mkPage (replayData st) (loading st) (currentMoveIndex st) b (playbackSpeed st).

Definition setCurrentMoveIndex (f : Z -> Z) (st : page) : page :=
  mkPage (replayData st) (loading st) (f (currentMoveIndex st)) (isPlaying st)
         (playbackSpeed st).

Definition setPlaybackSpeed (s : Speed) (st : page) : page :=
  mkPage (replayData st) (loading st) (currentMoveIndex st) (isPlaying st) s.

(** [replayData?.total_moves || 0] *)
Definition total_or_0 (st : page) : Z :=
  match replayData st with
  | Some d => if total_moves d =? 0 then 0 else total_moves d
  | None => 0
  end.

(** The interval callback of the playback effect, which exists only
    while [isPlaying && replayData]. *)
Definition tick (st : page) : page :=
  match replayData st with
  | Some d =>
      if isPlaying st then
        if currentMoveIndex st >=? total_moves d
        then setIsPlaying false st
        else setCurrentMoveIndex (fun prev => prev + 1) st
      else st
  | None => st
  end.

(** The effect "stop playing when reaching the end". *)
Definition stop_at_end (st : page) : page :=
  match replayData st with
  | Some d =>
      if currentMoveIndex st >=? total_moves d then setIsPlaying false st else st
  | None => st
  end.

(** [fetchReplay] resolved with the payload: [setReplayData(data)] and
    [setLoading(false)]; [replayData] changed, so the effect above runs
    after the render. *)
Definition loaded (st : page) (data : ReplayData) : page :=
  stop_at_end
    (mkPage (Some data) false (currentMoveIndex st) (isPlaying st) (playbackSpeed st)).

(** The dependency list of that effect is [[currentMoveIndex, replayData]]:
    after the render that follows a state change, React runs it only when
    one of the two differs from the previous render.  The operations below
    leave [replayData] as it is. *)
Definition after_render (before st : page) : page :=
  if currentMoveIndex st =? currentMoveIndex before then st else stop_at_end st.

Definition handlePlay (st : page) : page := setIsPlaying true st.
Definition handlePause (st : page) : page := setIsPlaying false st.

Definition handleStepBack (st : page) : page :=
  setCurrentMoveIndex (fun prev => Z.max 0 (prev - 1)) (setIsPlaying false st).

Definition handleStepForward (st : page) : page :=
  setCurrentMoveIndex (fun prev => Z.min (total_or_0 st) (prev + 1))
                      (setIsPlaying false st).

Definition handleGoToStart (st : page) : page :=
  setCurrentMoveIndex (fun _ => 0) (setIsPlaying false st).

Definition handleGoToEnd (st : page) : page :=
  setCurrentMoveIndex (fun _ => total_or_0 st) (setIsPlaying false st).

Definition handleSeek (value : Z) (st : page) : page :=
  setCurrentMoveIndex (fun _ => value) (setIsPlaying false st).

Definition handleSpeedChange (s : Speed) (st : page) : page :=
  setPlaybackSpeed s st.

Definition handleMoveClick (index : Z) (st : page) : page :=
  setCurrentMoveIndex (fun _ => index) (setIsPlaying false st).

(** The props handed to [ReplayControls]. *)
Definition controls_props (st : page) (d : ReplayData) : ReplayControls.props :=
  ReplayControls.mkProps (currentMoveIndex st) (total_moves d) (isPlaying st)
                         (playbackSpeed st).

Definition call (cb : ReplayControls.callback) (st : page) : page :=
  match cb with
  | ReplayControls.OnPlay => handlePlay st
  | ReplayControls.OnPause => handlePause st
  | ReplayControls.OnStepBack => handleStepBack st
  | ReplayControls.OnStepForward => handleStepForward st
  | ReplayControls.OnGoToStart => handleGoToStart st
  | ReplayControls.OnGoToEnd => handleGoToEnd st
  | ReplayControls.OnSeek v => handleSeek v st
  | ReplayControls.OnSpeedChange s => handleSpeedChange s st
  end.

(** What can happen to the mounted page: the playback interval fires, the
    user operates a replay control, or the user clicks the [n]-th button
    of the move history. *)
Inductive operation : Type :=
| PlayTick
| Control (c : ReplayControls.control)
| HistoryClick (n : nat).

(** The controls and the history exist only once the payload is shown
    (neither the spinner nor "Replay not found" renders them). *)
Definition perform (st : page) (o : operation) : page :=
  match replayData st with
  | None => st
  | Some d =>
      if loading st then st
      else
        after_render st
          match o with
          | PlayTick => tick st
          | Control c =>
              match ReplayControls.operate (controls_props st d) c with
              | Some cb => call cb st
              | None => st
              end
          | HistoryClick n =>
              match nth_error (MoveHistory.entries (moves (game d))
                                                   (currentMoveIndex st)) n with
              | Some e => handleMoveClick (MoveHistory.click e) st
              | None => st
              end
          end
  end.

Definition perform_all (st : page) (os : list operation) : page :=
  fold_left perform os st.

(** The result banner, rendered only at the last index. *)
Record banner : Type := mkBanner {
  banner_class : string;
  banner_text : string
}.

Definition result_banner (g : Game) : banner :=
  mkBanner
    (if is_draw (state g) then "winner-draw"
     else match winner (state g) with
          | Some MarkX => "winner-x"
          | _ => "winner-o"
          end)
    (if is_draw (state g) then "Draw!"
     else match winner (state g) with
          | Some MarkX => player_x_username g
          | _ => Js.template (player_o_username g)
          end ++ " Wins!").

(** What the page puts on screen once the payload is there. *)
Record screen : Type := mkScreen {
  shown_board : Board;
  shown_winningLine : option (list Z);
  highlightedMove : option Z;
  shown_banner : option banner;
  history : list MoveHistory.entry;
  controls : ReplayControls.props
}.

Inductive view : Type :=
| Spinner
| NotFoundView
| TypeError         (* [currentSnapshot.move] read on [undefined] *)
| Shown (s : screen).

Definition render (st : page) : view :=
  if loading st then Spinner
  else match replayData st with
       | None => NotFoundView
       | Some d =>
           match index (snapshots d) (currentMoveIndex st) with
           | None => TypeError
           | Some currentSnapshot =>
               let g := game d in
               let at_end := currentMoveIndex st =? total_moves d in
               Shown (mkScreen
                 (snap_board currentSnapshot)
                 (if at_end then winning_line (state g) else None)
                 (option_map position (snap_move currentSnapshot))
                 (if at_end then Some (result_banner g) else None)
                 (MoveHistory.entries (moves g) (currentMoveIndex st))
                 (controls_props st d))
           end
       end.

End ReplayPage.

(** ** [lib/api.js]: the requests the client issues *)

Module Api.

Inductive Method : Type := GET | POST | PUT.

Inductive body_value : Type :=
| BStr (s : string)
| BNum (n : Z).

(** A call through the axios instance: method, path below the API base
    and the fields of the JSON body. *)
Record request : Type := mkRequest {
  method : Method;
  url : string;
  body : list (string * body_value)
}.

Definition getGame (gameId : string) : request :=
  mkRequest GET ("/games/" ++ gameId) [].

Definition getGameByCode (J : Js.strings) (code : string) : request :=
  mkRequest GET ("/games/by-code/" ++ Js.toUpperCase J code) [].

Definition joinGame (gameId playerId : string) : request :=
  mkRequest POST ("/games/" ++ gameId ++ "/join") [("player_id", BStr playerId)].

Definition joinGameByCode (J : Js.strings) (code playerId : string) : request :=
  mkRequest POST "/games/join-by-code"
    [("player_id", BStr playerId); ("code", BStr (Js.toUpperCase J code))].

Definition makeMove (gameId playerId : string) (position : Z) : request :=
  mkRequest POST ("/games/" ++ gameId ++ "/move")
    [("player_id", BStr playerId); ("position", BNum position)].

Definition getGameReplay (gameId : string) : request :=
  mkRequest GET ("/games/" ++ gameId ++ "/replay") [].

(** The [code] field of a request body, when it has one. *)
Fixpoint field (k : string) (b : list (string * body_value)) : option body_value :=
  match b with
  | [] => None
  | (k', v) :: r => if String.eqb k k' then Some v else field k r
  end.

(** [BACKEND_URL.replace(/^https?:\/\//, '')] *)
Definition strip_scheme (u : string) : string :=
  if String.prefix "https://" u
  then String.substring 8 (String.length u - 8) u
  else if String.prefix "http://" u
       then String.substring 7 (String.length u - 7) u
       else u.

(** [getWebSocketUrl]; [BACKEND_URL] comes from the build environment. *)
Definition getWebSocketUrl (BACKEND_URL : string) (gameId playerId : Js.ref) : string :=
  let wsProtocol := if String.prefix "https" BACKEND_URL then "wss" else "ws" in
  let wsHost := strip_scheme BACKEND_URL in
  wsProtocol ++ "://" ++ wsHost ++ "/api/ws/" ++ Js.template gameId ++ "/"
             ++ Js.template playerId.

End Api.

(** ** What a handler does besides updating component state *)

Inductive ToastKind : Type := TSuccess | TError | TWarning | TInfo.

Inductive effect : Type :=
| Toast (k : ToastKind) (msg : string)
| Navigate (path : string)
| Request (r : Api.request).

(** ** [pages/HomePage]: the join-by-code dialog *)

Module HomePage.

Record page : Type := mkPage {
  player : option Player;
  gameCode : string;
  loading : bool;
  showJoinDialog : bool
}.

(** [maxLength={6}] on the code input. *)
Definition maxLength : nat := 6.

(** [onChange={(e) => setGameCode(e.target.value.toUpperCase())}] *)
Definition onChange (J : Js.strings) (st : page) (target_value : string) : page :=
  mkPage (player st) (Js.toUpperCase J target_value) (loading st) (showJoinDialog st).

(** [disabled={loading || gameCode.length !== 6}] on the Join button. *)
Definition join_disabled (J : Js.strings) (st : page) : bool :=
  loading st || negb (Js.length J (gameCode st) =? 6)%Z.

(** [handleJoinByCode], up to the request it awaits. *)
Definition handleJoinByCode (J : Js.strings) (st : page) : page * list effect :=
  match player st with
  | None => (st, [Toast TError "Please enter a game code"])
  | Some p =>
      if String.eqb (Js.trim J (gameCode st)) EmptyString
      then (st, [Toast TError "Please enter a game code"])
      else (mkPage (player st) (gameCode st) true (showJoinDialog st),
            [Request (Api.joinGameByCode J (Js.trim J (gameCode st)) (player_id p))])
  end.

(** A click on the Join button: a disabled button does not call its
    handler. *)
Definition click_join (J : Js.strings) (st : page) : page * list effect :=
  if join_disabled J st then (st, []) else handleJoinByCode J st.

(** The input reports [entered] as its value, then the user presses
    Join. *)
Definition enter_and_join (J : Js.strings) (st : page) (entered : string)
  : page * list effect :=
  click_join J (onChange J st entered).

(** The code carried by the requests an action issued. *)
Fixpoint transmitted_codes (es : list effect) : list string :=
  match es with
  | [] => []
  | Request r :: es' =>
      match Api.field "code" (Api.body r) with
      | Some (Api.BStr c) => c :: transmitted_codes es'
      | _ => transmitted_codes es'
      end
  | _ :: es' => transmitted_codes es'
  end.

End HomePage.

(** ** Push messages *)

Module Push.

(** A message object, seen through the properties the client reads:
    [type], [game] and [new_game_id]. *)
Record message : Type := mkMessage {
  type : Js.ref;
  game : option Game;
  new_game_id : Js.ref
}.

(** What [JSON.parse] can return.  The items of an array are never
    read. *)
Inductive json : Type :=
| JNull
| JBool (b : bool)
| JNum (n : Z)
| JStr (s : string)
| JArr
| JObj (m : message).

(** [JSON.parse(event.data)]: it throws on text that is not JSON. *)
Inductive parse_outcome : Type :=
| SyntaxError
| Parsed (data : json).

(** [data.type]: reading a property of [null] throws; a boolean, number,
    string or array has no such property. *)
Definition get_type (data : json) : option Js.ref :=
  match data with
  | JNull => None
  | JObj m => Some (type m)
  | _ => Some Js.Undefined
  end.

Definition truthy (data : json) : bool :=
  match data with
  | JNull => false
  | JBool b => b
  | JNum n => negb (n =? 0)
  | JStr s => negb (String.eqb s EmptyString)
  | JArr => true
  | JObj _ => true
  end.

End Push.

(** ** The [useWebSocket] hook

    The hook's own state and refs, together with the part of the browser
    its callbacks act on: the sockets it created, the pending timers and a
    clock in milliseconds. *)

Module WebSocketHook.

Inductive ReadyState : Type := CONNECTING | OPEN | CLOSING | CLOSED.

Definition ReadyState_eqb (a b : ReadyState) : bool :=
  match a, b with
  | CONNECTING, CONNECTING | OPEN, OPEN | CLOSING, CLOSING | CLOSED, CLOSED => true
  | _, _ => false
  end.

(** A socket created by [connect]; its handlers close over the [gameId]
    and [playerId] of that call. *)
Record socket : Type := mkSocket {
  url : string;
  readyState : ReadyState;
  sent : list string;
  closure_gameId : Js.ref;
  closure_playerId : Js.ref
}.

Inductive timer_callback : Type :=
| PingIfOpen
| Reconnect (gameId playerId : Js.ref).

(** A pending [setInterval] ([period] set) or [setTimeout]. *)
Record timer : Type := mkTimer {
  tid : nat;
  due : Z;
  period : option Z;
  callback : timer_callback
}.

Record hook : Type := mkHook {
  isConnected : bool;
  lastMessage : option Push.json;
  connectionError : option string;
  wsRef : option nat;
  reconnectTimeoutRef : option nat;
  pingIntervalRef : option nat;
  sockets : list socket;
  timers : list timer;
  now : Z;
  next_tid : nat;
  console : list string;
  BACKEND_URL : string;
  constructible : string -> bool
}.

(** The hook on first render, in a browser where [new WebSocket(u)]
    succeeds exactly on the URLs accepted by [ok]. *)
Definition initial (backend : string) (ok : string -> bool) : hook :=
  mkHook false None None None None None [] [] 0 1 [] backend ok.

Definition setIsConnected (b : bool) (h : hook) : hook :=
  mkHook b (lastMessage h) (connectionError h) (wsRef h) (reconnectTimeoutRef h)
         (pingIntervalRef h) (sockets h) (timers h) (now h) (next_tid h)
         (console h) (BACKEND_URL h) (constructible h).

Definition setLastMessage (m : option Push.json) (h : hook) : hook :=
  mkHook (isConnected h) m (connectionError h) (wsRef h) (reconnectTimeoutRef h)
         (pingIntervalRef h) (sockets h) (timers h) (now h) (next_tid h)
         (console h) (BACKEND_URL h) (constructible h).

Definition setConnectionError (e : option string) (h : hook) : hook :=
  mkHook (isConnected h) (lastMessage h) e (wsRef h) (reconnectTimeoutRef h)
         (pingIntervalRef h) (sockets h) (timers h) (now h) (next_tid h)
         (console h) (BACKEND_URL h) (constructible h).

Definition set_wsRef (r : option nat) (h : hook) : hook :=
  mkHook (isConnected h) (lastMessage h) (connectionError h) r (reconnectTimeoutRef h)
         (pingIntervalRef h) (sockets h) (timers h) (now h) (next_tid h)
         (console h) (BACKEND_URL h) (constructible h).

Definition set_reconnectTimeoutRef (r : option nat) (h : hook) : hook :=
  mkHook (isConnected h) (lastMessage h) (connectionError h) (wsRef h) r
         (pingIntervalRef h) (sockets h) (timers h) (now h) (next_tid h)
         (console h) (BACKEND_URL h) (constructible h).

Definition set_pingIntervalRef (r : option nat) (h : hook) : hook :=
  mkHook (isConnected h) (lastMessage h) (connectionError h) (wsRef h)
         (reconnectTimeoutRef h) r (sockets h) (timers h) (now h) (next_tid h)
         (console h) (BACKEND_URL h) (constructible h).

Definition set_sockets (l : list socket) (h : hook) : hook :=
  mkHook (isConnected h) (lastMessage h) (connectionError h) (wsRef h)
         (reconnectTimeoutRef h) (pingIntervalRef h) l (timers h) (now h)
         (next_tid h) (console h) (BACKEND_URL h) (constructible h).

Definition set_timers (l : list timer) (h : hook) : hook :=
  mkHook (isConnected h) (lastMessage h) (connectionError h) (wsRef h)
         (reconnectTimeoutRef h) (pingIntervalRef h) (sockets h) l (now h)
         (next_tid h) (console h) (BACKEND_URL h) (constructible h).

Definition set_now (t : Z) (h : hook) : hook :=
  mkHook (isConnected h) (lastMessage h) (connectionError h) (wsRef h)
         (reconnectTimeoutRef h) (pingIntervalRef h) (sockets h) (timers h) t
         (next_tid h) (console h) (BACKEND_URL h) (constructible h).

Definition console_error (msg : string) (h : hook) : hook :=
  mkHook (isConnected h) (lastMessage h) (connectionError h) (wsRef h)
         (reconnectTimeoutRef h) (pingIntervalRef h) (sockets h) (timers h) (now h)
         (next_tid h) (console h ++ [msg])%list (BACKEND_URL h) (constructible h).

(** [setInterval] / [setTimeout]: a fresh id, returned with the new
    state; both draw their ids from one pool. *)
Definition set_timer (delay : Z) (per : option Z) (cb : timer_callback) (h : hook)
  : nat * hook :=
  (next_tid h,
   mkHook (isConnected h) (lastMessage h) (connectionError h) (wsRef h)
          (reconnectTimeoutRef h) (pingIntervalRef h) (sockets h)
          (timers h ++ [mkTimer (next_tid h) (now h + delay) per cb])%list
          (now h) (S (next_tid h)) (console h) (BACKEND_URL h) (constructible h)).

Definition setInterval (cb : timer_callback) (delay : Z) (h : hook) : nat * hook :=
  set_timer delay (Some delay) cb h.

Definition setTimeout (cb : timer_callback) (delay : Z) (h : hook) : nat * hook :=
  set_timer delay None cb h.

(** [clearInterval(ref)] / [clearTimeout(ref)]: nothing happens for
    [null] or for an id that is no longer pending. *)
Definition clear_timer (r : option nat) (h : hook) : hook :=
  match r with
  | None => h
  | Some i => set_timers (filter (fun t => negb (tid t =? i)%nat) (timers h)) h
  end.

Definition clearInterval := clear_timer.
Definition clearTimeout := clear_timer.

Fixpoint update_socket (l : list socket) (sid : nat) (f : socket -> socket)
  : list socket :=
  match l, sid with
  | [], _ => []
  | s :: r, 0%nat => f s :: r
  | s :: r, S n => s :: update_socket r n f
  end.

Definition set_readyState (r : ReadyState) (s : socket) : socket :=
  mkSocket (url s) r (sent s) (closure_gameId s) (closure_playerId s).

Definition push_sent (payload : string) (s : socket) : socket :=
  mkSocket (url s) (readyState s) (sent s ++ [payload])%list
           (closure_gameId s) (closure_playerId s).

(** [wsRef.current?.readyState === WebSocket.OPEN] *)
Definition current_is_open (h : hook) : bool :=
  match wsRef h with
  | Some sid =>
      match nth_error (sockets h) sid with
      | Some s => ReadyState_eqb (readyState s) OPEN
      | None => false
      end
  | None => false
  end.

(** [if (wsRef.current?.readyState === WebSocket.OPEN)
       wsRef.current.send(payload)] *)
Definition send_if_open (payload : string) (h : hook) : hook :=
  if current_is_open h then
    match wsRef h with
    | Some sid => set_sockets (update_socket (sockets h) sid (push_sent payload)) h
    | None => h
    end
  else h.

(** [JSON.stringify({ type: 'ping' })] *)
Definition quoted (s : string) : string :=
  String (ascii_of_nat 34) (s ++ String (ascii_of_nat 34) EmptyString).

Definition ping : string := "{" ++ quoted "type" ++ ":" ++ quoted "ping" ++ "}".

(** [connect]: nothing at all without a game id and a player id;
    otherwise a new socket becomes [wsRef.current], unless the
    constructor throws. *)
Definition connect (gameId playerId : Js.ref) (h : hook) : hook :=
  if negb (Js.truthy gameId) || negb (Js.truthy playerId) then h
  else
    let wsUrl := Api.getWebSocketUrl (BACKEND_URL h) gameId playerId in
    if constructible h wsUrl then
      set_wsRef (Some (List.length (sockets h)))
        (set_sockets (sockets h ++ [mkSocket wsUrl CONNECTING [] gameId playerId])%list h)
    else
      setConnectionError (Some "Failed to connect")
        (console_error "Failed to create WebSocket:" h).

Definition PING_INTERVAL : Z := 30000.
Definition RECONNECT_DELAY : Z := 2000.

(** [onopen] *)
Definition onopen (h : hook) : hook :=
  let h1 := setConnectionError None (setIsConnected true h) in
  let '(i, h2) := setInterval PingIfOpen PING_INTERVAL h1 in
  set_pingIntervalRef (Some i) h2.

(** [onmessage], given what [JSON.parse(event.data)] does. *)
Definition onmessage (r : Push.parse_outcome) (h : hook) : hook :=
  match r with
  | Push.SyntaxError => console_error "Failed to parse WebSocket message:" h
  | Push.Parsed data =>
      match Push.get_type data with
      | None => console_error "Failed to parse WebSocket message:" h
      | Some t =>
          if negb (Js.strict_eq t (Js.Str "pong"))
          then setLastMessage (Some data) h
          else h
      end
  end.

(** [onclose] of a socket created by [connect(gameId, playerId)] *)
Definition onclose (gameId playerId : Js.ref) (h : hook) : hook :=
  let h1 := clearInterval (pingIntervalRef h) (setIsConnected false h) in
  let '(i, h2) := setTimeout (Reconnect gameId playerId) RECONNECT_DELAY h1 in
  set_reconnectTimeoutRef (Some i) h2.

(** [onerror] *)
Definition onerror (h : hook) : hook :=
  setConnectionError (Some "Connection error") (console_error "WebSocket error:" h).

(** [disconnect] *)
Definition disconnect (h : hook) : hook :=
  let h1 := clearInterval (pingIntervalRef h) (clearTimeout (reconnectTimeoutRef h) h) in
  let h2 :=
    match wsRef h1 with
    | Some sid =>
        set_wsRef None
          (set_sockets
             (update_socket (sockets h1) sid
                (fun s => match readyState s with
                          | CLOSED => s
                          | _ => set_readyState CLOSING s
                          end)) h1)
    | None => h1
    end in
  setIsConnected false h2.

(** [sendMessage] with an already serialised message. *)
Definition sendMessage (payload : string) (h : hook) : hook :=
  send_if_open payload h.

(** [sendMove(position)] *)
Definition sendMove (position : Z) (h : hook) : hook :=
  sendMessage ("{" ++ quoted "type" ++ ":" ++ quoted "move" ++ ","
                   ++ quoted "position" ++ ":" ++ Js.show position ++ "}") h.

(** A timer callback runs. *)
Definition fire (cb : timer_callback) (h : hook) : hook :=
  match cb with
  | PingIfOpen => send_if_open ping h
  | Reconnect gameId playerId =>
      if Js.truthy gameId && Js.truthy playerId then connect gameId playerId h else h
  end.

(** After a timer ran: an interval is due again one period later, a
    timeout is gone. *)
Definition reschedule (t : Z) (l : list timer) : list timer :=
  flat_map (fun x =>
              if due x =? t then
                match period x with
                | Some p => [mkTimer (tid x) (t + p) (Some p) (callback x)]
                | None => []
                end
              else [x]) l.

(** One millisecond passes: the timers due at the new instant run, in the
    order they were set. *)
Definition tick (h : hook) : hook :=
  let t := now h + 1 in
  let due_now := filter (fun x => due x =? t) (timers h) in
  fold_left (fun acc x => fire (callback x) acc) due_now
            (set_timers (reschedule t (timers h)) (set_now t h)).

(** [n] milliseconds pass with no other event. *)
Fixpoint elapse (n : nat) (h : hook) : hook :=
  match n with
  | 0%nat => h
  | S n' => elapse n' (tick h)
  end.

(** What happens to the hook: the effect runs [connect] or its cleanup
    runs [disconnect], the browser reports on a socket, time passes, or
    the page sends a move. *)
Inductive event : Type :=
| Connect
| Disconnect
| SocketOpen (sid : nat)
| SocketMessage (sid : nat) (r : Push.parse_outcome)
| SocketClose (sid : nat)
| SocketError (sid : nat)
| Elapse (ms : nat)
| SendMove (position : Z).

(** The browser delivers a socket event to the handlers of that socket,
    and only in a state of the socket where the event can occur. *)
Definition handle (gameId playerId : Js.ref) (h : hook) (e : event) : hook :=
  match e with
  | Connect => connect gameId playerId h
  | Disconnect => disconnect h
  | SocketOpen sid =>
      match nth_error (sockets h) sid with
      | Some s =>
          match readyState s with
          | CONNECTING =>
              onopen (set_sockets (update_socket (sockets h) sid (set_readyState OPEN)) h)
          | _ => h
          end
      | None => h
      end
  | SocketMessage sid r =>
      match nth_error (sockets h) sid with
      | Some s =>
          match readyState s with
          | OPEN => onmessage r h
          | _ => h
          end
      | None => h
      end
  | SocketClose sid =>
      match nth_error (sockets h) sid with
      | Some s =>
          match readyState s with
          | CLOSED => h
          | _ =>
              onclose (closure_gameId s) (closure_playerId s)
                (set_sockets (update_socket (sockets h) sid (set_readyState CLOSED)) h)
          end
      | None => h
      end
  | SocketError sid =>
      match nth_error (sockets h) sid with
      | Some _ => onerror h
      | None => h
      end
  | Elapse ms => elapse ms h
  | SendMove position => sendMove position h
  end.

Definition run (gameId playerId : Js.ref) (h : hook) (es : list event) : hook :=
  fold_left (handle gameId playerId) es h.

End WebSocketHook.

(** ** [components/game/GameBoard] and [GameCell] *)

Module GameBoard.

(** [disabled={disabled || cell !== null}] handed to each [GameCell],
    which puts it on its button. *)
Definition cell_disabled (disabled : bool) (cell : option Mark) : bool :=
  disabled || match cell with Some _ => true | None => false end.

(** A click on the button of cell [i]: [onCellClick(i)] is called
    unless there is no such cell or its button is disabled. *)
Definition click {S E : Type} (board : Board) (disabled : bool)
           (onCellClick : Z -> S -> S * list E) (i : Z) (st : S)
  : S * list E :=
  match index board i with
  | Some cell => if cell_disabled disabled cell then (st, []) else onCellClick i st
  | None => (st, [])
  end.

End GameBoard.

(** ** [pages/GamePage] *)

Module GamePage.

Record page : Type := mkPage {
  gameId : string;
  player : option Player;
  game : option Game;
  loading : bool;
  actionLoading : bool
}.

Definition setGame (g : option Game) (st : page) : page :=
  mkPage (gameId st) (player st) g (loading st) (actionLoading st).

Definition setActionLoading (b : bool) (st : page) : page :=
  mkPage (gameId st) (player st) (game st) (loading st) b.

(** First argument of [useWebSocket]:
    [game?.mode === 'online' ? gameId : null]. *)
Definition hook_gameId (st : page) : Js.ref :=
  match game st with
  | Some g => match mode g with
              | online => Js.Str (gameId st)
              | local => Js.Null
              end
  | None => Js.Null
  end.

(** Second argument of [useWebSocket]: [player?.id]. *)
Definition hook_playerId (st : page) : Js.ref := opt_id (player st).

(** [lastMessage.game] and [lastMessage.new_game_id]: [undefined] on a
    value that is not an object. *)
Definition prop_game (data : Push.json) : option Game :=
  match data with
  | Push.JObj m => Push.game m
  | _ => None
  end.

Definition prop_new_game_id (data : Push.json) : Js.ref :=
  match data with
  | Push.JObj m => Push.new_game_id m
  | _ => Js.Undefined
  end.

(** The effect on [lastMessage]; [lastMessage] is [null] until the hook
    surfaces a message. *)
Definition on_lastMessage (lastMessage : option Push.json) (st : page)
  : page * list effect :=
  match lastMessage with
  | None => (st, [])
  | Some data =>
      if Push.truthy data then
        match Push.get_type data with
        | None => (st, [])
        | Some t =>
            let of_type s := Js.strict_eq t (Js.Str s) in
            if of_type "game_update" || of_type "connected" || of_type "player_joined"
            then
              (setGame (prop_game data) st,
               if of_type "player_joined"
               then [Toast TSuccess "Opponent joined the game!"] else [])
            else if of_type "player_disconnected" then
              (st, [Toast TWarning "Opponent disconnected"])
            else if of_type "rematch_created" then
              (st, [Toast TSuccess "Rematch starting...";
                    Navigate ("/game/" ++ Js.template (prop_new_game_id data))])
            else (st, [])
        end
      else (st, [])
  end.

Definition isPlayerX (st : page) (g : Game) : bool :=
  Js.strict_eq (opt_id (player st)) (player_x_id g).

Definition isMyTurn (st : page) (g : Game) : bool :=
  match current_turn (state g) with
  | MarkX => isPlayerX st g
  | MarkO => negb (isPlayerX st g)
  end.

(** [handleCellClick], up to the request it awaits.  With no player,
    [player.id] throws inside the [try]: the [catch] shows the default
    error and [finally] resets [actionLoading]. *)
Definition handleCellClick (position : Z) (st : page) : page * list effect :=
  match game st with
  | None => (st, [])
  | Some g =>
      match status g with
      | in_progress =>
          if actionLoading st then (st, [])
          else
            if match mode g with local => true | online => false end || isMyTurn st g
            then
              match player st with
              | Some p =>
                  (setActionLoading true st,
                   [Request (Api.makeMove (gameId st) (player_id p) position)])
              | None =>
                  (setActionLoading false st, [Toast TError "Failed to make move"])
              end
            else (st, [])
      | _ => (st, [])
      end
  end.

(** The awaited [makeMove] resolves with the updated game. *)
Definition move_resolved (updatedGame : Game) (st : page) : page * list effect :=
  (setActionLoading false (setGame (Some updatedGame) st),
   match status updatedGame with
   | completed =>
       if is_draw (state updatedGame) then [Toast TInfo "It's a draw!"]
       else [Toast TSuccess
               (match winner (state updatedGame) with
                | Some MarkX => player_x_username updatedGame
                | _ => Js.template (player_o_username updatedGame)
                end ++ " wins!")]
   | _ => []
   end).

(** The awaited [makeMove] rejects, with the server's [detail] if any. *)
Definition move_rejected (detail : option string) (st : page) : page * list effect :=
  (setActionLoading false st,
   [Toast TError match detail with
                 | Some d => if String.eqb d EmptyString then "Failed to make move" else d
                 | None => "Failed to make move"
                 end]).

(** [disabled={isGameOver || game.status === 'waiting' || actionLoading}] *)
Definition board_disabled (st : page) (g : Game) : bool :=
  match status g with
  | completed => true
  | waiting => true
  | in_progress => actionLoading st
  end.

(** The user clicks cell [i] of the board; the board is on screen
    only when the page is neither loading nor without a game. *)
Definition click_cell (i : Z) (st : page) : page * list effect :=
  if loading st then (st, [])
  else match game st with
       | Some g =>
           GameBoard.click (board (state g)) (board_disabled st g)
                           handleCellClick i st
       | None => (st, [])
       end.

(** The navigations among the effects of an action. *)
Definition navigations (es : list effect) : list string :=
  flat_map (fun e => match e with Navigate p => [p] | _ => [] end) es.

End GamePage.

(** ** Concrete participants and games used in the examples *)

Definition alice : Player := mkPlayer "p-alice" "alice".
Definition bob : Player := mkPlayer "p-bob" "bob".
Definition carol : Player := mkPlayer "p-carol" "carol".

(** An online game between alice (X) and bob (O) after X played the
    centre: it is O's turn. *)
Definition game_after_centre : Game :=
  Backend.run (Backend.create "g1" "ABC123" online alice)
              [Backend.Join bob; Backend.MoveBy "p-alice" 4 1000].

Definition waiting_game : Game := Backend.create "g2" "XYZ789" online alice.

Definition local_game : Game := Backend.create "g3" "LOC456" local alice.

(** A replay payload as section 4.5 describes it: one snapshot more than
    there are moves, and the move count. *)
Definition well_formed (d : ReplayData) : Prop :=
  total_moves d = Z.of_nat (List.length (moves (game d))) /\
  List.length (snapshots d) = S (List.length (moves (game d))).

(** The replay page showing payload [d] with its index inside the
    snapshot sequence. *)
Definition in_range (d : ReplayData) (st : ReplayPage.page) : Prop :=
  ReplayPage.replayData st = Some d /\
  ReplayPage.loading st = false /\
  0 <= ReplayPage.currentMoveIndex st <= total_moves d.

(** The payload the server sends for a game, when its log replays. *)
Definition payload_of (g : Game) : ReplayData :=
  match Backend.replay g with
  | Some d => d
  | None => mkReplayData g [] 0
  end.

(** The join dialog as opened by alice. *)
Definition join_dialog : HomePage.page :=
  HomePage.mkPage (Some alice) EmptyString false true.

(** ** One connection of the hook, in closed form

    The states a fresh hook goes through when it connects for a game and a
    player, the socket opens, [n] milliseconds pass, the socket closes, and
    [m] more milliseconds pass.  The lemmas below show that the hook is in
    these states. *)

Section Lifecycle.

Variables (backend : string) (ok : string -> bool) (gameId playerId : Js.ref).

Definition wsUrl : string := Api.getWebSocketUrl backend gameId playerId.

(** The pings sent in [n] milliseconds: one per full 30 s. *)
Definition pings (n : nat) : list string :=
  repeat WebSocketHook.ping (Z.to_nat (Z.of_nat n / 30000)).

Definition while_open (n : nat) : WebSocketHook.hook :=
  WebSocketHook.mkHook true None None (Some 0%nat) None (Some 1%nat)
    [WebSocketHook.mkSocket wsUrl WebSocketHook.OPEN (pings n) gameId playerId]
    [WebSocketHook.mkTimer 1 (30000 * (Z.of_nat n / 30000 + 1)) (Some 30000)
                           WebSocketHook.PingIfOpen]
    (Z.of_nat n) 2 [] backend ok.

Definition after_close (n m : nat) : WebSocketHook.hook :=
  if Z.of_nat m <? 2000 then
    WebSocketHook.mkHook false None None (Some 0%nat) (Some 2%nat) (Some 1%nat)
      [WebSocketHook.mkSocket wsUrl WebSocketHook.CLOSED (pings n) gameId playerId]
      [WebSocketHook.mkTimer 2 (Z.of_nat n + 2000) None
                             (WebSocketHook.Reconnect gameId playerId)]
      (Z.of_nat n + Z.of_nat m) 3 [] backend ok
  else
    WebSocketHook.mkHook false None None (Some 1%nat) (Some 2%nat) (Some 1%nat)
      [WebSocketHook.mkSocket wsUrl WebSocketHook.CLOSED (pings n) gameId playerId;
       WebSocketHook.mkSocket wsUrl WebSocketHook.CONNECTING [] gameId playerId]
      []
      (Z.of_nat n + Z.of_nat m) 3 [] backend ok.

End Lifecycle.

(** ** Invariants used below *)

(** A hook that never opened anything: no socket, no pending timer, no
    current socket, not connected. *)
Definition idle (h : WebSocketHook.hook) : Prop :=
  WebSocketHook.sockets h = [] /\ WebSocketHook.timers h = [] /\
  WebSocketHook.wsRef h = None /\ WebSocketHook.isConnected h = false.

(** The stored board is the fold of the stored log. *)
Definition log_consistent (g : Game) : Prop :=
  Backend.board_after Backend.empty_board (moves g) = Some (board (state g)).

(** The stored outcome is what [evaluate] says of the stored board. *)
Definition outcome_consistent (g : Game) : Prop :=
  match Backend.evaluate (board (state g)) with
  | Backend.Win m t =>
      status g = completed /\ winner (state g) = Some m /\
      winning_line (state g) = Some t /\ is_draw (state g) = false
  | Backend.Draw =>
      status g = completed /\ winner (state g) = None /\
      winning_line (state g) = None /\ is_draw (state g) = true
  | Backend.InProgress =>
      status g <> completed /\ winner (state g) = None /\
      winning_line (state g) = None /\ is_draw (state g) = false
  end.

(** ** [lib/api.js]: the remaining calls used by the pages *)

Module ApiRest.

Definition show_mode (m : Mode) : string :=
  match m with local => "local" | online => "online" end.

Definition createOrGetPlayer (username : string) : Api.request :=
  Api.mkRequest Api.POST "/players" [("username", Api.BStr username)].

Definition updateUsername (playerId newUsername : string) : Api.request :=
  Api.mkRequest Api.PUT ("/players/" ++ playerId ++ "/username")
    [("username", Api.BStr newUsername)].

Definition createGame (m : Mode) (playerId : string) : Api.request :=
  Api.mkRequest Api.POST "/games"
    [("mode", Api.BStr (show_mode m)); ("player_id", Api.BStr playerId)].

Definition getWaitingGames : Api.request :=
  Api.mkRequest Api.GET "/games/waiting" [].

Definition requestRematch (gameId playerId : string) (m : Mode) : Api.request :=
  Api.mkRequest Api.POST ("/games/" ++ gameId ++ "/rematch")
    [("player_id", Api.BStr playerId); ("mode", Api.BStr (show_mode m))].

End ApiRest.

(** ** [pages/HomePage]: the username form, shown while there is no player *)

Module UsernameForm.

Record page : Type := mkPage {
  username : string;
  loading : bool
}.

(** [handleSetUsername], up to the request it awaits. *)
Definition handleSetUsername (J : Js.strings) (st : page) : page * list effect :=
  if String.eqb (Js.trim J (username st)) EmptyString
  then (st, [Toast TError "Please enter a username"])
  else (mkPage (username st) true,
        [Request (ApiRest.createOrGetPlayer (Js.trim J (username st)))]).

(** The form is submitted through its button, which is [disabled={loading}]. *)
Definition submit (J : Js.strings) (st : page) : page * list effect :=
  if loading st then (st, []) else handleSetUsername J st.

End UsernameForm.

(** ** [pages/ProfilePage] *)

Module ProfilePage.

Record page : Type := mkPage {
  player : option Player;
  username : string;
  isLoading : bool
}.

(** [disabled={isLoading || !username.trim()
              || username.trim() === player?.username}] *)
Definition submit_disabled (J : Js.strings) (st : page) : bool :=
  isLoading st
  || String.eqb (Js.trim J (username st)) EmptyString
  || match player st with
     | Some p => String.eqb (Js.trim J (username st)) (player_username p)
     | None => false
     end.

(** [handleSubmit], up to the request it awaits; with no player,
    [player.id] throws before anything is sent. *)
Definition handleSubmit (J : Js.strings) (st : page) : page * list effect :=
  if String.eqb (Js.trim J (username st)) EmptyString then (st, [])
  else match player st with
       | Some p =>
           (mkPage (player st) (username st) true,
            [Request (ApiRest.updateUsername (player_id p) (Js.trim J (username st)))])
       | None =>
           (mkPage (player st) (username st) false,
            [Toast TError "Failed to update username"])
       end.

Definition submit (J : Js.strings) (st : page) : page * list effect :=
  if submit_disabled J st then (st, []) else handleSubmit J st.

(** The effect on [player]: [setUsername(player.username || '')], or a
    navigation home when there is no player. *)
Definition on_player (st : page) : page * list effect :=
  match player st with
  | Some p => (mkPage (player st) (player_username p) (isLoading st), [])
  | None => (st, [Navigate "/"])
  end.

(** The awaited [updateUsername] resolves, in a handler that was called
    with player [p] and entry [entered]: [setPlayer({ ...player,
    username: username.trim() })], the toast, [setIsLoading(false)]; the
    player changed, so the effect on [player] follows. *)
Definition update_resolved (J : Js.strings) (p : Player) (entered : string) (st : page)
  : page * list effect :=
  let stored := mkPlayer (player_id p) (Js.trim J entered) in
  let (st', es) := on_player (mkPage (Some stored) (username st) false) in
  (st', Toast TSuccess "Username updated successfully!" :: es).

End ProfilePage.

(** ** [pages/LobbyPage] *)

Module LobbyPage.

Record page : Type := mkPage {
  player : option Player;
  games : list Game;
  loading : bool;
  creating : bool;
  joining : option string
}.

(** [games.filter(g => g.player_x_id !== player?.id)] *)
Definition availableGames (st : page) : list Game :=
  filter (fun g => negb (Js.strict_eq (player_x_id g) (opt_id (player st)))) (games st).

(** [games.find(g => g.player_x_id === player?.id)] *)
Definition myWaitingGame (st : page) : option Game :=
  find (fun g => Js.strict_eq (player_x_id g) (opt_id (player st))) (games st).

(** [handleCreateGame], up to the request it awaits. *)
Definition handleCreateGame (st : page) : page * list effect :=
  match player st with
  | None => (st, [])
  | Some p =>
      (mkPage (player st) (games st) (loading st) true (joining st),
       [Request (ApiRest.createGame online (player_id p))])
  end.

(** [handleJoinGame(gameId)], up to the request it awaits. *)
Definition handleJoinGame (gameId : string) (st : page) : page * list effect :=
  match player st with
  | None => (st, [])
  | Some p =>
      (mkPage (player st) (games st) (loading st) (creating st) (Some gameId),
       [Request (Api.joinGame gameId (player_id p))])
  end.

(** The "Create New Game" button is rendered only without a waiting game of
    one's own, and is [disabled={creating}]. *)
Definition click_create (st : page) : page * list effect :=
  match myWaitingGame st with
  | Some _ => (st, [])
  | None => if creating st then (st, []) else handleCreateGame st
  end.

(** The Join button of the [n]-th available game; it is
    [disabled={joining === game.id}]. *)
Definition click_join_game (n : nat) (st : page) : page * list effect :=
  match nth_error (availableGames st) n with
  | None => (st, [])
  | Some g =>
      match joining st with
      | Some j => if String.eqb j (id g) then (st, []) else handleJoinGame (id g) st
      | None => handleJoinGame (id g) st
      end
  end.

End LobbyPage.

(** ** [pages/HistoryPage] *)

Module HistoryPage.

(** [getGameResult(game)] for the logged-in player. *)
Definition getGameResult (player : option Player) (g : Game) : string :=
  if is_draw (state g) then "draw"
  else
    let isPlayerX := Js.strict_eq (opt_id player) (player_x_id g) in
    let playerWon :=
      match winner (state g) with
      | Some MarkX => isPlayerX
      | Some MarkO => negb isPlayerX
      | None => false
      end in
    if playerWon then "win" else "loss".

(** [getResultLabel(result)] *)
Definition getResultLabel (result : string) : string :=
  if String.eqb result "win" then "Victory"
  else if String.eqb result "loss" then "Defeat"
  else "Draw".

End HistoryPage.

(** ** [components/game/GameStatus] *)

Module GameStatus.

Record props : Type := mkProps {
  status : Status;
  currentTurn : Mark;
  winner : option Mark;
  isDraw : bool;
  playerXUsername : string;
  playerOUsername : Js.ref;
  currentPlayerId : Js.ref;
  playerXId : Js.ref
}.

(** What the component renders, by [data-testid]: the draw banner, the
    winner banner with its class and text, the waiting notice, or the turn
    indicator with its text, its mark and whether the "your turn" icon
    shows.  The winner's name is a JSX child ([{winnerName} Wins!]); the
    name in the turn text sits in a template literal. *)
Inductive view : Type :=
| GameResultDraw
| GameResultWinner (cls text : string)
| GameStatusWaiting
| GameStatusTurn (yours : bool) (text mark : string).

Definition isPlayerX (p : props) : bool :=
  Js.strict_eq (currentPlayerId p) (playerXId p).

Definition isMyTurn (p : props) : bool :=
  match currentTurn p with
  | MarkX => isPlayerX p
  | MarkO => negb (isPlayerX p)
  end.

Definition render (p : props) : view :=
  match status p with
  | completed =>
      if isDraw p then GameResultDraw
      else GameResultWinner
             (match winner p with Some MarkX => "winner-x" | _ => "winner-o" end)
             (match winner p with
              | Some MarkX => playerXUsername p
              | _ => Js.jsx_child (playerOUsername p)
              end ++ " Wins!")
  | waiting => GameStatusWaiting
  | in_progress =>
      GameStatusTurn (isMyTurn p)
        (if isMyTurn p then "Your Turn"
         else match currentTurn p with
              | MarkX => playerXUsername p
              | MarkO => Js.template (playerOUsername p)
              end ++ "'s Turn")
        (MoveHistory.show_mark (currentTurn p))
  end.

End GameStatus.

(** The props [GamePage] hands to [GameStatus]. *)
Definition status_props (st : GamePage.page) (g : Game) : GameStatus.props :=
  GameStatus.mkProps (status g) (current_turn (state g)) (winner (state g))
    (is_draw (state g)) (player_x_username g) (player_o_username g)
    (opt_id (GamePage.player st)) (player_x_id g).

(** ** [pages/GamePage]: loading, rematch and replay actions *)

Module GamePageActions.

(** An effect that happens at once, or after a [setTimeout] delay in
    milliseconds. *)
Inductive timed : Type :=
| Now (e : effect)
| After (ms : Z) (e : effect).

(** [fetchGame] settles: the game is held, or an error is shown and the
    page leaves for the home page; loading ends either way. *)
Definition fetch_resolved (gameData : Game) (st : GamePage.page)
  : GamePage.page * list effect :=
  (GamePage.mkPage (GamePage.gameId st) (GamePage.player st) (Some gameData) false
                   (GamePage.actionLoading st), []).

Definition fetch_rejected (st : GamePage.page) : GamePage.page * list effect :=
  (GamePage.mkPage (GamePage.gameId st) (GamePage.player st) (GamePage.game st) false
                   (GamePage.actionLoading st),
   [Toast TError "Failed to load game"; Navigate "/"]).

(** The effect "redirect if no player". *)
Definition redirect_if_no_player (st : GamePage.page) : list effect :=
  match GamePage.player st with
  | None => if GamePage.loading st then [] else [Navigate "/"]
  | Some _ => []
  end.

(** [handleRematch], up to the request it awaits. *)
Definition handleRematch (st : GamePage.page) : GamePage.page * list effect :=
  match GamePage.game st, GamePage.player st with
  | Some g, Some p =>
      (GamePage.setActionLoading true st,
       [Request (ApiRest.requestRematch (GamePage.gameId st) (player_id p) (mode g))])
  | _, _ => (st, [])
  end.

(** The awaited [requestRematch] resolves: the held game is cleared and the
    page navigates to the new game 100 ms later. *)
Definition rematch_resolved (newGame : Game) (st : GamePage.page)
  : GamePage.page * list timed :=
  (GamePage.setActionLoading false (GamePage.setGame None st),
   [After 100 (Navigate ("/game/" ++ id newGame))]).

Definition rematch_rejected (st : GamePage.page) : GamePage.page * list timed :=
  (GamePage.setActionLoading false st, [Now (Toast TError "Failed to create rematch")]).

(** The Rematch button: rendered once the page shows a completed game,
    [disabled={actionLoading}]. *)
Definition click_rematch (st : GamePage.page) : GamePage.page * list effect :=
  if GamePage.loading st then (st, [])
  else match GamePage.game st with
       | Some g =>
           match status g with
           | completed =>
               if GamePage.actionLoading st then (st, []) else handleRematch st
           | _ => (st, [])
           end
       | None => (st, [])
       end.

(** The View Replay button, rendered beside it: [handleViewReplay]. *)
Definition click_view_replay (st : GamePage.page) : GamePage.page * list effect :=
  if GamePage.loading st then (st, [])
  else match GamePage.game st with
       | Some g =>
           match status g with
           | completed => (st, [Navigate ("/replay/" ++ GamePage.gameId st)])
           | _ => (st, [])
           end
       | None => (st, [])
       end.

End GamePageActions.

(** ** More states of one connection of the hook, in closed form

    After [n] ms of open connection: the hook disconnects and [m] ms pass;
    then the browser reports the close and [k] more ms pass.  And, after a
    close and a reconnect [k] ms past the 2 s delay, the new socket opens
    and [m] ms pass. *)

Section MoreLifecycle.

Variables (backend : string) (ok : string -> bool) (gameId playerId : Js.ref).

Definition after_disconnect (n m : nat) : WebSocketHook.hook :=
  WebSocketHook.mkHook false None None None None (Some 1%nat)
    [WebSocketHook.mkSocket (wsUrl backend gameId playerId) WebSocketHook.CLOSING
                            (pings n) gameId playerId]
    [] (Z.of_nat n + Z.of_nat m) 2 [] backend ok.

Definition after_late_close (n m k : nat) : WebSocketHook.hook :=
  if Z.of_nat k <? 2000 then
    WebSocketHook.mkHook false None None None (Some 2%nat) (Some 1%nat)
      [WebSocketHook.mkSocket (wsUrl backend gameId playerId) WebSocketHook.CLOSED
                              (pings n) gameId playerId]
      [WebSocketHook.mkTimer 2 (Z.of_nat n + Z.of_nat m + 2000) None
                             (WebSocketHook.Reconnect gameId playerId)]
      (Z.of_nat n + Z.of_nat m + Z.of_nat k) 3 [] backend ok
  else
    WebSocketHook.mkHook false None None (Some 1%nat) (Some 2%nat) (Some 1%nat)
      [WebSocketHook.mkSocket (wsUrl backend gameId playerId) WebSocketHook.CLOSED
                              (pings n) gameId playerId;
       WebSocketHook.mkSocket (wsUrl backend gameId playerId) WebSocketHook.CONNECTING
                              [] gameId playerId]
      []
      (Z.of_nat n + Z.of_nat m + Z.of_nat k) 3 [] backend ok.


End MoreLifecycle.

(** ** One connection of the hook, whatever the hook did before *)

(** [JSON.stringify({ type: 'move', position })], the payload of
    [sendMove]. *)
Definition move_payload (position : Z) : string :=
  "{" ++ WebSocketHook.quoted "type" ++ ":" ++ WebSocketHook.quoted "move" ++ ","
      ++ WebSocketHook.quoted "position" ++ ":" ++ Js.show position ++ "}".

(** Every socket but the one at [sid] is closed. *)
Fixpoint others_closed (l : list WebSocketHook.socket) (sid : nat) : bool :=
  match l, sid with
  | [], _ => true
  | _ :: r, 0%nat =>
      forallb (fun s => WebSocketHook.ReadyState_eqb (WebSocketHook.readyState s)
                                                     WebSocketHook.CLOSED) r
  | s :: r, S n =>
      WebSocketHook.ReadyState_eqb (WebSocketHook.readyState s) WebSocketHook.CLOSED
      && others_closed r n
  end.

(** The socket at [sid] is about to open with nothing else of the hook
    around: it is the socket of [wsRef.current] and still connecting, no
    timer is pending, and every other socket the hook created is closed.
    This is the hook after its first [connect], and after each reconnect
    that followed a close. *)
Definition undisturbed (h : WebSocketHook.hook) (sid : nat) : bool :=
  match WebSocketHook.wsRef h with
  | Some r => (r =? sid)%nat
  | None => false
  end
  && match nth_error (WebSocketHook.sockets h) sid with
     | Some s => WebSocketHook.ReadyState_eqb (WebSocketHook.readyState s)
                                              WebSocketHook.CONNECTING
     | None => false
     end
  && match WebSocketHook.timers h with
     | [] => true
     | _ :: _ => false
     end
  && others_closed (WebSocketHook.sockets h) sid.

(** The events under which the connection at [sid] stays open: the
    effect of the hook does not run again (no [connect], no [disconnect])
    and the socket does not close. *)
Definition stays_open (sid : nat) (e : WebSocketHook.event) : bool :=
  match e with
  | WebSocketHook.Connect | WebSocketHook.Disconnect => false
  | WebSocketHook.SocketClose j => negb (j =? sid)%nat
  | _ => true
  end.

Definition duration (e : WebSocketHook.event) : Z :=
  match e with
  | WebSocketHook.Elapse ms => Z.of_nat ms
  | _ => 0
  end.

(** What an event should put on the wire of a connection that has been
    open for [T] ms: a ping for each multiple of 30 000 ms that the
    elapsed time reaches, the payload of a move. *)
Definition emitted (T : Z) (e : WebSocketHook.event) : list string :=
  match e with
  | WebSocketHook.Elapse ms =>
      repeat WebSocketHook.ping (Z.to_nat ((T + Z.of_nat ms) / 30000 - T / 30000))
  | WebSocketHook.SendMove position => [move_payload position]
  | _ => []
  end.

Fixpoint outgoing (T : Z) (es : list WebSocketHook.event) : list string :=
  match es with
  | [] => []
  | e :: r => (emitted T e ++ outgoing (T + duration e) r)%list
  end.

(** The hook while the connection at [sid] is open and its heartbeat
    runs: the socket opened at instant [t0] as [s0], [T] ms ago, and has
    sent [L] since; the ping interval [i] is the only pending timer. *)
Definition beating (sid : nat) (s0 : WebSocketHook.socket) (t0 : Z) (i : nat)
           (backend : string) (ok : string -> bool)
           (L : list string) (T : Z) (h : WebSocketHook.hook) : Prop :=
  WebSocketHook.isConnected h = true /\
  WebSocketHook.wsRef h = Some sid /\
  WebSocketHook.pingIntervalRef h = Some i /\
  WebSocketHook.timers h
    = [WebSocketHook.mkTimer i (t0 + 30000 * (T / 30000 + 1)) (Some 30000)
                             WebSocketHook.PingIfOpen] /\
  WebSocketHook.now h = t0 + T /\
  nth_error (WebSocketHook.sockets h) sid
    = Some (WebSocketHook.mkSocket (WebSocketHook.url s0) WebSocketHook.OPEN
              (WebSocketHook.sent s0 ++ L)%list
              (WebSocketHook.closure_gameId s0) (WebSocketHook.closure_playerId s0)) /\
  others_closed (WebSocketHook.sockets h) sid = true /\
  WebSocketHook.BACKEND_URL h = backend /\
  WebSocketHook.constructible h = ok.

(** The online game of alice (X) and bob (O) that X won on the first
    column. *)
Definition finished_game : Game :=
  Eval vm_compute in
    Backend.run (Backend.create "g4" "WIN036" online alice)
      [Backend.Join bob;
       Backend.MoveBy "p-alice" 0 1; Backend.MoveBy "p-bob" 1 2;
       Backend.MoveBy "p-alice" 3 3; Backend.MoveBy "p-bob" 4 4;
       Backend.MoveBy "p-alice" 6 5].

(** ** Properties of the coordinate mapping *)

Lemma coord_cases (p : Z) :
  0 <= p <= 8 ->
  p = 0 \/ p = 1 \/ p = 2 \/ p = 3 \/ p = 4 \/ p = 5 \/ p = 6 \/ p = 7 \/ p = 8.
Proof. lia. Qed.

Ltac each_cell p H :=
  destruct (coord_cases p H) as [->|[->|[->|[->|[->|[->|[->|[->| ->]]]]]]]].

(** C9: the move-history coordinate mapping sends a cell index [p] in 0..8 to
    the pair (floor(p/3)+1, (p mod 3)+1), rendered as "(row,col)"; the pair
    lies in {1,2,3} x {1,2,3}; distinct indices give distinct coordinates
    (also as rendered strings) and every pair of {1,2,3} x {1,2,3} is
    reached. *)
Theorem positionToCoord_bijection :
  (forall p, 0 <= p <= 8 ->
     MoveHistory.coord p = (p / 3 + 1, p mod 3 + 1) /\
     MoveHistory.positionToCoord p =
       "(" ++ Js.show (p / 3 + 1) ++ "," ++ Js.show (p mod 3 + 1) ++ ")" /\
     1 <= fst (MoveHistory.coord p) <= 3 /\
     1 <= snd (MoveHistory.coord p) <= 3) /\
  (forall p q, 0 <= p <= 8 -> 0 <= q <= 8 ->
     MoveHistory.coord p = MoveHistory.coord q -> p = q) /\
  (forall p q, 0 <= p <= 8 -> 0 <= q <= 8 ->
     MoveHistory.positionToCoord p = MoveHistory.positionToCoord q -> p = q) /\
  (forall r c, 1 <= r <= 3 -> 1 <= c <= 3 ->
     exists p, 0 <= p <= 8 /\ MoveHistory.coord p = (r, c)).
Proof.
  repeat split.
  - unfold MoveHistory.coord, MoveHistory.col. rewrite Z.rem_mod_nonneg by lia.
    reflexivity.
  - unfold MoveHistory.positionToCoord, MoveHistory.col.
    rewrite Z.rem_mod_nonneg by lia. reflexivity.
  - unfold MoveHistory.coord, MoveHistory.row; simpl.
    assert (0 <= p / 3) by (apply Z.div_pos; lia). lia.
  - unfold MoveHistory.coord, MoveHistory.row; simpl.
    assert (p / 3 < 3) by (apply Z.div_lt_upper_bound; lia). lia.
  - unfold MoveHistory.coord, MoveHistory.col; simpl.
    rewrite Z.rem_mod_nonneg by lia.
    pose proof (Z.mod_pos_bound p 3). lia.
  - unfold MoveHistory.coord, MoveHistory.col; simpl.
    rewrite Z.rem_mod_nonneg by lia.
    pose proof (Z.mod_pos_bound p 3). lia.
  - intros p q Hp Hq. unfold MoveHistory.coord, MoveHistory.row, MoveHistory.col.
    rewrite !Z.rem_mod_nonneg by lia. intros E. injection E as E1 E2.
    rewrite (Z.div_mod p 3), (Z.div_mod q 3) by lia. lia.
  - intros p q Hp Hq.
    each_cell p Hp; each_cell q Hq; vm_compute; intros E;
      solve [reflexivity | discriminate E].
  - intros r c Hr Hc. exists (3 * (r - 1) + (c - 1)). split; [lia|].
    unfold MoveHistory.coord, MoveHistory.row, MoveHistory.col.
    rewrite Z.rem_mod_nonneg by lia.
    replace (3 * (r - 1) + (c - 1)) with ((c - 1) + (r - 1) * 3) by lia.
    rewrite Z.div_add, Z.mod_add by lia.
    rewrite Z.div_small, Z.mod_small by lia. f_equal; lia.
Qed.

Lemma positionToCoord_bijection_witness :
  MoveHistory.coord 7 = (3, 2) /\ MoveHistory.positionToCoord 7 = "(3,2)".
Proof.
  destruct (proj1 positionToCoord_bijection 7 ltac:(lia)) as (E & S & _).
  split; [exact E | exact S].
Defined.

(** ** The game page: cell clicks *)

(** When [handleCellClick] issues a request, and which one. *)
Lemma handleCellClick_submits (st : GamePage.page) (g : Game) (p : Player) (i : Z) :
  GamePage.game st = Some g ->
  GamePage.player st = Some p ->
  GamePage.handleCellClick i st =
    if match status g with in_progress => true | _ => false end
       && negb (GamePage.actionLoading st)
       && (match mode g with local => true | online => false end
           || GamePage.isMyTurn st g)
    then (GamePage.setActionLoading true st,
          [Request (Api.makeMove (GamePage.gameId st) (player_id p) i)])
    else (st, []).
Proof.
  intros Hg Hp. unfold GamePage.handleCellClick. rewrite Hg, Hp.
  destruct (status g); simpl; try reflexivity.
  destruct (GamePage.actionLoading st); simpl; reflexivity.
Qed.

(** In an online game a bound participant gets a request issued exactly on
    the turn of the mark bound to them. *)
Lemma isMyTurn_participant (st : GamePage.page) (g : Game) (p : Player) (x o : string) :
  GamePage.player st = Some p ->
  player_x_id g = Js.Str x -> player_o_id g = Js.Str o -> x <> o ->
  (player_id p = x -> GamePage.isMyTurn st g = Mark_eqb (current_turn (state g)) MarkX) /\
  (player_id p = o -> GamePage.isMyTurn st g = Mark_eqb (current_turn (state g)) MarkO).
Proof.
  intros Hp Hx Ho Hxo. unfold GamePage.isMyTurn, GamePage.isPlayerX, opt_id.
  rewrite Hp, Hx. split; intros E; rewrite E; simpl.
  - rewrite String.eqb_refl. destruct (current_turn (state g)); reflexivity.
  - assert (String.eqb o x = false) as -> by (apply String.eqb_neq; congruence).
    destruct (current_turn (state g)); reflexivity.
Qed.

(** C5: for a game that is not in progress, and for a click on an occupied
    cell, the click has no effect: the page state (the held game included)
    is unchanged and no request is issued.  The cells of a game that is not
    in progress are disabled, occupied cells are disabled, and
    [handleCellClick] itself returns without effect when the game is not in
    progress. *)
Theorem click_rejected_without_effect (st : GamePage.page) (g : Game) (i : Z) :
  GamePage.game st = Some g ->
  (status g <> in_progress ->
     GamePage.handleCellClick i st = (st, []) /\
     GamePage.click_cell i st = (st, []) /\
     (forall cell, GameBoard.cell_disabled (GamePage.board_disabled st g) cell = true)) /\
  (forall m, index (board (state g)) i = Some (Some m) ->
     GameBoard.cell_disabled (GamePage.board_disabled st g) (Some m) = true /\
     GamePage.click_cell i st = (st, [])).
Proof.
  intros Hg. split.
  - intros Hs.
    assert (Hd : GamePage.board_disabled st g = true).
    { unfold GamePage.board_disabled. destruct (status g); congruence. }
    repeat split.
    + unfold GamePage.handleCellClick. rewrite Hg.
      destruct (status g); congruence.
    + unfold GamePage.click_cell, GameBoard.click. rewrite Hg, Hd.
      destruct (GamePage.loading st); [reflexivity|].
      destruct (index (board (state g)) i); reflexivity.
    + intros cell. rewrite Hd. reflexivity.
  - intros m Hm. split.
    + unfold GameBoard.cell_disabled. apply orb_true_r.
    + unfold GamePage.click_cell, GameBoard.click. rewrite Hg, Hm.
      destruct (GamePage.loading st); [reflexivity|].
      unfold GameBoard.cell_disabled. rewrite orb_true_r. reflexivity.
Qed.

Lemma click_rejected_without_effect_witness :
  let st := GamePage.mkPage "g2" (Some alice) (Some waiting_game) false false in
  GamePage.handleCellClick 0 st = (st, []) /\ GamePage.click_cell 0 st = (st, []).
Proof.
  intros st.
  destruct (click_rejected_without_effect st waiting_game 0 eq_refl) as [H _].
  destruct (H ltac:(discriminate)) as (H1 & H2 & _).
  split; [exact H1 | exact H2].
Defined.

(** C4 (evaluated on the code): in an online game in progress between alice
    and bob where it is O's turn, a click by carol, who is bound to neither
    mark, makes the page issue a move request in carol's name. *)
Theorem move_submitted_for_unbound_user :
  let st := GamePage.mkPage "g1" (Some carol) (Some game_after_centre) false false in
  mode game_after_centre = online /\
  status game_after_centre = in_progress /\
  player_x_id game_after_centre = Js.Str "p-alice" /\
  player_o_id game_after_centre = Js.Str "p-bob" /\
  current_turn (state game_after_centre) = MarkO /\
  GamePage.isMyTurn st game_after_centre = true /\
  GamePage.click_cell 0 st =
    (GamePage.setActionLoading true st, [Request (Api.makeMove "g1" "p-carol" 0)]).
Proof. vm_compute. repeat split. Qed.

(** ** The game page: push messages *)

(** C6: a received [player_disconnected] message leaves the page state (the
    held game included) unchanged and navigates nowhere, it only shows a
    warning; [game_update], [connected] and [player_joined] replace the held
    game by the game carried in the message; [rematch_created] navigates to
    the new game id carried in the message: to the path [/game/] followed
    by that id.  Each of these messages is surfaced by the hook as
    [lastMessage] first. *)
Theorem push_message_effects (h : WebSocketHook.hook) (st : GamePage.page)
        (m : Push.message) :
  let received :=
    WebSocketHook.lastMessage (WebSocketHook.onmessage (Push.Parsed (Push.JObj m)) h) in
  (Push.type m = Js.Str "player_disconnected" ->
     GamePage.on_lastMessage received st = (st, [Toast TWarning "Opponent disconnected"])) /\
  (Push.type m = Js.Str "game_update" \/ Push.type m = Js.Str "connected"
   \/ Push.type m = Js.Str "player_joined" ->
     fst (GamePage.on_lastMessage received st) = GamePage.setGame (Push.game m) st /\
     GamePage.game (fst (GamePage.on_lastMessage received st)) = Push.game m /\
     GamePage.navigations (snd (GamePage.on_lastMessage received st)) = []) /\
  (Push.type m = Js.Str "rematch_created" ->
     GamePage.on_lastMessage received st =
       (st, [Toast TSuccess "Rematch starting...";
             Navigate ("/game/" ++ Js.template (Push.new_game_id m))])) /\
  (forall id : string,
     Push.type m = Js.Str "rematch_created" -> Push.new_game_id m = Js.Str id ->
     GamePage.on_lastMessage received st =
       (st, [Toast TSuccess "Rematch starting..."; Navigate ("/game/" ++ id)]) /\
     GamePage.navigations (snd (GamePage.on_lastMessage received st))
       = ["/game/" ++ id]).
Proof.
  unfold WebSocketHook.onmessage; simpl.
  split; [|split; [|split]].
  - intros H. rewrite H; simpl.
    unfold GamePage.on_lastMessage; simpl. rewrite H. reflexivity.
  - intros [H|[H|H]]; rewrite H; simpl;
      unfold GamePage.on_lastMessage; simpl; rewrite H; repeat split; reflexivity.
  - intros H. rewrite H; simpl.
    unfold GamePage.on_lastMessage; simpl. rewrite H. reflexivity.
  - intros id H Hid. rewrite H; simpl.
    unfold GamePage.on_lastMessage; simpl. rewrite H, Hid. split; reflexivity.
Qed.

Lemma push_message_effects_witness :
  let st := GamePage.mkPage "g1" (Some alice) (Some game_after_centre) false false in
  let h := WebSocketHook.initial "http://localhost:8080" (fun _ => true) in
  let received (m : Push.message) :=
    WebSocketHook.lastMessage (WebSocketHook.onmessage (Push.Parsed (Push.JObj m)) h) in
  GamePage.on_lastMessage
    (received (Push.mkMessage (Js.Str "player_disconnected") None Js.Undefined)) st
  = (st, [Toast TWarning "Opponent disconnected"]) /\
  GamePage.on_lastMessage
    (received (Push.mkMessage (Js.Str "rematch_created") None (Js.Str "g9"))) st
  = (st, [Toast TSuccess "Rematch starting..."; Navigate "/game/g9"]).
Proof.
  intros st h received. split.
  - exact (proj1 (push_message_effects h st
                    (Push.mkMessage (Js.Str "player_disconnected") None Js.Undefined))
                 eq_refl).
  - exact (proj1 (proj2 (proj2 (proj2 (push_message_effects h st
                    (Push.mkMessage (Js.Str "rematch_created") None (Js.Str "g9")))))
                    "g9" eq_refl eq_refl)).
Defined.

(** ** The hook without a game id *)

Lemma connect_without_ids (gameId playerId : Js.ref) (h : WebSocketHook.hook) :
  Js.truthy gameId = false \/ Js.truthy playerId = false ->
  WebSocketHook.connect gameId playerId h = h.
Proof.
  intros [E|E]; unfold WebSocketHook.connect; rewrite E; simpl;
    [reflexivity | rewrite orb_true_r; reflexivity].
Qed.

Lemma clear_timer_idle (r : option nat) (h : WebSocketHook.hook) :
  idle h -> idle (WebSocketHook.clear_timer r h).
Proof.
  intros (Hs & Ht & Hw & Hc). destruct r as [i|]; simpl; [|repeat split; assumption].
  unfold idle; simpl. rewrite Ht. repeat split; assumption.
Qed.

Lemma tick_idle (h : WebSocketHook.hook) : idle h -> idle (WebSocketHook.tick h).
Proof.
  intros (Hs & Ht & Hw & Hc). unfold WebSocketHook.tick. rewrite Ht. simpl.
  repeat split; assumption.
Qed.

Lemma elapse_idle (n : nat) : forall h, idle h -> idle (WebSocketHook.elapse n h).
Proof.
  induction n as [|n IH]; intros h Hi; simpl; [assumption|].
  apply IH, tick_idle, Hi.
Qed.

Lemma handle_idle (gameId playerId : Js.ref) (h : WebSocketHook.hook)
      (e : WebSocketHook.event) :
  Js.truthy gameId = false -> idle h ->
  idle (WebSocketHook.handle gameId playerId h e).
Proof.
  intros Hg Hi. pose proof Hi as (Hs & Ht & Hw & Hc).
  destruct e as [| |sid|sid r|sid|sid|ms|pos]; simpl.
  - rewrite connect_without_ids by (left; exact Hg). exact Hi.
  - unfold WebSocketHook.disconnect, WebSocketHook.clearInterval,
      WebSocketHook.clearTimeout.
    set (h1 := WebSocketHook.clear_timer _ (WebSocketHook.clear_timer _ h)).
    assert (H1 : idle h1) by (apply clear_timer_idle, clear_timer_idle, Hi).
    destruct H1 as (Hs1 & Ht1 & Hw1 & Hc1). rewrite Hw1.
    repeat split; assumption.
  - rewrite Hs. destruct sid; exact Hi.
  - rewrite Hs. destruct sid; exact Hi.
  - rewrite Hs. destruct sid; exact Hi.
  - rewrite Hs. destruct sid; exact Hi.
  - apply elapse_idle, Hi.
  - unfold WebSocketHook.sendMove, WebSocketHook.sendMessage,
      WebSocketHook.send_if_open, WebSocketHook.current_is_open.
    rewrite Hw. exact Hi.
Qed.

Lemma run_idle (gameId playerId : Js.ref) (es : list WebSocketHook.event) :
  Js.truthy gameId = false ->
  forall h, idle h -> idle (WebSocketHook.run gameId playerId h es).
Proof.
  intros Hg. unfold WebSocketHook.run.
  induction es as [|e es IH]; intros h Hi; simpl; [assumption|].
  apply IH, handle_idle; assumption.
Qed.

(** C10: for a game whose mode is not online the page hands a null game id
    to the hook; [connect] does nothing when the game id or the player id is
    missing; so whatever happens to the hook of such a page (effect runs and
    cleanups, elapsed time, socket events, send attempts) no socket is ever
    created and the connected flag stays false. *)
Theorem local_game_never_connects (st : GamePage.page) (backend : string)
        (ok : string -> bool) (es : list WebSocketHook.event) :
  (forall g, GamePage.game st = Some g -> mode g <> online) ->
  GamePage.hook_gameId st = Js.Null /\
  (forall playerId h, WebSocketHook.connect Js.Null playerId h = h) /\
  (forall gameId h, WebSocketHook.connect gameId Js.Null h = h) /\
  (forall gameId h, WebSocketHook.connect gameId Js.Undefined h = h) /\
  let h := WebSocketHook.run (GamePage.hook_gameId st) (GamePage.hook_playerId st)
                             (WebSocketHook.initial backend ok) es in
  WebSocketHook.sockets h = [] /\
  WebSocketHook.wsRef h = None /\
  WebSocketHook.isConnected h = false.
Proof.
  intros Hm.
  assert (Hn : GamePage.hook_gameId st = Js.Null).
  { unfold GamePage.hook_gameId. destruct (GamePage.game st) as [g|] eqn:Eg;
      [|reflexivity].
    specialize (Hm g eq_refl). destruct (mode g); [reflexivity | congruence]. }
  split; [exact Hn|].
  split; [intros; apply connect_without_ids; left; reflexivity|].
  split; [intros; apply connect_without_ids; right; reflexivity|].
  split; [intros; apply connect_without_ids; right; reflexivity|].
  rewrite Hn.
  destruct (run_idle Js.Null (GamePage.hook_playerId st) es eq_refl
                     (WebSocketHook.initial backend ok)) as (Hs & _ & Hw & Hc).
  { repeat split. }
  cbv zeta. repeat split; assumption.
Qed.

Lemma local_game_never_connects_witness :
  let st := GamePage.mkPage "g3" (Some alice) (Some local_game) false false in
  let h := WebSocketHook.run (GamePage.hook_gameId st) (GamePage.hook_playerId st)
             (WebSocketHook.initial "http://localhost:8080" (fun _ => true))
             [WebSocketHook.Connect; WebSocketHook.Elapse 5; WebSocketHook.SocketOpen 0;
              WebSocketHook.Disconnect; WebSocketHook.Connect] in
  WebSocketHook.sockets h = [] /\ WebSocketHook.isConnected h = false.
Proof.
  intros st h.
  assert (Hm : forall g, GamePage.game st = Some g -> mode g <> online).
  { intros g E. injection E as <-. discriminate. }
  destruct (local_game_never_connects st "http://localhost:8080" (fun _ => true)
              [WebSocketHook.Connect; WebSocketHook.Elapse 5; WebSocketHook.SocketOpen 0;
               WebSocketHook.Disconnect; WebSocketHook.Connect] Hm)
    as (_ & _ & _ & _ & Hs & _ & Hc).
  split; [exact Hs | exact Hc].
Defined.

(** ** The replay page: the current index stays inside the sequence *)

Lemma move_entries_click (ms : list Move) (cur : Z) :
  forall (i : Z) (n : nat) (e : MoveHistory.entry),
    nth_error (MoveHistory.move_entries i ms cur) n = Some e ->
    i + 1 <= MoveHistory.click e <= i + Z.of_nat (List.length ms).
Proof.
  induction ms as [|m ms IH]; intros i n e H.
  - destruct n; discriminate H.
  - destruct n as [|n]; simpl in H.
    + injection H as <-. simpl MoveHistory.click.
      change (List.length (m :: ms)) with (S (List.length ms)). lia.
    + apply IH in H. change (List.length (m :: ms)) with (S (List.length ms)). lia.
Qed.

Lemma entries_click (ms : list Move) (cur : Z) (n : nat) (e : MoveHistory.entry) :
  nth_error (MoveHistory.entries ms cur) n = Some e ->
  0 <= MoveHistory.click e <= Z.of_nat (List.length ms).
Proof.
  unfold MoveHistory.entries. destruct n as [|n]; simpl; intros H.
  - injection H as <-. simpl. lia.
  - apply move_entries_click in H. lia.
Qed.

Lemma stop_at_end_in_range (d : ReplayData) (st : ReplayPage.page) :
  in_range d st -> in_range d (ReplayPage.stop_at_end st).
Proof.
  intros (Hd & Hl & Hi). unfold ReplayPage.stop_at_end. rewrite Hd.
  destruct (_ >=? _); repeat split; simpl; assumption || lia.
Qed.

Lemma after_render_in_range (d : ReplayData) (before st : ReplayPage.page) :
  in_range d st -> in_range d (ReplayPage.after_render before st).
Proof.
  intros H. unfold ReplayPage.after_render.
  destruct (_ =? _); [exact H | apply stop_at_end_in_range, H].
Qed.

(** The page once the payload has arrived. *)
Lemma loaded_mounted (d : ReplayData) :
  ReplayPage.loaded ReplayPage.mounted d
  = ReplayPage.mkPage (Some d) false 0 false Speed1.
Proof.
  unfold ReplayPage.loaded, ReplayPage.stop_at_end. simpl.
  destruct (0 >=? total_moves d); reflexivity.
Qed.

Lemma total_or_0_loaded (d : ReplayData) (st : ReplayPage.page) :
  ReplayPage.replayData st = Some d -> ReplayPage.total_or_0 st = total_moves d.
Proof.
  intros Hd. unfold ReplayPage.total_or_0. rewrite Hd.
  destruct (Z.eqb_spec (total_moves d) 0); congruence.
Qed.

Lemma perform_in_range (d : ReplayData) (st : ReplayPage.page)
      (o : ReplayPage.operation) :
  well_formed d -> in_range d st -> in_range d (ReplayPage.perform st o).
Proof.
  intros (Ht & _) Hin. pose proof Hin as (Hd & Hl & Hi).
  unfold ReplayPage.perform. rewrite Hd, Hl.
  apply after_render_in_range.
  destruct o as [|c|n].
  - unfold ReplayPage.tick. rewrite Hd.
    destruct (ReplayPage.isPlaying st); [|exact Hin].
    destruct (Z.geb_spec (ReplayPage.currentMoveIndex st) (total_moves d));
      repeat split; simpl; assumption || lia.
  - destruct c as [| | | | |v|s]; simpl.
    + destruct (_ =? 0); [exact Hin|]. repeat split; simpl; assumption || lia.
    + destruct (_ =? 0); [exact Hin|]. repeat split; simpl; assumption || lia.
    + destruct (ReplayPage.isPlaying st); repeat split; simpl; assumption || lia.
    + destruct (_ =? total_moves d); [exact Hin|].
      repeat split; simpl; try assumption;
        rewrite (total_or_0_loaded d st Hd); lia.
    + destruct (_ =? total_moves d); [exact Hin|].
      repeat split; simpl; try assumption;
        rewrite (total_or_0_loaded d st Hd); lia.
    + destruct (Z.leb_spec 0 v); simpl; [|exact Hin].
      destruct (Z.leb_spec v (total_moves d)); simpl; [|exact Hin].
      repeat split; simpl; assumption || lia.
    + repeat split; simpl; assumption || lia.
  - destruct (nth_error _ n) as [e|] eqn:He; [|exact Hin].
    apply entries_click in He.
    repeat split; simpl; try assumption; lia.
Qed.

Lemma perform_all_in_range (d : ReplayData) (os : list ReplayPage.operation) :
  well_formed d ->
  forall st, in_range d st -> in_range d (ReplayPage.perform_all st os).
Proof.
  intros Hwf. unfold ReplayPage.perform_all.
  induction os as [|o os IH]; intros st Hin; simpl; [assumption|].
  apply IH, perform_in_range; assumption.
Qed.

Lemma index_in_bounds {A : Type} (l : list A) (i : Z) :
  0 <= i < Z.of_nat (List.length l) -> exists a, index l i = Some a.
Proof.
  intros Hi. unfold index.
  destruct (Z.ltb_spec i 0); [lia|].
  destruct (nth_error l (Z.to_nat i)) as [a|] eqn:E; [eauto|].
  apply nth_error_None in E. lia.
Qed.

(** C3: starting from index 0 on a loaded replay, every sequence of replay
    operations (play tick, play and pause, step back, step forward, go to
    start, go to end, seeking to a slider value, speed change, click on a
    move-history entry) leaves the current move index an integer between 0
    and [total_moves], so the page always finds a snapshot at that index. *)
Theorem replay_index_in_range (d : ReplayData) (os : list ReplayPage.operation) :
  well_formed d ->
  let st := ReplayPage.perform_all (ReplayPage.loaded ReplayPage.mounted d) os in
  0 <= ReplayPage.currentMoveIndex st <= total_moves d /\
  (exists snap, index (snapshots d) (ReplayPage.currentMoveIndex st) = Some snap) /\
  ReplayPage.render st <> ReplayPage.TypeError.
Proof.
  intros Hwf st.
  assert (Hin : in_range d st).
  { apply perform_all_in_range; [exact Hwf|]. rewrite loaded_mounted.
    destruct Hwf as (Ht & _). repeat split; simpl; lia. }
  destruct Hin as (Hd & Hl & Hi). destruct Hwf as (Ht & Hs).
  assert (Hx : exists snap, index (snapshots d) (ReplayPage.currentMoveIndex st) = Some snap).
  { apply index_in_bounds. rewrite Hs. lia. }
  split; [exact Hi|]. split; [exact Hx|].
  destruct Hx as (snap & Hsnap).
  unfold ReplayPage.render. rewrite Hl, Hd, Hsnap. discriminate.
Qed.

Lemma replay_index_in_range_witness :
  let d := payload_of game_after_centre in
  let st := ReplayPage.perform_all (ReplayPage.loaded ReplayPage.mounted d)
              [ReplayPage.Control (ReplayControls.SliderTo 1);
               ReplayPage.Control ReplayControls.StepForwardBtn;
               ReplayPage.HistoryClick 1;
               ReplayPage.Control ReplayControls.PlayPauseBtn;
               ReplayPage.PlayTick] in
  0 <= ReplayPage.currentMoveIndex st <= 1.
Proof.
  intros d st.
  assert (Hwf : well_formed d) by (split; reflexivity).
  exact (proj1 (replay_index_in_range d _ Hwf)).
Defined.

(** ** Join codes *)

Lemma ascii_space_upper (c : ascii) :
  Js.ascii_space (Js.upper_ascii c) = Js.ascii_space c.
Proof. destruct c as [[] [] [] [] [] [] [] []]; reflexivity. Qed.

Lemma upper_ascii_idem (c : ascii) :
  Js.upper_ascii (Js.upper_ascii c) = Js.upper_ascii c.
Proof. destruct c as [[] [] [] [] [] [] [] []]; reflexivity. Qed.

Lemma is_ascii_char_upper (c : ascii) :
  Js.is_ascii_char (Js.upper_ascii c) = Js.is_ascii_char c.
Proof. destruct c as [[] [] [] [] [] [] [] []]; reflexivity. Qed.

Lemma ascii_toUpperCase_idem (s : string) :
  Js.ascii_toUpperCase (Js.ascii_toUpperCase s) = Js.ascii_toUpperCase s.
Proof.
  induction s as [|c s IH]; simpl; [reflexivity|].
  rewrite upper_ascii_idem, IH. reflexivity.
Qed.

Lemma ascii_toUpperCase_length (s : string) :
  String.length (Js.ascii_toUpperCase s) = String.length s.
Proof. induction s as [|c s IH]; simpl; congruence. Qed.

Lemma is_ascii_toUpperCase (s : string) :
  Js.is_ascii (Js.ascii_toUpperCase s) = Js.is_ascii s.
Proof.
  induction s as [|c s IH]; simpl; [reflexivity|].
  rewrite is_ascii_char_upper, IH. reflexivity.
Qed.

Lemma is_ascii_trimStart (s : string) :
  Js.is_ascii s = true -> Js.is_ascii (Js.ascii_trimStart s) = true.
Proof.
  induction s as [|c s IH]; simpl; [reflexivity|]. intros H.
  destruct (Js.ascii_space c); [|exact H].
  apply andb_true_iff in H. apply IH, H.
Qed.

Lemma is_ascii_trimEnd (s : string) :
  Js.is_ascii s = true -> Js.is_ascii (Js.ascii_trimEnd s) = true.
Proof.
  induction s as [|c s IH]; simpl; [reflexivity|]. intros H.
  apply andb_true_iff in H. destruct H as (Hc & Hs). specialize (IH Hs).
  destruct (Js.ascii_trimEnd s) as [|c' r].
  - destruct (Js.ascii_space c); simpl; [reflexivity|]. rewrite Hc. reflexivity.
  - change (Js.is_ascii (String c (String c' r)))
      with (Js.is_ascii_char c && Js.is_ascii (String c' r)).
    rewrite Hc, IH. reflexivity.
Qed.

Lemma is_ascii_trim (s : string) :
  Js.is_ascii s = true -> Js.is_ascii (Js.ascii_trim s) = true.
Proof. intros H. apply is_ascii_trimEnd, is_ascii_trimStart, H. Qed.

Lemma trimStart_upper (s : string) :
  Js.ascii_trimStart (Js.ascii_toUpperCase s)
  = Js.ascii_toUpperCase (Js.ascii_trimStart s).
Proof.
  induction s as [|c s IH]; simpl; [reflexivity|].
  rewrite ascii_space_upper. destruct (Js.ascii_space c); [exact IH | reflexivity].
Qed.

Lemma trimEnd_upper (s : string) :
  Js.ascii_trimEnd (Js.ascii_toUpperCase s)
  = Js.ascii_toUpperCase (Js.ascii_trimEnd s).
Proof.
  induction s as [|c s IH]; simpl; [reflexivity|].
  rewrite IH, ascii_space_upper.
  destruct (Js.ascii_trimEnd s) as [|c' r]; simpl.
  - destruct (Js.ascii_space c); reflexivity.
  - reflexivity.
Qed.

Lemma trim_upper (s : string) :
  Js.ascii_trim (Js.ascii_toUpperCase s) = Js.ascii_toUpperCase (Js.ascii_trim s).
Proof. unfold Js.ascii_trim. rewrite trimStart_upper, trimEnd_upper. reflexivity. Qed.

(** On ASCII text, upper-casing, trimming and upper-casing again is
    trimming and upper-casing. *)
Lemma upper_trim_upper_ascii (J : Js.strings) (s : string) :
  Js.is_ascii s = true ->
  Js.toUpperCase J (Js.trim J (Js.toUpperCase J s))
  = Js.ascii_toUpperCase (Js.ascii_trim s).
Proof.
  intros H.
  rewrite (Js.toUpperCase_ascii J s H).
  rewrite (Js.trim_ascii J) by (rewrite is_ascii_toUpperCase; exact H).
  rewrite trim_upper.
  rewrite (Js.toUpperCase_ascii J)
    by (rewrite is_ascii_toUpperCase; apply is_ascii_trim, H).
  apply ascii_toUpperCase_idem.
Qed.

(** What pressing Join does after the input reported a value. *)
Lemma enter_and_join_effects (J : Js.strings) (st : HomePage.page) (entered : string) :
  let held := Js.toUpperCase J entered in
  snd (HomePage.enter_and_join J st entered) =
    if HomePage.loading st || negb (Js.length J held =? 6) then []
    else match HomePage.player st with
         | None => [Toast TError "Please enter a game code"]
         | Some p =>
             if String.eqb (Js.trim J held) EmptyString
             then [Toast TError "Please enter a game code"]
             else [Request (Api.joinGameByCode J (Js.trim J held) (player_id p))]
         end.
Proof.
  intros held. unfold HomePage.enter_and_join, HomePage.click_join,
    HomePage.join_disabled, HomePage.handleJoinByCode, HomePage.onChange. simpl.
  fold held.
  destruct (HomePage.loading st); simpl; [reflexivity|].
  destruct (Js.length J held =? 6); simpl; [|reflexivity].
  destruct (HomePage.player st); [|reflexivity].
  destruct (String.eqb _ EmptyString); reflexivity.
Qed.

(** C8, as the code has it: the lookup-by-code and join-by-code requests
    carry the uppercase form of the code they are given; the code input
    carries [maxLength] 6 and holds the uppercase form of the value it
    reports; pressing Join issues a request only when the held code has
    exactly 6 characters (and no join is pending), and the code it
    transmits is the uppercase form of the held code with leading and
    trailing white space removed, which is the uppercase form of the held
    code when it has no such white space.  For an entry of ASCII text: a
    request is issued only when the entered code has exactly 6 characters,
    and the code transmitted is the uppercase form of the entered code
    with leading and trailing white space removed. *)
Theorem join_code_transmitted (J : Js.strings) (st : HomePage.page) (entered : string) :
  (forall code, Api.url (Api.getGameByCode J code)
                = "/games/by-code/" ++ Js.toUpperCase J code) /\
  (forall code pid, Api.field "code" (Api.body (Api.joinGameByCode J code pid))
                    = Some (Api.BStr (Js.toUpperCase J code))) /\
  HomePage.maxLength = 6%nat /\
  let held := Js.toUpperCase J entered in
  let es := snd (HomePage.enter_and_join J st entered) in
  HomePage.gameCode (HomePage.onChange J st entered) = held /\
  (forall c, In c (HomePage.transmitted_codes es) ->
     c = Js.toUpperCase J (Js.trim J held) /\ Js.length J held = 6 /\
     HomePage.loading st = false) /\
  (forall c, In c (HomePage.transmitted_codes es) -> Js.trim J held = held ->
     c = Js.toUpperCase J held) /\
  (forall p, HomePage.player st = Some p -> HomePage.loading st = false ->
     Js.length J held = 6 -> Js.trim J held <> EmptyString ->
     HomePage.transmitted_codes es = [Js.toUpperCase J (Js.trim J held)]) /\
  (Js.is_ascii entered = true ->
   forall c, In c (HomePage.transmitted_codes es) ->
     c = Js.ascii_toUpperCase (Js.ascii_trim entered) /\
     String.length entered = 6%nat).
Proof.
  split; [reflexivity|]. split; [reflexivity|]. split; [reflexivity|].
  intros held es. split; [reflexivity|].
  assert (Hes : es =
    if HomePage.loading st || negb (Js.length J held =? 6) then []
    else match HomePage.player st with
         | None => [Toast TError "Please enter a game code"]
         | Some p =>
             if String.eqb (Js.trim J held) EmptyString
             then [Toast TError "Please enter a game code"]
             else [Request (Api.joinGameByCode J (Js.trim J held) (player_id p))]
         end) by apply enter_and_join_effects.
  assert (Hmain : forall c, In c (HomePage.transmitted_codes es) ->
     c = Js.toUpperCase J (Js.trim J held) /\ Js.length J held = 6 /\
     HomePage.loading st = false).
  { intros c Hc. rewrite Hes in Hc.
    destruct (HomePage.loading st); simpl in Hc; [contradiction|].
    destruct (Z.eqb_spec (Js.length J held) 6) as [E|E]; simpl in Hc; [|contradiction].
    destruct (HomePage.player st); simpl in Hc; [|contradiction].
    destruct (String.eqb _ EmptyString); simpl in Hc; [contradiction|].
    destruct Hc as [<-|[]]. auto. }
  split; [exact Hmain|]. split; [|split].
  - intros c Hc Ht. destruct (Hmain c Hc) as (-> & _). rewrite Ht. reflexivity.
  - intros p Hp Hl Hlen Hne. rewrite Hes, Hl, Hlen, Hp. simpl.
    destruct (String.eqb_spec (Js.trim J held) EmptyString) as [E|E];
      [contradiction|reflexivity].
  - intros Ha c Hc. destruct (Hmain c Hc) as (-> & Hlen & _). unfold held in *.
    split; [apply upper_trim_upper_ascii, Ha|].
    rewrite (Js.toUpperCase_ascii J entered Ha) in Hlen.
    rewrite (Js.length_ascii J) in Hlen by (rewrite is_ascii_toUpperCase; exact Ha).
    rewrite ascii_toUpperCase_length in Hlen. lia.
Qed.

Lemma join_code_transmitted_witness :
  HomePage.transmitted_codes
    (snd (HomePage.enter_and_join ascii_strings join_dialog "ab12cd"))
  = ["AB12CD"].
Proof.
  destruct (join_code_transmitted ascii_strings join_dialog "ab12cd")
    as (_ & _ & _ & H).
  cbv zeta in H. destruct H as (_ & _ & _ & H & _).
  exact (H alice eq_refl eq_refl eq_refl ltac:(discriminate)).
Defined.

(** C8 as stated fails, whatever the string methods do outside ASCII: the
    6-character entry [abcde] followed by a space enables the Join button,
    and the code transmitted, [ABCDE], is not its uppercase form. *)
Lemma join_code_is_trimmed :
  ~ (exists J : Js.strings,
       forall (st : HomePage.page) (entered c : string),
         In c (HomePage.transmitted_codes (snd (HomePage.enter_and_join J st entered))) ->
         c = Js.toUpperCase J entered).
Proof.
  intros (J & H).
  assert (E1 : Js.toUpperCase J "abcde " = "ABCDE ")
    by exact (Js.toUpperCase_ascii J "abcde " eq_refl).
  assert (E2 : Js.length J "ABCDE " = 6)
    by exact (Js.length_ascii J "ABCDE " eq_refl).
  assert (E3 : Js.trim J "ABCDE " = "ABCDE")
    by exact (Js.trim_ascii J "ABCDE " eq_refl).
  assert (E4 : Js.toUpperCase J "ABCDE" = "ABCDE")
    by exact (Js.toUpperCase_ascii J "ABCDE" eq_refl).
  specialize (H join_dialog "abcde " "ABCDE").
  rewrite enter_and_join_effects in H. cbv zeta in H.
  rewrite E1, E2, E3 in H. simpl in H. rewrite E4 in H.
  specialize (H (or_introl eq_refl)). discriminate H.
Qed.

(** ** The modelled server: the board is the fold of the move log *)

Lemma board_after_app (l1 l2 : list Move) :
  forall b,
    Backend.board_after b (l1 ++ l2)%list =
    match Backend.board_after b l1 with
    | Some b' => Backend.board_after b' l2
    | None => None
    end.
Proof.
  induction l1 as [|m l1 IH]; intros b; simpl; [reflexivity|].
  destruct (Backend.apply b (symbol m) (position m)); [apply IH | reflexivity].
Qed.

Lemma create_consistent (gid gcode : string) (m : Mode) (creator : Player) :
  log_consistent (Backend.create gid gcode m creator) /\
  outcome_consistent (Backend.create gid gcode m creator).
Proof.
  destruct m; split; try reflexivity; unfold outcome_consistent; simpl;
    repeat split; discriminate.
Qed.

Lemma step_consistent (g : Game) (o : Backend.op) :
  log_consistent g /\ outcome_consistent g ->
  log_consistent (Backend.step g o) /\ outcome_consistent (Backend.step g o).
Proof.
  intros (Hl & Ho). destruct o as [p|pid cell time]; simpl.
  - unfold Backend.join.
    destruct (status g) eqn:Es; try (split; assumption).
    destruct (Js.strict_eq _ _); [split; assumption|].
    split; [exact Hl|].
    unfold outcome_consistent in *; simpl.
    destruct (Backend.evaluate (board (state g)));
      destruct Ho as (H1 & H2 & H3 & H4); try congruence.
    repeat split; try assumption; discriminate.
  - unfold Backend.move.
    destruct (status g) eqn:Es; try (split; assumption).
    destruct (Backend.controls _ _ _); simpl; [|split; assumption].
    destruct (Backend.apply _ _ _) as [b'|] eqn:Ea; [|split; assumption].
    split.
    + unfold log_consistent.
      destruct (Backend.evaluate b'); simpl;
        rewrite board_after_app, Hl; simpl; rewrite Ea; reflexivity.
    + unfold outcome_consistent.
      destruct (Backend.evaluate b') eqn:Ee; simpl; rewrite Ee;
        repeat split; discriminate.
Qed.

Lemma run_consistent (ops : list Backend.op) :
  forall g, log_consistent g /\ outcome_consistent g ->
            log_consistent (Backend.run g ops) /\ outcome_consistent (Backend.run g ops).
Proof.
  unfold Backend.run.
  induction ops as [|o ops IH]; intros g H; simpl; [exact H|].
  apply IH, step_consistent, H.
Qed.

Lemma snapshots_from_spec (log : list Move) :
  forall b bf,
    Backend.board_after b log = Some bf ->
    exists l,
      Backend.snapshots_from b log = Some l /\
      List.length l = List.length log /\
      forall i mv, nth_error log i = Some mv ->
        exists bi, Backend.board_after b (firstn (S i) log) = Some bi /\
                   nth_error l i = Some (mkSnapshot bi (Some mv)).
Proof.
  induction log as [|m log IH]; intros b bf H;
    cbn [Backend.board_after Backend.snapshots_from] in *.
  - exists []. repeat split. intros [|i] mv E; discriminate E.
  - destruct (Backend.apply b (symbol m) (position m)) as [b'|] eqn:Ea;
      [|discriminate H].
    destruct (IH b' bf H) as (l & Hl & Hlen & Hnth).
    rewrite Hl. exists (mkSnapshot b' (Some m) :: l).
    split; [reflexivity|]. split; [simpl; congruence|].
    intros [|i] mv E; simpl in E.
    + injection E as <-. exists b'. split; [|reflexivity].
      cbn [firstn Backend.board_after]. rewrite Ea. reflexivity.
    + destruct (Hnth i mv E) as (bi & Hb & Hn). exists bi. split; [|exact Hn].
      change (firstn (S (S i)) (m :: log)) with (m :: firstn (S i) log).
      cbn [Backend.board_after]. rewrite Ea. exact Hb.
Qed.

Lemma index_of_nat {A : Type} (l : list A) (i : nat) :
  index l (Z.of_nat i) = nth_error l i.
Proof.
  unfold index. destruct (Z.ltb_spec (Z.of_nat i) 0); [lia|].
  rewrite Nat2Z.id. reflexivity.
Qed.

Lemma move_entries_length (ms : list Move) (cur : Z) :
  forall i, List.length (MoveHistory.move_entries i ms cur) = List.length ms.
Proof. induction ms as [|m ms IH]; intros i; simpl; [reflexivity | rewrite IH; reflexivity]. Qed.

Lemma move_entries_nth (ms : list Move) (cur : Z) :
  forall (i : Z) (k : nat) (e : MoveHistory.entry),
    nth_error (MoveHistory.move_entries i ms cur) k = Some e ->
    MoveHistory.click e = i + Z.of_nat k + 1.
Proof.
  induction ms as [|m ms IH]; intros i k e H.
  - destruct k; discriminate H.
  - destruct k as [|k]; simpl in H.
    + injection H as <-. simpl. lia.
    + apply IH in H. lia.
Qed.

(** A game the Session Store can hold replays: the payload exists, its
    last snapshot is the stored board, and the stored outcome is the
    evaluation of that board. *)
Lemma replay_final_snapshot (gid gcode : string) (m : Mode) (creator : Player)
      (ops : list Backend.op) :
  let g := Backend.run (Backend.create gid gcode m creator) ops in
  exists d snap,
    Backend.replay g = Some d /\ game d = g /\
    index (snapshots d) (total_moves d) = Some snap /\
    snap_board snap = board (state g) /\
    outcome_consistent g.
Proof.
  intros g.
  destruct (run_consistent ops _ (create_consistent gid gcode m creator)) as (Hl & Ho).
  fold g in Hl, Ho. unfold log_consistent in Hl.
  destruct (snapshots_from_spec _ _ _ Hl) as (l & Hs & Hlen & Hnth).
  unfold Backend.replay, Backend.reconstruct. rewrite Hs.
  destruct (moves g) as [|m0 ms] eqn:Em using rev_ind.
  - exists (mkReplayData g [mkSnapshot Backend.empty_board None] 0),
           (mkSnapshot Backend.empty_board None).
    destruct l; [|discriminate Hlen]. simpl in Hl. injection Hl as Hl.
    repeat split; [simpl; congruence | assumption].
  - clear IHms.
    assert (Hlast : nth_error (ms ++ [m0])%list (List.length ms) = Some m0).
    { rewrite nth_error_app2 by lia. rewrite Nat.sub_diag. reflexivity. }
    destruct (Hnth _ _ Hlast) as (bi & Hb & Hn).
    rewrite firstn_all2 in Hb by (rewrite length_app; simpl; lia).
    rewrite Hl in Hb. injection Hb as <-.
    eexists; eexists. split; [reflexivity|]. split; [reflexivity|].
    simpl total_moves. simpl snapshots. rewrite index_of_nat.
    rewrite length_app. simpl List.length. rewrite Nat.add_1_r. simpl nth_error.
    split; [exact Hn|]. split; [reflexivity | assumption].
Qed.

(** The two end-to-end scenarios of section 8 on the modelled server. *)
Example scenario_x_wins_first_column :
  let g := Backend.run (Backend.create "g" "CODE42" online alice)
             [Backend.Join bob;
              Backend.MoveBy "p-alice" 0 1; Backend.MoveBy "p-bob" 1 2;
              Backend.MoveBy "p-alice" 3 3; Backend.MoveBy "p-bob" 4 4;
              Backend.MoveBy "p-alice" 6 5] in
  status g = completed /\ winner (state g) = Some MarkX /\
  winning_line (state g) = Some [0; 3; 6] /\ is_draw (state g) = false.
Proof. vm_compute. repeat split. Qed.

Example scenario_draw :
  let g := Backend.run (Backend.create "g" "CODE42" local alice)
             (map (fun c => Backend.MoveBy "p-alice" c 0) [0; 1; 2; 4; 3; 5; 7; 6; 8]) in
  status g = completed /\ winner (state g) = None /\
  is_draw (state g) = true /\ List.length (moves g) = 9%nat.
Proof. vm_compute. repeat split. Qed.

(** A participant bound to neither mark is turned away by the modelled
    server, whoever's turn it is. *)
Example scenario_unbound_participant :
  Backend.move game_after_centre "p-carol" 0 2000 = Backend.Err Backend.NotYourTurn.
Proof. reflexivity. Qed.

(** C2: for a game held by the Session Store with [n] moves in its log, the
    replay payload has exactly [n + 1] snapshots; index 0 is the empty
    board with no move, listed as "Start" in the move history; each index
    [i] from 1 to [n] pairs the board after the first [i] moves with the
    [i]-th move, and is the index the [i]-th history button selects; the
    replay page finds a snapshot to show at every index from 0 to
    [total_moves]. *)
Theorem replay_snapshot_sequence (gid gcode : string) (m : Mode) (creator : Player)
        (ops : list Backend.op) :
  let g := Backend.run (Backend.create gid gcode m creator) ops in
  let n := List.length (moves g) in
  exists d,
    Backend.replay g = Some d /\ game d = g /\
    total_moves d = Z.of_nat n /\
    List.length (snapshots d) = S n /\
    index (snapshots d) 0 = Some (mkSnapshot Backend.empty_board None) /\
    (forall cur,
       List.length (MoveHistory.entries (moves g) cur) = S n /\
       exists e, nth_error (MoveHistory.entries (moves g) cur) 0 = Some e /\
                 MoveHistory.text e = "Start" /\ MoveHistory.click e = 0) /\
    (forall i, (1 <= i <= n)%nat ->
       exists b mv,
         nth_error (moves g) (i - 1) = Some mv /\
         Backend.board_after Backend.empty_board (firstn i (moves g)) = Some b /\
         index (snapshots d) (Z.of_nat i) = Some (mkSnapshot b (Some mv)) /\
         forall cur e, nth_error (MoveHistory.entries (moves g) cur) i = Some e ->
                       MoveHistory.click e = Z.of_nat i) /\
    (forall i, 0 <= i <= total_moves d ->
       exists snap s,
         index (snapshots d) i = Some snap /\
         ReplayPage.render (ReplayPage.mkPage (Some d) false i false Speed1)
           = ReplayPage.Shown s /\
         ReplayPage.shown_board s = snap_board snap).
Proof.
  intros g n.
  destruct (run_consistent ops _ (create_consistent gid gcode m creator)) as (Hl & _).
  fold g in Hl. unfold log_consistent in Hl.
  destruct (snapshots_from_spec _ _ _ Hl) as (l & Hs & Hlen & Hnth).
  exists (mkReplayData g (mkSnapshot Backend.empty_board None :: l) (Z.of_nat n)).
  split; [unfold Backend.replay, Backend.reconstruct; rewrite Hs; reflexivity|].
  split; [reflexivity|]. split; [reflexivity|].
  split; [simpl; rewrite Hlen; reflexivity|].
  split; [reflexivity|].
  split; [|split].
  - intros cur. split.
    + unfold MoveHistory.entries. simpl. rewrite move_entries_length. reflexivity.
    + eexists. split; [reflexivity|]. split; reflexivity.
  - intros i Hi. destruct i as [|i]; [lia|].
    destruct (nth_error (moves g) i) as [mv|] eqn:Emv;
      [|apply nth_error_None in Emv; fold n in Emv; lia].
    destruct (Hnth i mv Emv) as (bi & Hb & Hn).
    exists bi, mv.
    split; [simpl; rewrite Nat.sub_0_r; exact Emv|].
    split; [exact Hb|].
    split; [rewrite index_of_nat; exact Hn|].
    intros cur e He. unfold MoveHistory.entries in He. simpl in He.
    apply move_entries_nth in He. lia.
  - intros i Hi. simpl total_moves in Hi. simpl snapshots.
    destruct (index_in_bounds (mkSnapshot Backend.empty_board None :: l) i)
      as (snap & Hsnap).
    { simpl List.length. rewrite Hlen. fold n. lia. }
    unfold ReplayPage.render. simpl. rewrite Hsnap.
    eexists; eexists. split; [reflexivity|]. split; reflexivity.
Qed.

Lemma replay_snapshot_sequence_witness :
  let d := payload_of game_after_centre in
  List.length (snapshots d) = 2%nat /\
  index (snapshots d) 1 =
    Some (mkSnapshot [None; None; None; None; Some MarkX; None; None; None; None]
                     (Some (mkMove MarkX 4 1000))).
Proof.
  intros d.
  destruct (replay_snapshot_sequence "g1" "ABC123" online alice
              [Backend.Join bob; Backend.MoveBy "p-alice" 4 1000])
    as (d' & Hd & _ & _ & Hlen & _ & _ & Hi & _).
  assert (E : d' = d) by (vm_compute in Hd; injection Hd as <-; reflexivity).
  rewrite E in *.
  split; [exact Hlen|].
  destruct (Hi 1%nat ltac:(vm_compute; lia)) as (b & mv & Hmv & Hb & Hsnap & _).
  vm_compute in Hmv. injection Hmv as <-.
  vm_compute in Hb. injection Hb as <-.
  exact Hsnap.
Defined.

(** ** The replay page at its last index *)

(** C1 (evaluated on the code): for the game in progress between alice and
    bob after one move, the last snapshot is the stored board and no one has
    won (stored winner unset, stored draw flag false, no winning line, the
    board evaluates to "in progress"); yet at index [total_moves] the replay
    page shows the result banner "bob Wins!". *)
Theorem replay_banner_on_unfinished_game :
  let g := game_after_centre in
  let d := payload_of g in
  let st := ReplayPage.perform (ReplayPage.loaded ReplayPage.mounted d)
                               (ReplayPage.Control ReplayControls.GoToEndBtn) in
  Backend.replay g = Some d /\
  status g = in_progress /\
  winner (state g) = None /\ is_draw (state g) = false /\
  winning_line (state g) = None /\
  Backend.evaluate (board (state g)) = Backend.InProgress /\
  ReplayPage.currentMoveIndex st = total_moves d /\
  exists s,
    ReplayPage.render st = ReplayPage.Shown s /\
    ReplayPage.shown_board s = board (state g) /\
    ReplayPage.shown_winningLine s = None /\
    ReplayPage.shown_banner s = Some (ReplayPage.mkBanner "winner-o" "bob Wins!").
Proof.
  vm_compute. repeat split. eexists. repeat split.
Qed.

(** ** One connection of the hook: pings, inbound messages, close *)

Lemma elapse_tick (n : nat) :
  forall h, WebSocketHook.elapse (S n) h = WebSocketHook.tick (WebSocketHook.elapse n h).
Proof.
  induction n as [|n IH]; intros h; [reflexivity|].
  change (WebSocketHook.elapse (S (S n)) h)
    with (WebSocketHook.elapse (S n) (WebSocketHook.tick h)).
  rewrite IH. reflexivity.
Qed.

(** Runs the hook's state updates on a state written out as a record,
    leaving the arithmetic alone. *)
Ltac hook_compute :=
  cbv beta iota zeta delta
    [WebSocketHook.isConnected WebSocketHook.lastMessage WebSocketHook.connectionError
     WebSocketHook.wsRef WebSocketHook.reconnectTimeoutRef WebSocketHook.pingIntervalRef
     WebSocketHook.sockets WebSocketHook.timers WebSocketHook.now WebSocketHook.next_tid
     WebSocketHook.console WebSocketHook.BACKEND_URL WebSocketHook.constructible
     WebSocketHook.url WebSocketHook.readyState WebSocketHook.sent
     WebSocketHook.closure_gameId WebSocketHook.closure_playerId
     WebSocketHook.tid WebSocketHook.due WebSocketHook.period WebSocketHook.callback
     WebSocketHook.setIsConnected WebSocketHook.setLastMessage
     WebSocketHook.setConnectionError WebSocketHook.set_wsRef
     WebSocketHook.set_reconnectTimeoutRef WebSocketHook.set_pingIntervalRef
     WebSocketHook.set_sockets WebSocketHook.set_timers WebSocketHook.set_now
     WebSocketHook.console_error WebSocketHook.set_timer WebSocketHook.setInterval
     WebSocketHook.setTimeout WebSocketHook.clear_timer WebSocketHook.clearInterval
     WebSocketHook.clearTimeout WebSocketHook.update_socket WebSocketHook.set_readyState
     WebSocketHook.push_sent WebSocketHook.current_is_open WebSocketHook.send_if_open
     WebSocketHook.ReadyState_eqb WebSocketHook.fire WebSocketHook.reschedule
     WebSocketHook.onopen WebSocketHook.onclose WebSocketHook.onerror
     WebSocketHook.PING_INTERVAL WebSocketHook.RECONNECT_DELAY
     WebSocketHook.handle
     fold_left filter flat_map app nth_error negb Nat.eqb List.length].

Section LifecycleFacts.

Variables (backend : string) (ok : string -> bool) (gameId playerId : Js.ref).
Hypothesis game_given : Js.truthy gameId = true.
Hypothesis player_given : Js.truthy playerId = true.
Hypothesis url_accepted : ok (wsUrl backend gameId playerId) = true.

Lemma opened_state :
  WebSocketHook.run gameId playerId (WebSocketHook.initial backend ok)
                    [WebSocketHook.Connect; WebSocketHook.SocketOpen 0]
  = while_open backend ok gameId playerId 0.
Proof.
  unfold WebSocketHook.run. cbn [fold_left WebSocketHook.handle].
  unfold WebSocketHook.connect. rewrite game_given, player_given.
  cbn -[Api.getWebSocketUrl]. fold (wsUrl backend gameId playerId).
  rewrite url_accepted. reflexivity.
Qed.

Lemma div_step_quiet (n : Z) :
  0 <= n -> n + 1 <> 30000 * (n / 30000 + 1) -> (n + 1) / 30000 = n / 30000.
Proof.
  intros Hn Hne. pose proof (Z.div_mod n 30000 ltac:(lia)) as E.
  pose proof (Z.mod_pos_bound n 30000 ltac:(lia)) as B.
  symmetry. apply Z.div_unique with (r := n mod 30000 + 1); lia.
Qed.

Lemma div_step_fire (n : Z) :
  0 <= n -> n + 1 = 30000 * (n / 30000 + 1) -> (n + 1) / 30000 = n / 30000 + 1.
Proof.
  intros Hn He. rewrite He. rewrite Z.mul_comm. apply Z.div_mul. lia.
Qed.

Lemma tick_while_open (n : nat) :
  WebSocketHook.tick (while_open backend ok gameId playerId n)
  = while_open backend ok gameId playerId (S n).
Proof.
  unfold while_open, WebSocketHook.tick, pings.
  rewrite Nat2Z.inj_succ. unfold Z.succ.
  assert (Hn : 0 <= Z.of_nat n) by lia.
  hook_compute.
  destruct (Z.eqb_spec (30000 * (Z.of_nat n / 30000 + 1)) (Z.of_nat n + 1)) as [E|E].
  - rewrite (div_step_fire _ Hn (eq_sym E)).
    hook_compute.
    rewrite Z2Nat.inj_add by (try apply Z.div_pos; lia).
    rewrite repeat_app. change (Z.to_nat 1) with 1%nat. cbn [repeat].
    replace (Z.of_nat n + 1 + 30000)
      with (30000 * (Z.of_nat n / 30000 + 1 + 1)) by lia.
    reflexivity.
  - rewrite (div_step_quiet _ Hn ltac:(congruence)).
    reflexivity.
Qed.

Lemma elapse_while_open (n : nat) :
  WebSocketHook.elapse n (while_open backend ok gameId playerId 0)
  = while_open backend ok gameId playerId n.
Proof.
  induction n as [|n IH]; [reflexivity|].
  rewrite elapse_tick, IH. apply tick_while_open.
Qed.

Lemma close_state (n : nat) :
  WebSocketHook.handle gameId playerId (while_open backend ok gameId playerId n)
                       (WebSocketHook.SocketClose 0)
  = after_close backend ok gameId playerId n 0.
Proof.
  unfold while_open, after_close. hook_compute.
  rewrite Z.add_0_r. reflexivity.
Qed.

Lemma tick_after_close (n m : nat) :
  WebSocketHook.tick (after_close backend ok gameId playerId n m)
  = after_close backend ok gameId playerId n (S m).
Proof.
  unfold after_close, WebSocketHook.tick.
  rewrite Nat2Z.inj_succ. unfold Z.succ.
  destruct (Z.ltb_spec (Z.of_nat m) 2000) as [H1|H1];
    destruct (Z.ltb_spec (Z.of_nat m + 1) 2000) as [H2|H2]; try lia;
    hook_compute.
  - destruct (Z.eqb_spec (Z.of_nat n + 2000) (Z.of_nat n + Z.of_nat m + 1)); [lia|].
    hook_compute. rewrite Z.add_assoc. reflexivity.
  - destruct (Z.eqb_spec (Z.of_nat n + 2000) (Z.of_nat n + Z.of_nat m + 1)); [|lia].
    hook_compute. rewrite game_given, player_given.
    unfold WebSocketHook.connect. rewrite game_given, player_given.
    hook_compute. fold (wsUrl backend gameId playerId). rewrite url_accepted.
    rewrite Z.add_assoc. reflexivity.
  - rewrite Z.add_assoc. reflexivity.
Qed.

Lemma elapse_after_close (n m : nat) :
  WebSocketHook.elapse m (after_close backend ok gameId playerId n 0)
  = after_close backend ok gameId playerId n m.
Proof.
  induction m as [|m IH]; [reflexivity|].
  rewrite elapse_tick, IH. apply tick_after_close.
Qed.

End LifecycleFacts.

(** What [onmessage] surfaces. *)
Lemma onmessage_lastMessage (r : Push.parse_outcome) (h : WebSocketHook.hook) :
  WebSocketHook.lastMessage (WebSocketHook.onmessage r h) =
    match r with
    | Push.SyntaxError => WebSocketHook.lastMessage h
    | Push.Parsed data =>
        match Push.get_type data with
        | None => WebSocketHook.lastMessage h
        | Some t =>
            if Js.strict_eq t (Js.Str "pong") then WebSocketHook.lastMessage h
            else Some data
        end
    end.
Proof.
  destruct r as [|data]; [reflexivity|]. unfold WebSocketHook.onmessage.
  destruct (Push.get_type data) as [t|]; [|reflexivity].
  destruct (Js.strict_eq t (Js.Str "pong")); reflexivity.
Qed.

(** *** A connection in general *)

(** The field updates of the hook, run on a state written out as a
    record; lists and arithmetic are left alone. *)
Ltac hook_fields :=
  cbv beta iota zeta delta
    [WebSocketHook.isConnected WebSocketHook.lastMessage WebSocketHook.connectionError
     WebSocketHook.wsRef WebSocketHook.reconnectTimeoutRef WebSocketHook.pingIntervalRef
     WebSocketHook.sockets WebSocketHook.timers WebSocketHook.now WebSocketHook.next_tid
     WebSocketHook.console WebSocketHook.BACKEND_URL WebSocketHook.constructible
     WebSocketHook.url WebSocketHook.readyState WebSocketHook.sent
     WebSocketHook.closure_gameId WebSocketHook.closure_playerId
     WebSocketHook.tid WebSocketHook.due WebSocketHook.period WebSocketHook.callback
     WebSocketHook.setIsConnected WebSocketHook.setLastMessage
     WebSocketHook.setConnectionError WebSocketHook.set_wsRef
     WebSocketHook.set_reconnectTimeoutRef WebSocketHook.set_pingIntervalRef
     WebSocketHook.set_sockets WebSocketHook.set_timers WebSocketHook.set_now
     WebSocketHook.console_error WebSocketHook.set_timer WebSocketHook.setInterval
     WebSocketHook.setTimeout WebSocketHook.clear_timer WebSocketHook.clearInterval
     WebSocketHook.clearTimeout WebSocketHook.set_readyState
     WebSocketHook.push_sent WebSocketHook.current_is_open WebSocketHook.send_if_open
     WebSocketHook.sendMove WebSocketHook.sendMessage
     WebSocketHook.ReadyState_eqb WebSocketHook.fire WebSocketHook.reschedule
     WebSocketHook.onopen WebSocketHook.onclose WebSocketHook.onerror
     WebSocketHook.PING_INTERVAL WebSocketHook.RECONNECT_DELAY
     WebSocketHook.handle WebSocketHook.tick
     fold_left filter flat_map negb].

Lemma ReadyState_eqb_eq (a b : WebSocketHook.ReadyState) :
  WebSocketHook.ReadyState_eqb a b = true <-> a = b.
Proof. destruct a, b; simpl; split; congruence. Qed.

Lemma update_socket_same (l : list WebSocketHook.socket)
      (f : WebSocketHook.socket -> WebSocketHook.socket) :
  forall sid s, nth_error l sid = Some s ->
    nth_error (WebSocketHook.update_socket l sid f) sid = Some (f s).
Proof.
  induction l as [|a l IH]; intros [|n] s H; simpl in *; try discriminate.
  - injection H as ->. reflexivity.
  - apply IH, H.
Qed.

Lemma others_closed_update (l : list WebSocketHook.socket)
      (f : WebSocketHook.socket -> WebSocketHook.socket) :
  forall sid, others_closed (WebSocketHook.update_socket l sid f) sid = others_closed l sid.
Proof.
  induction l as [|a l IH]; intros [|n]; simpl; try reflexivity.
  rewrite IH. reflexivity.
Qed.

Lemma others_closed_nth (l : list WebSocketHook.socket) :
  forall sid j s, others_closed l sid = true -> j <> sid -> nth_error l j = Some s ->
    WebSocketHook.readyState s = WebSocketHook.CLOSED.
Proof.
  induction l as [|a l IH]; intros sid j s H Hj Hn.
  - destruct j; discriminate Hn.
  - destruct sid as [|n], j as [|j]; simpl in H, Hn.
    + contradiction.
    + apply ReadyState_eqb_eq. rewrite forallb_forall in H.
      apply H. eapply nth_error_In, Hn.
    + injection Hn as <-. apply andb_true_iff in H. apply ReadyState_eqb_eq, H.
    + apply andb_true_iff in H. apply (IH n j); [apply H | congruence | exact Hn].
Qed.

Lemma sendMove_payload (position : Z) (h : WebSocketHook.hook) :
  WebSocketHook.sendMove position h = WebSocketHook.send_if_open (move_payload position) h.
Proof. reflexivity. Qed.

Lemma elapse_add (a b : nat) :
  forall h, WebSocketHook.elapse (a + b) h = WebSocketHook.elapse b (WebSocketHook.elapse a h).
Proof. induction a as [|a IH]; intros h; [reflexivity|]. simpl. apply IH. Qed.

Section ConnectionFacts.

Variables (gameId playerId : Js.ref) (sid : nat) (s0 : WebSocketHook.socket)
          (t0 : Z) (i : nat) (backend : string) (ok : string -> bool).

(** A socket of the hook is the open one, or it is closed. *)
Lemma beating_socket (L : list string) (T : Z) (h : WebSocketHook.hook) (j : nat)
      (s : WebSocketHook.socket) :
  beating sid s0 t0 i backend ok L T h -> nth_error (WebSocketHook.sockets h) j = Some s ->
  WebSocketHook.readyState s = WebSocketHook.OPEN
  \/ WebSocketHook.readyState s = WebSocketHook.CLOSED.
Proof.
  intros (_ & _ & _ & _ & _ & Hn & Hoc & _) Hj.
  destruct (Nat.eq_dec j sid) as [->|Hne].
  - left. rewrite Hn in Hj. injection Hj as <-. reflexivity.
  - right. exact (others_closed_nth _ _ _ _ Hoc Hne Hj).
Qed.

Lemma open_is_beating (h : WebSocketHook.hook) (s : WebSocketHook.socket) :
  nth_error (WebSocketHook.sockets h) sid = Some s ->
  undisturbed h sid = true ->
  beating sid s (WebSocketHook.now h) (WebSocketHook.next_tid h)
          (WebSocketHook.BACKEND_URL h) (WebSocketHook.constructible h) [] 0
          (WebSocketHook.handle gameId playerId h (WebSocketHook.SocketOpen sid)).
Proof.
  intros Hn Hu. unfold undisturbed in Hu. rewrite Hn in Hu.
  destruct h as [ic lm ce wr rt pr socks tm nw nt cs bu ck].
  cbn [WebSocketHook.wsRef WebSocketHook.sockets WebSocketHook.timers] in Hu, Hn.
  apply andb_true_iff in Hu. destruct Hu as (Hu & Hoc).
  apply andb_true_iff in Hu. destruct Hu as (Hu & Htm).
  apply andb_true_iff in Hu. destruct Hu as (Hr & Hc).
  destruct wr as [r|]; [|discriminate Hr]. apply Nat.eqb_eq in Hr. subst r.
  destruct tm; [|discriminate Htm].
  apply ReadyState_eqb_eq in Hc.
  destruct s as [u rs sn cg cp]. cbn [WebSocketHook.readyState] in Hc. subst rs.
  hook_fields. rewrite Hn. hook_fields. cbn [app].
  unfold beating. hook_fields.
  rewrite (update_socket_same _ _ _ _ Hn), others_closed_update, app_nil_r.
  hook_fields. rewrite Z.add_0_r.
  repeat split; try reflexivity; assumption.
Qed.

Lemma tick_beating (L : list string) (T : Z) (h : WebSocketHook.hook) :
  0 <= T -> beating sid s0 t0 i backend ok L T h ->
  beating sid s0 t0 i backend ok (L ++ repeat WebSocketHook.ping (Z.to_nat ((T + 1) / 30000 - T / 30000)))%list
        (T + 1) (WebSocketHook.tick h).
Proof.
  intros HT (Hic & Hws & Hpi & Htm & Hnow & Hnth & Hoc & Hbu & Hok).
  destruct h as [ic lm ce wr rt pr socks tm nw nt cs bu ck].
  cbn [WebSocketHook.isConnected WebSocketHook.wsRef WebSocketHook.pingIntervalRef
       WebSocketHook.timers WebSocketHook.now WebSocketHook.sockets
       WebSocketHook.BACKEND_URL WebSocketHook.constructible] in *.
  subst ic wr pr tm nw bu ck.
  hook_fields.
  destruct (Z.eqb_spec (t0 + 30000 * (T / 30000 + 1)) (t0 + T + 1)) as [E|E].
  - assert (D : (T + 1) / 30000 = T / 30000 + 1) by (apply div_step_fire; lia).
    hook_fields. rewrite Hnth. hook_fields.
    unfold beating. hook_fields.
    rewrite (update_socket_same _ _ _ _ Hnth), others_closed_update, D.
    replace (T / 30000 + 1 - T / 30000) with 1 by lia.
    change (Z.to_nat 1) with 1%nat. cbn [repeat]. hook_fields.
    rewrite <- app_assoc. cbn [app].
    repeat split; try reflexivity; try assumption; try lia.
    f_equal. f_equal. lia.
  - assert (D : (T + 1) / 30000 = T / 30000) by (apply div_step_quiet; lia).
    unfold beating. hook_fields. cbn [app].
    rewrite D, Z.sub_diag. cbn [Z.to_nat repeat]. rewrite app_nil_r.
    repeat split; try reflexivity; try assumption; lia.
Qed.

Lemma elapse_beating (n : nat) :
  forall (L : list string) (T : Z) (h : WebSocketHook.hook),
    0 <= T -> beating sid s0 t0 i backend ok L T h ->
    beating sid s0 t0 i backend ok (L ++ repeat WebSocketHook.ping
                  (Z.to_nat ((T + Z.of_nat n) / 30000 - T / 30000)))%list
          (T + Z.of_nat n) (WebSocketHook.elapse n h).
Proof.
  induction n as [|n IH]; intros L T h HT H.
  - cbn [WebSocketHook.elapse]. change (Z.of_nat 0) with 0.
    rewrite Z.add_0_r, Z.sub_diag. cbn [Z.to_nat repeat]. rewrite app_nil_r. exact H.
  - cbn [WebSocketHook.elapse].
    apply tick_beating in H; [|exact HT]. apply IH in H; [|lia].
    rewrite <- app_assoc, <- repeat_app in H.
    assert (M1 : T / 30000 <= (T + 1) / 30000) by (apply Z.div_le_mono; lia).
    assert (M2 : (T + 1) / 30000 <= (T + 1 + Z.of_nat n) / 30000)
      by (apply Z.div_le_mono; lia).
    rewrite <- Z2Nat.inj_add in H by lia.
    replace (T + Z.of_nat (S n)) with (T + 1 + Z.of_nat n) by lia.
    replace ((T + 1 + Z.of_nat n) / 30000 - T / 30000)
      with ((T + 1) / 30000 - T / 30000
            + ((T + 1 + Z.of_nat n) / 30000 - (T + 1) / 30000)) by lia.
    exact H.
Qed.

Lemma beating_onmessage (r : Push.parse_outcome) (L : list string) (T : Z)
      (h : WebSocketHook.hook) :
  beating sid s0 t0 i backend ok L T h -> beating sid s0 t0 i backend ok L T (WebSocketHook.onmessage r h).
Proof.
  intros H. unfold WebSocketHook.onmessage.
  destruct r as [|data]; [exact H|].
  destruct (Push.get_type data) as [t|]; [|exact H].
  destruct (negb _); exact H.
Qed.

Lemma handle_beating (e : WebSocketHook.event) (L : list string) (T : Z)
      (h : WebSocketHook.hook) :
  0 <= T -> stays_open sid e = true -> beating sid s0 t0 i backend ok L T h ->
  beating sid s0 t0 i backend ok (L ++ emitted T e)%list (T + duration e) (WebSocketHook.handle gameId playerId h e).
Proof.
  intros HT He H.
  assert (Same : beating sid s0 t0 i backend ok (L ++ [])%list (T + 0) h)
    by (rewrite app_nil_r, Z.add_0_r; exact H).
  destruct e as [| |j|j r|j|j|ms|position]; try discriminate He;
    cbn [emitted duration WebSocketHook.handle].
  - destruct (nth_error (WebSocketHook.sockets h) j) as [s|] eqn:Ej; [|exact Same].
    destruct (beating_socket _ _ _ _ _ H Ej) as [-> | ->]; exact Same.
  - rewrite app_nil_r, Z.add_0_r.
    destruct (nth_error (WebSocketHook.sockets h) j) as [s|] eqn:Ej; [|exact H].
    destruct (WebSocketHook.readyState s); try exact H.
    apply beating_onmessage, H.
  - destruct (nth_error (WebSocketHook.sockets h) j) as [s|] eqn:Ej; [|exact Same].
    cbn [stays_open] in He.
    destruct (Nat.eqb_spec j sid) as [->|Hne]; [discriminate He|].
    destruct H as (_ & _ & _ & _ & _ & _ & Hoc & _).
    rewrite (others_closed_nth _ _ _ _ Hoc Hne Ej). exact Same.
  - destruct (nth_error (WebSocketHook.sockets h) j); exact Same.
  - apply elapse_beating; assumption.
  - rewrite Z.add_0_r. rewrite sendMove_payload.
    destruct H as (Hic & Hws & Hpi & Htm & Hnow & Hnth & Hoc & Hbu & Hok).
    destruct h as [ic lm ce wr rt pr socks tm nw nt cs bu ck].
    cbn [WebSocketHook.isConnected WebSocketHook.wsRef WebSocketHook.pingIntervalRef
         WebSocketHook.timers WebSocketHook.now WebSocketHook.sockets
         WebSocketHook.BACKEND_URL WebSocketHook.constructible] in *.
    subst ic wr pr tm nw bu ck.
    hook_fields. rewrite Hnth. hook_fields.
    unfold beating. hook_fields.
    rewrite (update_socket_same _ _ _ _ Hnth), others_closed_update.
    hook_fields. rewrite <- app_assoc.
    repeat split; try reflexivity; assumption.
Qed.

Lemma run_beating (es : list WebSocketHook.event) :
  forall (L : list string) (T : Z) (h : WebSocketHook.hook),
    0 <= T -> forallb (stays_open sid) es = true -> beating sid s0 t0 i backend ok L T h ->
    exists T', 0 <= T' /\
      beating sid s0 t0 i backend ok (L ++ outgoing T es)%list T' (WebSocketHook.run gameId playerId h es).
Proof.
  induction es as [|e es IH]; intros L T h HT Hes H.
  - exists T. rewrite app_nil_r. split; assumption.
  - cbn [forallb] in Hes. apply andb_true_iff in Hes. destruct Hes as (He & Hes).
    cbn [outgoing]. rewrite app_assoc.
    apply (IH _ (T + duration e)).
    + destruct e; simpl; lia.
    + exact Hes.
    + apply handle_beating; assumption.
Qed.

(** The close of the open connection: the ping interval is cleared and
    the reconnect timeout is the one pending timer. *)
Lemma close_of_beating (L : list string) (T : Z) (h : WebSocketHook.hook) :
  beating sid s0 t0 i backend ok L T h ->
  WebSocketHook.handle gameId playerId h (WebSocketHook.SocketClose sid)
  = WebSocketHook.mkHook false (WebSocketHook.lastMessage h)
      (WebSocketHook.connectionError h) (Some sid) (Some (WebSocketHook.next_tid h))
      (Some i)
      (WebSocketHook.update_socket (WebSocketHook.sockets h) sid
         (WebSocketHook.set_readyState WebSocketHook.CLOSED))
      [WebSocketHook.mkTimer (WebSocketHook.next_tid h) (WebSocketHook.now h + 2000) None
         (WebSocketHook.Reconnect (WebSocketHook.closure_gameId s0)
                                  (WebSocketHook.closure_playerId s0))]
      (WebSocketHook.now h) (S (WebSocketHook.next_tid h)) (WebSocketHook.console h)
      (WebSocketHook.BACKEND_URL h) (WebSocketHook.constructible h).
Proof.
  intros (Hic & Hws & Hpi & Htm & Hnow & Hnth & Hoc & Hbu & Hok).
  destruct h as [ic lm ce wr rt pr socks tm nw nt cs bu ck].
  cbn [WebSocketHook.isConnected WebSocketHook.wsRef WebSocketHook.pingIntervalRef
       WebSocketHook.timers WebSocketHook.now WebSocketHook.sockets
       WebSocketHook.BACKEND_URL WebSocketHook.constructible] in *.
  subst ic wr pr tm nw bu ck.
  hook_fields. rewrite Hnth. hook_fields. rewrite Nat.eqb_refl. hook_fields.
  cbn [app]. reflexivity.
Qed.

End ConnectionFacts.

(** While its one timer is not due, the hook only sees time pass. *)
Lemma elapse_before_due (k : nat) :
  forall (h : WebSocketHook.hook) (t : WebSocketHook.timer),
    WebSocketHook.timers h = [t] ->
    WebSocketHook.now h + Z.of_nat k < WebSocketHook.due t ->
    WebSocketHook.elapse k h
    = WebSocketHook.set_now (WebSocketHook.now h + Z.of_nat k) h.
Proof.
  induction k as [|k IH]; intros h t Ht Hd.
  - destruct h. cbn. rewrite Z.add_0_r. reflexivity.
  - cbn [WebSocketHook.elapse].
    assert (Et : WebSocketHook.tick h
                 = WebSocketHook.set_now (WebSocketHook.now h + 1) h).
    { destruct h as [ic lm ce wr rt pr socks tm nw nt cs bu ck].
      cbn [WebSocketHook.timers WebSocketHook.now] in *. subst tm.
      destruct t as [ti td tp tc]. cbn [WebSocketHook.due] in Hd.
      hook_fields.
      destruct (Z.eqb_spec td (nw + 1)); [lia|]. reflexivity. }
    rewrite Et. rewrite (IH _ t); [|exact Ht|cbn [WebSocketHook.set_now WebSocketHook.now]; lia].
    destruct h. unfold WebSocketHook.set_now.
    cbn [WebSocketHook.isConnected WebSocketHook.lastMessage WebSocketHook.connectionError
         WebSocketHook.wsRef WebSocketHook.reconnectTimeoutRef WebSocketHook.pingIntervalRef
         WebSocketHook.sockets WebSocketHook.timers WebSocketHook.now WebSocketHook.next_tid
         WebSocketHook.console WebSocketHook.BACKEND_URL WebSocketHook.constructible].
    f_equal; lia.
Qed.

(** A timeout that is due runs and is gone. *)
Lemma tick_timeout (h : WebSocketHook.hook) (t : WebSocketHook.timer) :
  WebSocketHook.timers h = [t] ->
  WebSocketHook.due t = WebSocketHook.now h + 1 ->
  WebSocketHook.period t = None ->
  WebSocketHook.tick h
  = WebSocketHook.fire (WebSocketHook.callback t)
      (WebSocketHook.set_timers [] (WebSocketHook.set_now (WebSocketHook.now h + 1) h)).
Proof.
  intros Ht Hd Hp.
  destruct h as [ic lm ce wr rt pr socks tm nw nt cs bu ck].
  cbn [WebSocketHook.timers WebSocketHook.now] in *. subst tm.
  unfold WebSocketHook.tick.
  cbn [WebSocketHook.timers WebSocketHook.now WebSocketHook.set_timers
       WebSocketHook.set_now WebSocketHook.reschedule filter flat_map app
       WebSocketHook.isConnected WebSocketHook.lastMessage WebSocketHook.connectionError
       WebSocketHook.wsRef WebSocketHook.reconnectTimeoutRef WebSocketHook.pingIntervalRef
       WebSocketHook.sockets WebSocketHook.next_tid WebSocketHook.console
       WebSocketHook.BACKEND_URL WebSocketHook.constructible].
  rewrite Hd, Z.eqb_refl, Hp. reflexivity.
Qed.

(** A reconnect is [connect] with the ids of the socket that closed; it
    reads the sockets and the build settings only, and touches neither
    the timers nor [isConnected]. *)
Lemma fire_reconnect (g p : Js.ref) (h h' : WebSocketHook.hook) :
  WebSocketHook.sockets h = WebSocketHook.sockets h' ->
  WebSocketHook.wsRef h = WebSocketHook.wsRef h' ->
  WebSocketHook.BACKEND_URL h = WebSocketHook.BACKEND_URL h' ->
  WebSocketHook.constructible h = WebSocketHook.constructible h' ->
  let r := WebSocketHook.fire (WebSocketHook.Reconnect g p) h in
  WebSocketHook.sockets r = WebSocketHook.sockets (WebSocketHook.connect g p h') /\
  WebSocketHook.wsRef r = WebSocketHook.wsRef (WebSocketHook.connect g p h') /\
  WebSocketHook.timers r = WebSocketHook.timers h /\
  WebSocketHook.isConnected r = WebSocketHook.isConnected h.
Proof.
  intros Hs Hw Hb Hc r. unfold r, WebSocketHook.fire, WebSocketHook.connect.
  destruct (Js.truthy g), (Js.truthy p); cbn [andb negb orb]; auto.
  rewrite Hb, Hc, Hs.
  destruct (WebSocketHook.constructible h' _); cbn; auto.
Qed.

Lemma connect_sockets (g p : Js.ref) (h : WebSocketHook.hook) :
  Js.truthy g = true -> Js.truthy p = true ->
  WebSocketHook.constructible h (Api.getWebSocketUrl (WebSocketHook.BACKEND_URL h) g p)
    = true ->
  WebSocketHook.sockets (WebSocketHook.connect g p h)
    = (WebSocketHook.sockets h
       ++ [WebSocketHook.mkSocket (Api.getWebSocketUrl (WebSocketHook.BACKEND_URL h) g p)
             WebSocketHook.CONNECTING [] g p])%list /\
  WebSocketHook.wsRef (WebSocketHook.connect g p h)
    = Some (List.length (WebSocketHook.sockets h)).
Proof.
  intros Hg Hp Hc. unfold WebSocketHook.connect. rewrite Hg, Hp. cbn [negb orb].
  rewrite Hc. split; reflexivity.
Qed.

(** [connect] keeps the sockets there are. *)
Lemma connect_keeps (g p : Js.ref) (h : WebSocketHook.hook) (j : nat)
      (s : WebSocketHook.socket) :
  nth_error (WebSocketHook.sockets h) j = Some s ->
  nth_error (WebSocketHook.sockets (WebSocketHook.connect g p h)) j = Some s.
Proof.
  intros H. unfold WebSocketHook.connect.
  destruct (negb _ || negb _); [exact H|].
  destruct (WebSocketHook.constructible h _); [|exact H].
  cbn. rewrite nth_error_app1; [exact H|]. apply nth_error_Some. congruence.
Qed.

Lemma tick_without_timers (h : WebSocketHook.hook) :
  WebSocketHook.timers h = [] ->
  WebSocketHook.tick h
  = WebSocketHook.set_timers [] (WebSocketHook.set_now (WebSocketHook.now h + 1) h).
Proof. intros H. unfold WebSocketHook.tick. rewrite H. reflexivity. Qed.

Lemma elapse_without_timers (n : nat) :
  forall h, WebSocketHook.timers h = [] ->
    let h' := WebSocketHook.elapse n h in
    WebSocketHook.timers h' = [] /\
    WebSocketHook.sockets h' = WebSocketHook.sockets h /\
    WebSocketHook.wsRef h' = WebSocketHook.wsRef h /\
    WebSocketHook.isConnected h' = WebSocketHook.isConnected h /\
    WebSocketHook.connectionError h' = WebSocketHook.connectionError h /\
    WebSocketHook.lastMessage h' = WebSocketHook.lastMessage h.
Proof.
  induction n as [|n IH]; intros h Ht; [repeat split; assumption|].
  cbn [WebSocketHook.elapse]. rewrite (tick_without_timers h Ht).
  destruct (IH (WebSocketHook.set_timers [] (WebSocketHook.set_now (WebSocketHook.now h + 1) h))
               eq_refl) as (H1 & H2 & H3 & H4 & H5 & H6).
  repeat split; assumption.
Qed.

Lemma elapse_S (k : nat) (h : WebSocketHook.hook) :
  WebSocketHook.elapse (S k) h = WebSocketHook.elapse k (WebSocketHook.tick h).
Proof. reflexivity. Qed.

(** C7, as the code has it.  Take a connection of the hook that opens
    with nothing else of the hook around (no timer pending, every other
    socket closed; the first connection, or one made by a reconnect after
    a close).  While it stays open, whatever messages arrive, errors are
    reported and moves are sent, it has sent exactly a "ping" for each
    multiple of 30 000 ms that the time since it opened has reached
    (after [n] ms with nothing else sent, [n / 30000] pings), besides
    the moves.  A parsed message of type "pong" is not surfaced as
    [lastMessage]; every other parsed message on which [type] can be
    read, that is every parsed value but [null], is surfaced; a payload
    that parses to [null] or does not parse is dropped.  When the
    connection closes the hook is no longer connected, the ping interval
    is cleared (no ping timer is pending, and the closed socket has sent
    nothing more however long one waits), the one pending timer is the
    reconnect due 2 000 ms after the close, no socket is created before
    it, and at 2 000 ms [connect] runs with the game and player of the
    closed socket: a new socket to their URL is then the current one. *)
Theorem hook_connection_lifecycle (gameId playerId : Js.ref) (h : WebSocketHook.hook)
        (sid : nat) (s : WebSocketHook.socket) (es : list WebSocketHook.event) :
  nth_error (WebSocketHook.sockets h) sid = Some s ->
  undisturbed h sid = true ->
  forallb (stays_open sid) es = true ->
  let opened := WebSocketHook.handle gameId playerId h (WebSocketHook.SocketOpen sid) in
  let h1 := WebSocketHook.run gameId playerId opened es in
  let g' := WebSocketHook.closure_gameId s in
  let p' := WebSocketHook.closure_playerId s in
  let on_wire (st : WebSocketHook.ReadyState) (l : list string) :=
    WebSocketHook.mkSocket (WebSocketHook.url s) st (WebSocketHook.sent s ++ l)%list g' p' in
  (WebSocketHook.isConnected h1 = true /\
   WebSocketHook.wsRef h1 = Some sid /\
   nth_error (WebSocketHook.sockets h1) sid
     = Some (on_wire WebSocketHook.OPEN (outgoing 0 es))) /\
  (forall n,
     nth_error (WebSocketHook.sockets (WebSocketHook.elapse n opened)) sid
     = Some (on_wire WebSocketHook.OPEN
               (repeat WebSocketHook.ping (Z.to_nat (Z.of_nat n / 30000))))) /\
  (forall h' m, Push.type m = Js.Str "pong" ->
     WebSocketHook.lastMessage (WebSocketHook.onmessage (Push.Parsed (Push.JObj m)) h')
       = WebSocketHook.lastMessage h') /\
  (forall h' data, data <> Push.JNull ->
     Push.get_type data <> Some (Js.Str "pong") ->
     WebSocketHook.lastMessage (WebSocketHook.onmessage (Push.Parsed data) h')
       = Some data) /\
  (forall h',
     WebSocketHook.lastMessage (WebSocketHook.onmessage (Push.Parsed Push.JNull) h')
       = WebSocketHook.lastMessage h' /\
     WebSocketHook.lastMessage (WebSocketHook.onmessage Push.SyntaxError h')
       = WebSocketHook.lastMessage h') /\
  (let closed := WebSocketHook.handle gameId playerId h1 (WebSocketHook.SocketClose sid) in
   let url' := Api.getWebSocketUrl (WebSocketHook.BACKEND_URL h) g' p' in
   forall m,
     let hm := WebSocketHook.elapse m closed in
     WebSocketHook.isConnected hm = false /\
     (forall t, In t (WebSocketHook.timers hm) ->
                WebSocketHook.callback t <> WebSocketHook.PingIfOpen) /\
     nth_error (WebSocketHook.sockets hm) sid
       = Some (on_wire WebSocketHook.CLOSED (outgoing 0 es)) /\
     (Z.of_nat m < 2000 ->
        WebSocketHook.sockets hm = WebSocketHook.sockets closed /\
        map (fun t => (WebSocketHook.due t, WebSocketHook.period t, WebSocketHook.callback t))
            (WebSocketHook.timers hm)
          = [(WebSocketHook.now h1 + 2000, None, WebSocketHook.Reconnect g' p')]) /\
     (2000 <= Z.of_nat m ->
        WebSocketHook.timers hm = [] /\
        WebSocketHook.sockets hm
          = WebSocketHook.sockets (WebSocketHook.connect g' p' closed) /\
        WebSocketHook.wsRef hm
          = WebSocketHook.wsRef (WebSocketHook.connect g' p' closed) /\
        (Js.truthy g' = true -> Js.truthy p' = true ->
         WebSocketHook.constructible h url' = true ->
           WebSocketHook.sockets hm
             = (WebSocketHook.sockets closed
                ++ [WebSocketHook.mkSocket url' WebSocketHook.CONNECTING [] g' p'])%list /\
           WebSocketHook.wsRef hm = Some (List.length (WebSocketHook.sockets closed))))).
Proof.
  intros Hn Hu Hes opened h1 g' p' on_wire.
  pose proof (open_is_beating gameId playerId sid h s Hn Hu) as Hb0.
  fold opened in Hb0.
  destruct (run_beating gameId playerId sid s _ _ _ _ es [] 0 opened
              (Z.le_refl 0) Hes Hb0) as (T & HT & Hb).
  fold h1 in Hb. cbn [app] in Hb.
  split; [|split; [|split; [|split; [|split]]]].
  - destruct Hb as (Hic & Hws & _ & _ & _ & Hnth & _). repeat split; assumption.
  - intros n.
    destruct (elapse_beating sid s _ _ _ _ n [] 0 opened (Z.le_refl 0) Hb0)
      as (_ & _ & _ & _ & _ & Hnth & _).
    cbn [app] in Hnth. rewrite Z.add_0_l in Hnth.
    change (0 / 30000) with 0 in Hnth. rewrite Z.sub_0_r in Hnth. exact Hnth.
  - intros h' m Hm. rewrite onmessage_lastMessage. simpl. rewrite Hm. reflexivity.
  - intros h' data Hnn Hnp. rewrite onmessage_lastMessage.
    destruct (Push.get_type data) as [t|] eqn:Et.
    + destruct t as [| |x]; try reflexivity. simpl.
      destruct (String.eqb_spec x "pong") as [->|]; [congruence | reflexivity].
    + destruct data; simpl in Et; congruence.
  - intros h'. split; rewrite onmessage_lastMessage; reflexivity.
  - intros closed url' m hm.
    pose proof (close_of_beating gameId playerId sid s _ _ _ _ _ _ h1 Hb) as Ec.
    fold closed g' p' in Ec.
    destruct Hb as (_ & _ & _ & _ & _ & Hnth & _ & Hbu & Hok).
    apply (update_socket_same _ (WebSocketHook.set_readyState WebSocketHook.CLOSED))
      in Hnth.
    cbn [WebSocketHook.set_readyState WebSocketHook.url WebSocketHook.sent
         WebSocketHook.closure_gameId WebSocketHook.closure_playerId] in Hnth.
    set (t := WebSocketHook.mkTimer (WebSocketHook.next_tid h1)
                (WebSocketHook.now h1 + 2000) None (WebSocketHook.Reconnect g' p')) in Ec.
    assert (Ht : WebSocketHook.timers closed = [t]) by (rewrite Ec; reflexivity).
    assert (Hnow : WebSocketHook.now closed = WebSocketHook.now h1)
      by (rewrite Ec; reflexivity).
    assert (Hic : WebSocketHook.isConnected closed = false) by (rewrite Ec; reflexivity).
    assert (Hs : nth_error (WebSocketHook.sockets closed) sid
                 = Some (on_wire WebSocketHook.CLOSED (outgoing 0 es)))
      by (rewrite Ec; exact Hnth).
    assert (Hb' : WebSocketHook.BACKEND_URL closed = WebSocketHook.BACKEND_URL h)
      by (rewrite Ec; exact Hbu).
    assert (Hc' : WebSocketHook.constructible closed = WebSocketHook.constructible h)
      by (rewrite Ec; exact Hok).
    clear Ec Hnth.
    destruct (Z.ltb_spec (Z.of_nat m) 2000) as [Hm|Hm].
    + assert (Em : hm = WebSocketHook.set_now (WebSocketHook.now closed + Z.of_nat m) closed).
      { apply (elapse_before_due m closed t Ht). rewrite Hnow.
        unfold t; cbn [WebSocketHook.due]. lia. }
      rewrite Em.
      cbn [WebSocketHook.set_now WebSocketHook.isConnected WebSocketHook.timers
           WebSocketHook.sockets].
      rewrite Ht. split; [exact Hic|]. split.
      { intros x [<-|[]]. discriminate. }
      split; [exact Hs|]. split; [|lia].
      intros _. split; reflexivity.
    + set (a := Z.to_nat 1999).
      assert (Ea : Z.of_nat a = 1999) by (unfold a; lia).
      assert (Hsplit : m = (a + S (m - Z.to_nat 2000))%nat) by (unfold a; lia).
      set (k := (m - Z.to_nat 2000)%nat) in Hsplit.
      assert (Eq : WebSocketHook.elapse a closed
                   = WebSocketHook.set_now (WebSocketHook.now closed + 1999) closed).
      { rewrite <- Ea. apply (elapse_before_due a closed t Ht).
        rewrite Hnow, Ea. unfold t; cbn [WebSocketHook.due]. lia. }
      set (hq := WebSocketHook.set_now (WebSocketHook.now closed + 1999) closed) in Eq.
      assert (Er : WebSocketHook.tick hq
                   = WebSocketHook.fire (WebSocketHook.Reconnect g' p')
                       (WebSocketHook.set_timers []
                          (WebSocketHook.set_now (WebSocketHook.now hq + 1) hq))).
      { apply (tick_timeout hq t); [exact Ht| |reflexivity].
        unfold hq, t. cbn [WebSocketHook.due WebSocketHook.now WebSocketHook.set_now].
        rewrite Hnow. lia. }
      set (hz := WebSocketHook.set_timers []
                   (WebSocketHook.set_now (WebSocketHook.now hq + 1) hq)) in Er.
      destruct (fire_reconnect g' p' hz closed eq_refl eq_refl eq_refl eq_refl)
        as (F1 & F2 & F3 & F4).
      rewrite <- Er in F1, F2, F3, F4.
      assert (Ehm : hm = WebSocketHook.elapse k (WebSocketHook.tick hq)).
      { unfold hm. rewrite Hsplit, elapse_add, elapse_S, Eq. reflexivity. }
      destruct (elapse_without_timers k (WebSocketHook.tick hq) F3)
        as (E1 & E2 & E3 & E4 & _).
      rewrite <- Ehm in E1, E2, E3, E4.
      split; [rewrite E4, F4; exact Hic|].
      split; [rewrite E1; intros x []|].
      split; [rewrite E2, F1; apply connect_keeps, Hs|].
      split; [lia|]. intros _.
      split; [exact E1|]. split; [rewrite E2; exact F1|]. split; [rewrite E3; exact F2|].
      intros Hg Hp Hok'. rewrite E2, E3, F1, F2.
      unfold url'. rewrite <- Hb'. apply connect_sockets; try assumption.
      rewrite Hc', Hb'. exact Hok'.
Qed.

Lemma hook_connection_lifecycle_witness :
  let g := Js.Str "g1" in
  let p := Js.Str "p-alice" in
  let url := "ws://localhost:8080/api/ws/g1/p-alice" in
  let h := WebSocketHook.connect g p
             (WebSocketHook.initial "http://localhost:8080" (fun _ => true)) in
  let es := [WebSocketHook.Elapse (Z.to_nat 45000); WebSocketHook.SendMove 4;
             WebSocketHook.Elapse (Z.to_nat 15000)] in
  let h1 := WebSocketHook.run g p
              (WebSocketHook.handle g p h (WebSocketHook.SocketOpen 0)) es in
  let h2 := WebSocketHook.run g p h1
              [WebSocketHook.SocketClose 0; WebSocketHook.Elapse (Z.to_nat 2000)] in
  let h3 := WebSocketHook.elapse (Z.to_nat 30000)
              (WebSocketHook.handle g p h2 (WebSocketHook.SocketOpen 1)) in
  nth_error (WebSocketHook.sockets h1) 0
  = Some (WebSocketHook.mkSocket url WebSocketHook.OPEN
            [WebSocketHook.ping; move_payload 4; WebSocketHook.ping] g p) /\
  nth_error (WebSocketHook.sockets h3) 1
  = Some (WebSocketHook.mkSocket url WebSocketHook.OPEN [WebSocketHook.ping] g p).
Proof.
  intros g p url h es h1 h2 h3. split.
  - exact (proj2 (proj2 (proj1 (hook_connection_lifecycle g p h 0
             (WebSocketHook.mkSocket url WebSocketHook.CONNECTING [] g p)
             es eq_refl eq_refl eq_refl)))).
  - exact (proj1 (proj2 (hook_connection_lifecycle g p h2 1
             (WebSocketHook.mkSocket url WebSocketHook.CONNECTING [] g p)
             [] ltac:(vm_compute; reflexivity) ltac:(vm_compute; reflexivity) eq_refl))
             (Z.to_nat 30000)).
Defined.

(** C7 as stated fails twice.  The text [null] parses, is not a "pong",
    and is not surfaced.  And an open connection can go without pings:
    when the effect of the hook runs again (the game id changed), the
    socket of the old game closes only after the socket of the new game
    has opened, and its [onclose] clears the ping interval of the new
    socket; 30 s later that socket, still open, has sent nothing. *)
Lemma hook_claim_counterexamples :
  ~ (forall (h : WebSocketHook.hook) (data : Push.json),
       Push.get_type data <> Some (Js.Str "pong") ->
       WebSocketHook.lastMessage (WebSocketHook.onmessage (Push.Parsed data) h)
         = Some data)
  /\
  ~ (forall (g1 g2 p : Js.ref) (es1 es2 : list WebSocketHook.event) (sid : nat)
            (s : WebSocketHook.socket),
       let h := WebSocketHook.run g2 p
                  (WebSocketHook.run g1 p
                     (WebSocketHook.initial "http://localhost:8080" (fun _ => true)) es1)
                  es2 in
       nth_error (WebSocketHook.sockets h) sid = Some s ->
       WebSocketHook.readyState s = WebSocketHook.OPEN ->
       exists s',
         nth_error (WebSocketHook.sockets (WebSocketHook.elapse (Z.to_nat 30000) h)) sid
           = Some s' /\
         WebSocketHook.readyState s' = WebSocketHook.OPEN /\
         In WebSocketHook.ping (WebSocketHook.sent s')).
Proof.
  split.
  - intros H.
    specialize (H (WebSocketHook.initial "http://localhost:8080" (fun _ => true))
                  Push.JNull ltac:(discriminate)).
    discriminate H.
  - intros H.
    specialize (H (Js.Str "g1") (Js.Str "g2") (Js.Str "p-alice")
                  [WebSocketHook.Connect; WebSocketHook.SocketOpen 0]
                  [WebSocketHook.Disconnect; WebSocketHook.Connect;
                   WebSocketHook.SocketOpen 1; WebSocketHook.SocketClose 0]
                  1%nat
                  (WebSocketHook.mkSocket "ws://localhost:8080/api/ws/g2/p-alice"
                     WebSocketHook.OPEN [] (Js.Str "g2") (Js.Str "p-alice"))
                  eq_refl eq_refl).
    destruct H as (s' & Hs & _ & Hin).
    vm_compute in Hs. injection Hs as <-. destruct Hin.
Qed.

(** ** The WebSocket URL *)

Lemma substring_full (s : string) : String.substring 0 (String.length s) s = s.
Proof. induction s as [|c s IH]; simpl; [reflexivity | rewrite IH; reflexivity]. Qed.

Lemma prefix_app (a b u : string) :
  String.prefix (a ++ b) u = true -> String.prefix a u = true.
Proof.
  revert u. induction a as [|c a IH]; intros [|d u] H; simpl in *;
    try reflexivity; try discriminate H.
  destruct (ascii_dec c d); [apply IH, H | discriminate H].
Qed.

Lemma prefix_app_self (a b : string) : String.prefix a (a ++ b) = true.
Proof.
  induction a as [|c a IH]; simpl.
  - destruct b; reflexivity.
  - destruct (ascii_dec c c); [exact IH | congruence].
Qed.

(** X1: [getWebSocketUrl] swaps the scheme of the backend URL: an
    [https://] backend gives a [wss://] URL on the same host, an [http://]
    backend a [ws://] one, and a backend URL that does not start with
    [http] is used whole after [ws://]; the path is always
    [/api/ws/<game>/<player>]. *)
Theorem websocket_url_scheme (host : string) (g p : Js.ref) :
  Api.getWebSocketUrl ("https://" ++ host) g p
    = "wss://" ++ host ++ "/api/ws/" ++ Js.template g ++ "/" ++ Js.template p /\
  Api.getWebSocketUrl ("http://" ++ host) g p
    = "ws://" ++ host ++ "/api/ws/" ++ Js.template g ++ "/" ++ Js.template p /\
  (String.prefix "http" host = false ->
   Api.getWebSocketUrl host g p
     = "ws://" ++ host ++ "/api/ws/" ++ Js.template g ++ "/" ++ Js.template p).
Proof.
  split; [|split].
  - unfold Api.getWebSocketUrl, Api.strip_scheme.
    rewrite (prefix_app "https" "://" _ (prefix_app_self "https://" host)).
    rewrite (prefix_app_self "https://" host).
    simpl. rewrite Nat.sub_0_r, substring_full. reflexivity.
  - unfold Api.getWebSocketUrl, Api.strip_scheme.
    rewrite (prefix_app_self "http://" host).
    simpl. rewrite Nat.sub_0_r, substring_full. reflexivity.
  - intros H. unfold Api.getWebSocketUrl, Api.strip_scheme.
    assert (H1 : String.prefix "https" host = false).
    { destruct (String.prefix "https" host) eqn:E; [|reflexivity].
      apply (prefix_app "http" "s") in E. congruence. }
    assert (H2 : String.prefix "https://" host = false).
    { destruct (String.prefix "https://" host) eqn:E; [|reflexivity].
      apply (prefix_app "http" "s://") in E. congruence. }
    assert (H3 : String.prefix "http://" host = false).
    { destruct (String.prefix "http://" host) eqn:E; [|reflexivity].
      apply (prefix_app "http" "://") in E. congruence. }
    rewrite H1, H2, H3. reflexivity.
Qed.

Lemma websocket_url_scheme_witness :
  Api.getWebSocketUrl "localhost:8080" (Js.Str "g1") (Js.Str "p-alice")
  = "ws://localhost:8080/api/ws/g1/p-alice".
Proof.
  exact (proj2 (proj2 (websocket_url_scheme "localhost:8080" (Js.Str "g1")
                         (Js.Str "p-alice"))) eq_refl).
Defined.

(** ** Trimmed names *)

Lemma ascii_trimEnd_idem (s : string) :
  Js.ascii_trimEnd (Js.ascii_trimEnd s) = Js.ascii_trimEnd s.
Proof.
  induction s as [|c r IH]; simpl; [reflexivity|].
  destruct (Js.ascii_trimEnd r) as [|c' r'] eqn:E.
  - destruct (Js.ascii_space c) eqn:Ec; simpl; [reflexivity|]. rewrite Ec. reflexivity.
  - change (Js.ascii_trimEnd (String c (String c' r')))
      with (match Js.ascii_trimEnd (String c' r') with
            | EmptyString => if Js.ascii_space c then EmptyString else String c EmptyString
            | r0 => String c r0
            end).
    rewrite IH. reflexivity.
Qed.

Lemma ascii_trimEnd_head (c : ascii) (r : string) :
  Js.ascii_space c = false -> exists r', Js.ascii_trimEnd (String c r) = String c r'.
Proof.
  intros Hc. simpl. destruct (Js.ascii_trimEnd r); rewrite ?Hc; eauto.
Qed.

Lemma ascii_trimStart_cases (s : string) :
  Js.ascii_trimStart s = EmptyString \/
  exists c r, Js.ascii_trimStart s = String c r /\ Js.ascii_space c = false.
Proof.
  induction s as [|c r IH]; simpl; [left; reflexivity|].
  destruct (Js.ascii_space c) eqn:Ec; [exact IH|]. right. eauto.
Qed.

Lemma ascii_trim_idem (s : string) : Js.ascii_trim (Js.ascii_trim s) = Js.ascii_trim s.
Proof.
  unfold Js.ascii_trim.
  destruct (ascii_trimStart_cases s) as [E|(c & r & E & Hc)]; rewrite E.
  - reflexivity.
  - destruct (ascii_trimEnd_head c r Hc) as (r' & Er). rewrite Er.
    simpl Js.ascii_trimStart. rewrite Hc. rewrite <- Er. apply ascii_trimEnd_idem.
Qed.

(** On ASCII text a trimmed string has nothing left to trim. *)
Lemma trim_trim_ascii (J : Js.strings) (s : string) :
  Js.is_ascii s = true ->
  Js.trim J s = Js.ascii_trim s /\ Js.trim J (Js.ascii_trim s) = Js.ascii_trim s.
Proof.
  intros H. split; [apply Js.trim_ascii, H|].
  rewrite (Js.trim_ascii J) by (apply is_ascii_trim, H). apply ascii_trim_idem.
Qed.

(** X2: the username form sends a request only when the entered name is not
    blank and no request is pending; the name sent is the entered name
    without leading and trailing white space, and it is not empty; a blank
    name shows an error instead; once a request is out, submitting again
    does nothing.  For a name of ASCII characters that is not all white
    space, the name sent is the name without its leading and trailing
    tabs, line breaks and spaces, and trimming it again changes nothing. *)
Theorem username_request_trimmed (J : Js.strings) (st : UsernameForm.page) :
  (forall r, In (Request r) (snd (UsernameForm.submit J st)) ->
     UsernameForm.loading st = false /\
     r = ApiRest.createOrGetPlayer (Js.trim J (UsernameForm.username st)) /\
     Js.trim J (UsernameForm.username st) <> EmptyString /\
     UsernameForm.submit J (fst (UsernameForm.submit J st))
       = (fst (UsernameForm.submit J st), [])) /\
  (UsernameForm.loading st = false ->
   Js.trim J (UsernameForm.username st) = EmptyString ->
   UsernameForm.submit J st = (st, [Toast TError "Please enter a username"])) /\
  (UsernameForm.loading st = false ->
   Js.is_ascii (UsernameForm.username st) = true ->
   Js.ascii_trim (UsernameForm.username st) <> EmptyString ->
   snd (UsernameForm.submit J st)
   = [Request (ApiRest.createOrGetPlayer (Js.ascii_trim (UsernameForm.username st)))] /\
   Js.trim J (Js.ascii_trim (UsernameForm.username st))
   = Js.ascii_trim (UsernameForm.username st)).
Proof.
  unfold UsernameForm.submit, UsernameForm.handleSetUsername. split; [|split].
  - intros r H. destruct (UsernameForm.loading st) eqn:El; [destruct H|].
    destruct (String.eqb_spec (Js.trim J (UsernameForm.username st)) EmptyString) as [E|E];
      simpl in H.
    + destruct H as [H|[]]; discriminate H.
    + destruct H as [H|[]]. injection H as <-.
      split; [reflexivity|]. split; [reflexivity|]. split; [exact E | reflexivity].
  - intros El E. rewrite El, E. reflexivity.
  - intros El Ha E. destruct (trim_trim_ascii J _ Ha) as (E1 & E2).
    split; [|exact E2]. rewrite El, E1.
    destruct (String.eqb_spec (Js.ascii_trim (UsernameForm.username st)) EmptyString);
      [contradiction | reflexivity].
Qed.

Lemma username_request_trimmed_witness :
  snd (UsernameForm.submit ascii_strings (UsernameForm.mkPage "  alice " false))
  = [Request (ApiRest.createOrGetPlayer "alice")].
Proof.
  exact (proj1 (proj2 (proj2 (username_request_trimmed ascii_strings
                                (UsernameForm.mkPage "  alice " false)))
                      eq_refl eq_refl ltac:(discriminate))).
Defined.

(** X3: the profile form sends an update only for a name that, once
    trimmed, is not empty and differs from the current username, and it
    sends the trimmed name for the logged-in player's id; after the update
    resolved the stored player carries that name, the field shows it and
    loading is off.  For a name of ASCII characters the form cannot then
    be submitted again as it stands. *)
Theorem profile_update_changes_name (J : Js.strings) (st : ProfilePage.page) :
  (forall r, In (Request r) (snd (ProfilePage.submit J st)) ->
     exists p,
       ProfilePage.player st = Some p /\
       ProfilePage.isLoading st = false /\
       r = ApiRest.updateUsername (player_id p) (Js.trim J (ProfilePage.username st)) /\
       Js.trim J (ProfilePage.username st) <> EmptyString /\
       Js.trim J (ProfilePage.username st) <> player_username p) /\
  (forall p, ProfilePage.player st = Some p ->
     let st' := fst (ProfilePage.update_resolved J p (ProfilePage.username st)
                       (fst (ProfilePage.submit J st))) in
     ProfilePage.player st'
       = Some (mkPlayer (player_id p) (Js.trim J (ProfilePage.username st))) /\
     ProfilePage.username st' = Js.trim J (ProfilePage.username st) /\
     ProfilePage.isLoading st' = false /\
     (Js.is_ascii (ProfilePage.username st) = true ->
      ProfilePage.username st' = Js.ascii_trim (ProfilePage.username st) /\
      ProfilePage.submit J st' = (st', []))).
Proof.
  split.
  - intros r H. unfold ProfilePage.submit, ProfilePage.submit_disabled,
      ProfilePage.handleSubmit in H.
    destruct (ProfilePage.isLoading st) eqn:El; [destruct H|].
    destruct (String.eqb_spec (Js.trim J (ProfilePage.username st)) EmptyString) as [E|E];
      [destruct H|].
    destruct (ProfilePage.player st) as [p|] eqn:Ep; simpl in H.
    + destruct (String.eqb_spec (Js.trim J (ProfilePage.username st)) (player_username p))
        as [E2|E2]; simpl in H; [destruct H|].
      destruct H as [H|[]]. injection H as <-. exists p. repeat split; assumption.
    + destruct H as [H|[]]; discriminate H.
  - intros p Hp st'. unfold st', ProfilePage.update_resolved, ProfilePage.on_player.
    simpl. split; [reflexivity|]. split; [reflexivity|]. split; [reflexivity|].
    intros Ha. destruct (trim_trim_ascii J _ Ha) as (E1 & E2).
    split; [exact E1|].
    unfold ProfilePage.submit, ProfilePage.submit_disabled. simpl.
    rewrite E1, E2, String.eqb_refl, orb_true_r. reflexivity.
Qed.

Lemma profile_update_changes_name_witness :
  let st := ProfilePage.mkPage (Some alice) " alicia " false in
  let st' := fst (ProfilePage.update_resolved ascii_strings alice " alicia "
                    (fst (ProfilePage.submit ascii_strings st))) in
  ProfilePage.player st' = Some (mkPlayer "p-alice" "alicia") /\
  ProfilePage.username st' = "alicia" /\
  ProfilePage.submit ascii_strings st' = (st', []).
Proof.
  intros st st'.
  destruct (proj2 (profile_update_changes_name ascii_strings st) alice eq_refl)
    as (H1 & H2 & _ & H4).
  split; [exact H1|]. split; [exact H2|]. exact (proj2 (H4 eq_refl)).
Defined.

(** ** The lobby *)

Lemma strict_eq_true (a b : Js.ref) : Js.strict_eq a b = true <-> a = b.
Proof.
  destruct a as [| |s], b as [| |t]; simpl; split; intros H;
    try reflexivity; try discriminate H.
  - apply String.eqb_eq in H. congruence.
  - injection H as ->. apply String.eqb_refl.
Qed.

Lemma find_none_filter {A : Type} (f : A -> bool) (l : list A) :
  find f l = None <-> filter (fun x => negb (f x)) l = l.
Proof.
  induction l as [|a l IH]; simpl; [tauto|].
  destruct (f a) eqn:Ea; simpl.
  - split; [discriminate|]. intros H.
    pose proof (filter_length_le (fun x => negb (f x)) l) as Hl.
    rewrite H in Hl. simpl in Hl. lia.
  - rewrite IH. split; [congruence|]. intros H. injection H as H. exact H.
Qed.

(** X4: the lobby splits the waiting games it fetched by creator: the
    available games are exactly the fetched games created by someone else,
    in the fetched order; "my waiting game" is a fetched game created by the
    logged-in player and is never listed as available; and there is no such
    game exactly when every fetched game is available. *)
Theorem lobby_splits_games (st : LobbyPage.page) :
  (forall g, In g (LobbyPage.availableGames st) <->
             In g (LobbyPage.games st) /\
             player_x_id g <> opt_id (LobbyPage.player st)) /\
  (forall g, LobbyPage.myWaitingGame st = Some g ->
             In g (LobbyPage.games st) /\
             player_x_id g = opt_id (LobbyPage.player st) /\
             ~ In g (LobbyPage.availableGames st)) /\
  (LobbyPage.myWaitingGame st = None <->
   LobbyPage.availableGames st = LobbyPage.games st).
Proof.
  split; [|split].
  - intros g. unfold LobbyPage.availableGames. rewrite filter_In.
    split; intros (Hin & H); split; try assumption.
    + intros E. apply strict_eq_true in E. rewrite E in H. discriminate H.
    + destruct (Js.strict_eq _ _) eqn:E; [|reflexivity].
      apply strict_eq_true in E. contradiction.
  - intros g H. unfold LobbyPage.myWaitingGame in H. apply find_some in H.
    destruct H as (Hin & E). pose proof E as E'. apply strict_eq_true in E'.
    repeat split; try assumption.
    unfold LobbyPage.availableGames. rewrite filter_In. intros (_ & C).
    rewrite E in C. discriminate C.
  - apply find_none_filter.
Qed.

Lemma lobby_splits_games_witness :
  let st := LobbyPage.mkPage (Some bob) [waiting_game] false false None in
  LobbyPage.availableGames st = [waiting_game].
Proof.
  intros st.
  exact (proj1 (proj2 (proj2 (lobby_splits_games st))) eq_refl).
Defined.

(** X5: a request issued from the lobby is either a join of a listed game
    that somebody else created, in the logged-in player's name, or the
    creation of an online game, and the latter only while the player has no
    waiting game of their own in the list and no creation is pending.  The
    lobby never asks to join the player's own game. *)
Theorem lobby_requests (st : LobbyPage.page) :
  (forall n r, In (Request r) (snd (LobbyPage.click_join_game n st)) ->
     exists g p,
       nth_error (LobbyPage.availableGames st) n = Some g /\
       In g (LobbyPage.games st) /\
       LobbyPage.player st = Some p /\
       r = Api.joinGame (id g) (player_id p) /\
       player_x_id g <> Js.Str (player_id p)) /\
  (forall r, In (Request r) (snd (LobbyPage.click_create st)) ->
     LobbyPage.myWaitingGame st = None /\
     LobbyPage.creating st = false /\
     exists p, LobbyPage.player st = Some p /\
               r = ApiRest.createGame online (player_id p)).
Proof.
  split.
  - intros n r H. unfold LobbyPage.click_join_game in H.
    destruct (nth_error (LobbyPage.availableGames st) n) as [g|] eqn:En;
      [|destruct H].
    assert (Hg : In g (LobbyPage.availableGames st)) by (eapply nth_error_In; eauto).
    apply (proj1 (lobby_splits_games st)) in Hg. destruct Hg as (Hin & Hne).
    assert (Hj : In (Request r) (snd (LobbyPage.handleJoinGame (id g) st))).
    { destruct (LobbyPage.joining st) as [j|]; [|exact H].
      destruct (String.eqb j (id g)); [destruct H | exact H]. }
    unfold LobbyPage.handleJoinGame in Hj.
    destruct (LobbyPage.player st) as [p|] eqn:Ep; [|destruct Hj].
    destruct Hj as [Hj|[]]. injection Hj as <-.
    exists g, p. repeat split; try reflexivity; assumption.
  - intros r H. unfold LobbyPage.click_create in H.
    destruct (LobbyPage.myWaitingGame st); [destruct H|].
    destruct (LobbyPage.creating st); [destruct H|].
    unfold LobbyPage.handleCreateGame in H.
    destruct (LobbyPage.player st) as [p|]; [|destruct H].
    destruct H as [H|[]]. injection H as <-.
    repeat split. exists p. split; reflexivity.
Qed.

Lemma lobby_requests_witness :
  let st := LobbyPage.mkPage (Some bob) [waiting_game] false false None in
  exists g p, nth_error (LobbyPage.availableGames st) 0 = Some g /\
              In g (LobbyPage.games st) /\
              LobbyPage.player st = Some p /\
              Api.joinGame "g2" "p-bob" = Api.joinGame (id g) (player_id p) /\
              player_x_id g <> Js.Str (player_id p).
Proof.
  intros st.
  exact (proj1 (lobby_requests st) 0%nat (Api.joinGame "g2" "p-bob") (or_introl eq_refl)).
Defined.

(** ** The match history *)

(** The labels of the three results. *)
Lemma result_labels :
  HistoryPage.getResultLabel "win" = "Victory" /\
  HistoryPage.getResultLabel "loss" = "Defeat" /\
  HistoryPage.getResultLabel "draw" = "Draw".
Proof. repeat split. Qed.

(** X6: in the match history a drawn game is a "Draw" for whoever looks at
    it; a game with a winner is a "Victory" for exactly one of player X and
    a viewer who is not player X, and a "Defeat" for the other; a game with
    neither draw flag nor winner is a "Defeat" for everyone. *)
Theorem history_result_per_viewer (g : Game) :
  (is_draw (state g) = true ->
     forall v, HistoryPage.getResultLabel (HistoryPage.getGameResult v g) = "Draw") /\
  (is_draw (state g) = false ->
     forall a b m,
       opt_id a = player_x_id g -> opt_id b <> player_x_id g ->
       winner (state g) = Some m ->
       (m = MarkX /\
        HistoryPage.getResultLabel (HistoryPage.getGameResult a g) = "Victory" /\
        HistoryPage.getResultLabel (HistoryPage.getGameResult b g) = "Defeat") \/
       (m = MarkO /\
        HistoryPage.getResultLabel (HistoryPage.getGameResult a g) = "Defeat" /\
        HistoryPage.getResultLabel (HistoryPage.getGameResult b g) = "Victory")) /\
  (is_draw (state g) = false -> winner (state g) = None ->
     forall v, HistoryPage.getResultLabel (HistoryPage.getGameResult v g) = "Defeat").
Proof.
  unfold HistoryPage.getGameResult. split; [|split].
  - intros Hd v. rewrite Hd. reflexivity.
  - intros Hd a b m Ha Hb Hw. rewrite Hd, Hw.
    assert (Ea : Js.strict_eq (opt_id a) (player_x_id g) = true)
      by (apply strict_eq_true; exact Ha).
    assert (Eb : Js.strict_eq (opt_id b) (player_x_id g) = false).
    { destruct (Js.strict_eq (opt_id b) (player_x_id g)) eqn:E; [|reflexivity].
      apply strict_eq_true in E. contradiction. }
    rewrite Ea, Eb. destruct m; [left | right]; repeat split.
  - intros Hd Hw v. rewrite Hd, Hw. reflexivity.
Qed.

Lemma history_result_per_viewer_witness :
  HistoryPage.getResultLabel (HistoryPage.getGameResult (Some alice) finished_game)
    = "Victory" /\
  HistoryPage.getResultLabel (HistoryPage.getGameResult (Some bob) finished_game)
    = "Defeat".
Proof.
  destruct (proj1 (proj2 (history_result_per_viewer finished_game)) eq_refl
              (Some alice) (Some bob) MarkX eq_refl ltac:(discriminate) eq_refl)
    as [(_ & Ha & Hb)|(C & _)]; [split; assumption | discriminate C].
Defined.

(** ** The game page: whose turn, pending moves, other messages, rematch *)

(** X7: in an online game in progress, with nothing pending, the status
    line reads "Your Turn" exactly when a click of the logged-in player on
    an empty cell is submitted as a move; otherwise it names the player
    whose mark is to move and the click does nothing.  Of player X and a
    viewer who is not player X, exactly one is told "Your Turn". *)
Theorem your_turn_matches_click (st : GamePage.page) (g : Game) (p : Player) (i : Z) :
  GamePage.game st = Some g -> GamePage.player st = Some p ->
  status g = in_progress -> mode g = online ->
  GamePage.loading st = false -> GamePage.actionLoading st = false ->
  index (board (state g)) i = Some None ->
  (GamePage.isMyTurn st g = true ->
     GameStatus.render (status_props st g)
       = GameStatus.GameStatusTurn true "Your Turn"
           (MoveHistory.show_mark (current_turn (state g))) /\
     GamePage.click_cell i st
       = (GamePage.setActionLoading true st,
          [Request (Api.makeMove (GamePage.gameId st) (player_id p) i)])) /\
  (GamePage.isMyTurn st g = false ->
     GameStatus.render (status_props st g)
       = GameStatus.GameStatusTurn false
           (match current_turn (state g) with
            | MarkX => player_x_username g
            | MarkO => Js.template (player_o_username g)
            end ++ "'s Turn")
           (MoveHistory.show_mark (current_turn (state g))) /\
     GamePage.click_cell i st = (st, [])) /\
  (forall st2,
     GamePage.isPlayerX st g = negb (GamePage.isPlayerX st2 g) ->
     GamePage.isMyTurn st g = negb (GamePage.isMyTurn st2 g)).
Proof.
  intros Hg Hp Hs Hm Hl Ha Hi.
  assert (Hr : forall b, GamePage.isMyTurn st g = b ->
     GameStatus.render (status_props st g)
       = GameStatus.GameStatusTurn b
           (if b then "Your Turn"
            else match current_turn (state g) with
                 | MarkX => player_x_username g
                 | MarkO => Js.template (player_o_username g)
                 end ++ "'s Turn")
           (MoveHistory.show_mark (current_turn (state g)))).
  { intros b Hb. unfold GameStatus.render, status_props. simpl. rewrite Hs.
    change (GameStatus.isMyTurn _) with (GamePage.isMyTurn st g).
    rewrite Hb. reflexivity. }
  assert (Hc : GamePage.click_cell i st = GamePage.handleCellClick i st).
  { unfold GamePage.click_cell, GameBoard.click. rewrite Hl, Hg, Hi.
    unfold GamePage.board_disabled. rewrite Hs, Ha. reflexivity. }
  rewrite Hc, (handleCellClick_submits st g p i Hg Hp), Hs, Hm, Ha. simpl.
  split; [|split].
  - intros Hb. rewrite (Hr true Hb), Hb. split; reflexivity.
  - intros Hb. rewrite (Hr false Hb), Hb. split; reflexivity.
  - intros st2 Hx. unfold GamePage.isMyTurn. rewrite Hx.
    destruct (current_turn (state g)); [reflexivity | rewrite negb_involutive; reflexivity].
Qed.

Lemma your_turn_matches_click_witness :
  let st := GamePage.mkPage "g1" (Some bob) (Some game_after_centre) false false in
  GamePage.click_cell 0 st
  = (GamePage.setActionLoading true st, [Request (Api.makeMove "g1" "p-bob" 0)]).
Proof.
  intros st.
  exact (proj2 (proj1 (your_turn_matches_click st game_after_centre bob 0
                         eq_refl eq_refl eq_refl eq_refl eq_refl eq_refl eq_refl)
                      eq_refl)).
Defined.

(** X8: once a click has issued a move request, the page holds the same
    game with the action marked pending, and until the request settles no
    click on any cell issues anything; when the request resolves the held
    game is the one returned and nothing is pending; when it is rejected the
    held game is the one from before, nothing is pending, and the server's
    detail (or "Failed to make move") is shown. *)
Theorem one_move_request_at_a_time (st : GamePage.page) (i : Z) (r : Api.request) :
  In (Request r) (snd (GamePage.click_cell i st)) ->
  let st1 := fst (GamePage.click_cell i st) in
  GamePage.actionLoading st1 = true /\
  GamePage.game st1 = GamePage.game st /\
  (forall j, GamePage.click_cell j st1 = (st1, []) /\
             GamePage.handleCellClick j st1 = (st1, [])) /\
  (forall updated,
     let st2 := fst (GamePage.move_resolved updated st1) in
     GamePage.game st2 = Some updated /\ GamePage.actionLoading st2 = false) /\
  (forall detail,
     let st2 := fst (GamePage.move_rejected detail st1) in
     GamePage.game st2 = GamePage.game st /\ GamePage.actionLoading st2 = false /\
     exists msg, snd (GamePage.move_rejected detail st1) = [Toast TError msg] /\
                 msg <> EmptyString).
Proof.
  intros H st1.
  assert (E : st1 = GamePage.setActionLoading true st /\
              exists g, GamePage.game st = Some g /\ status g = in_progress).
  { unfold st1. unfold GamePage.click_cell, GameBoard.click in *.
    destruct (GamePage.loading st); [destruct H|].
    destruct (GamePage.game st) as [g|] eqn:Eg; [|destruct H].
    destruct (index (board (state g)) i) as [cell|]; [|destruct H].
    destruct (GameBoard.cell_disabled _ cell); [destruct H|].
    unfold GamePage.handleCellClick in *. rewrite Eg in *.
    destruct (status g) eqn:Es; try destruct H.
    destruct (GamePage.actionLoading st); [destruct H|].
    destruct (_ || _); [|destruct H].
    destruct (GamePage.player st); simpl in *.
    - split; [reflexivity | eauto].
    - destruct H as [H|[]]; discriminate H. }
  destruct E as (E & g & Hg & Hs). rewrite E.
  split; [reflexivity|]. split; [reflexivity|]. split; [|split].
  - intros j. split.
    + unfold GamePage.click_cell, GameBoard.click; simpl. rewrite Hg.
      destruct (GamePage.loading st); [reflexivity|].
      destruct (index (board (state g)) j); [|reflexivity].
      unfold GamePage.board_disabled. rewrite Hs. reflexivity.
    + unfold GamePage.handleCellClick; simpl. rewrite Hg, Hs. reflexivity.
  - intros updated. split; reflexivity.
  - intros detail. split; [reflexivity|]. split; [reflexivity|].
    unfold GamePage.move_rejected; simpl.
    destruct detail as [d|]; [|eexists; split; [reflexivity | discriminate]].
    destruct (String.eqb_spec d EmptyString);
      eexists; (split; [reflexivity|]); [discriminate | assumption].
Qed.

Lemma one_move_request_at_a_time_witness :
  let st := GamePage.mkPage "g1" (Some bob) (Some game_after_centre) false false in
  GamePage.actionLoading (fst (GamePage.click_cell 0 st)) = true.
Proof.
  intros st.
  exact (proj1 (one_move_request_at_a_time st 0 (Api.makeMove "g1" "p-bob" 0)
                  (or_introl eq_refl))).
Defined.

(** X9: a surfaced message whose type is none of [game_update],
    [connected], [player_joined], [player_disconnected] and
    [rematch_created] (a message without a type and a payload that is not an
    object included) changes nothing on the game page and has no effect. *)
Theorem other_push_messages_ignored (st : GamePage.page) (data : Push.json) :
  (forall t, In t ["game_update"; "connected"; "player_joined";
                   "player_disconnected"; "rematch_created"] ->
             Push.get_type data <> Some (Js.Str t)) ->
  GamePage.on_lastMessage (Some data) st = (st, []).
Proof.
  intros H. unfold GamePage.on_lastMessage.
  destruct (Push.truthy data); [|reflexivity].
  destruct (Push.get_type data) as [t|] eqn:Et; [|reflexivity].
  assert (Hn : forall s, In s ["game_update"; "connected"; "player_joined";
                               "player_disconnected"; "rematch_created"] ->
                         Js.strict_eq t (Js.Str s) = false).
  { intros s Hs. destruct (Js.strict_eq t (Js.Str s)) eqn:E; [|reflexivity].
    apply strict_eq_true in E. subst t. exfalso. exact (H s Hs eq_refl). }
  rewrite !Hn by (simpl; tauto). reflexivity.
Qed.

Lemma other_push_messages_ignored_witness :
  let st := GamePage.mkPage "g1" (Some bob) (Some game_after_centre) false false in
  GamePage.on_lastMessage
    (Some (Push.JObj (Push.mkMessage (Js.Str "chat") None Js.Undefined))) st
  = (st, []).
Proof.
  intros st. apply other_push_messages_ignored.
  intros t Ht E. simpl in Ht.
  destruct Ht as [<-|[<-|[<-|[<-|[<-|[]]]]]]; discriminate E.
Defined.

(** X10: a rematch request leaves the game page only through the Rematch
    button of a completed game with nothing pending, and carries the page's
    game id, the logged-in player's id and the mode of the finished game;
    when it resolves the page holds no game any more (so the hook is handed a
    null game id and cell or rematch clicks do nothing) and navigates to the
    new game after 100 ms. *)
Theorem rematch_flow (st : GamePage.page) :
  (forall r, In (Request r) (snd (GamePageActions.click_rematch st)) ->
     exists g p,
       GamePage.game st = Some g /\ GamePage.player st = Some p /\
       status g = completed /\ GamePage.actionLoading st = false /\
       r = ApiRest.requestRematch (GamePage.gameId st) (player_id p) (mode g)) /\
  (forall newGame,
     let st' := fst (GamePageActions.rematch_resolved newGame st) in
     GamePage.game st' = None /\ GamePage.actionLoading st' = false /\
     GamePage.hook_gameId st' = Js.Null /\
     (forall i, GamePage.click_cell i st' = (st', [])) /\
     GamePageActions.click_rematch st' = (st', []) /\
     snd (GamePageActions.rematch_resolved newGame st)
       = [GamePageActions.After 100 (Navigate ("/game/" ++ id newGame))]).
Proof.
  split.
  - intros r H. unfold GamePageActions.click_rematch in H.
    destruct (GamePage.loading st); [destruct H|].
    destruct (GamePage.game st) as [g|] eqn:Eg; [|destruct H].
    destruct (status g) eqn:Es; try destruct H.
    destruct (GamePage.actionLoading st) eqn:Ea; [destruct H|].
    unfold GamePageActions.handleRematch in H. rewrite Eg in H.
    destruct (GamePage.player st) as [p|] eqn:Ep; [|destruct H].
    destruct H as [H|[]]. injection H as <-.
    exists g, p. repeat split; assumption.
  - intros newGame st'. unfold st'; simpl.
    split; [reflexivity|]. split; [reflexivity|]. split; [reflexivity|].
    split; [|split; [|reflexivity]].
    + intros i. unfold GamePage.click_cell; simpl.
      destruct (GamePage.loading st); reflexivity.
    + unfold GamePageActions.click_rematch; simpl.
      destruct (GamePage.loading st); reflexivity.
Qed.

Lemma rematch_flow_witness :
  let st := GamePage.mkPage "g4" (Some bob) (Some finished_game) false false in
  exists g p,
    GamePage.game st = Some g /\ GamePage.player st = Some p /\
    status g = completed /\ GamePage.actionLoading st = false /\
    ApiRest.requestRematch "g4" "p-bob" online
      = ApiRest.requestRematch (GamePage.gameId st) (player_id p) (mode g).
Proof.
  intros st.
  exact (proj1 (rematch_flow st) (ApiRest.requestRematch "g4" "p-bob" online)
               (or_introl eq_refl)).
Defined.

(** ** The replay page: playback, stepping, random access *)

Lemma perform_all_snoc (st : ReplayPage.page) (os : list ReplayPage.operation)
      (o : ReplayPage.operation) :
  ReplayPage.perform_all st (os ++ [o])%list
  = ReplayPage.perform (ReplayPage.perform_all st os) o.
Proof. unfold ReplayPage.perform_all. rewrite fold_left_app. reflexivity. Qed.

(** Runs the replay page's state updates on a state written out as a
    record, leaving the arithmetic alone. *)
Ltac replay_compute :=
  cbv beta iota zeta delta
    [ReplayPage.perform_all ReplayPage.perform ReplayPage.stop_at_end ReplayPage.tick
     ReplayPage.after_render
     ReplayPage.call ReplayPage.controls_props ReplayPage.loaded ReplayPage.mounted
     ReplayPage.handlePlay ReplayPage.handlePause ReplayPage.handleStepBack
     ReplayPage.handleStepForward ReplayPage.handleGoToStart ReplayPage.handleGoToEnd
     ReplayPage.handleSeek ReplayPage.handleSpeedChange ReplayPage.handleMoveClick
     ReplayPage.setIsPlaying ReplayPage.setCurrentMoveIndex ReplayPage.setPlaybackSpeed
     ReplayPage.total_or_0
     ReplayPage.replayData ReplayPage.loading ReplayPage.currentMoveIndex
     ReplayPage.isPlaying ReplayPage.playbackSpeed
     ReplayControls.operate ReplayControls.currentMove ReplayControls.totalMoves
     ReplayControls.isPlaying ReplayControls.playbackSpeed
     fold_left].

Lemma playback_state (d : ReplayData) (k : nat) :
  0 <= total_moves d ->
  ReplayPage.perform_all (ReplayPage.loaded ReplayPage.mounted d)
    (ReplayPage.Control ReplayControls.PlayPauseBtn :: repeat ReplayPage.PlayTick k)
  = ReplayPage.mkPage (Some d) false (Z.min (Z.of_nat k) (total_moves d))
                      ((Z.of_nat k =? 0) || (Z.of_nat k <? total_moves d)) Speed1.
Proof.
  intros Ht. induction k as [|k IH].
  - cbn [repeat]. rewrite loaded_mounted. replay_compute.
    change (Z.of_nat 0) with 0. rewrite Z.eqb_refl, Z.min_l by lia. reflexivity.
  - cbn [repeat]. rewrite (repeat_cons k), app_comm_cons, perform_all_snoc, IH.
    rewrite Nat2Z.inj_succ. unfold Z.succ.
    destruct (Z.eqb_spec (Z.of_nat k + 1) 0) as [E|_]; [lia|]. cbn [orb].
    destruct (Z.ltb_spec (Z.of_nat k) (total_moves d)) as [Hk|Hk].
    + rewrite orb_true_r, Z.min_l by lia. replay_compute.
      destruct (Z.geb_spec (Z.of_nat k) (total_moves d)); [lia|].
      replay_compute.
      destruct (Z.eqb_spec (Z.of_nat k + 1) (Z.of_nat k)); [lia|].
      rewrite Z.min_l by lia.
      destruct (Z.geb_spec (Z.of_nat k + 1) (total_moves d));
        destruct (Z.ltb_spec (Z.of_nat k + 1) (total_moves d)); try lia; reflexivity.
    + rewrite orb_false_r, !Z.min_r by lia.
      destruct (Z.ltb_spec (Z.of_nat k + 1) (total_moves d)); [lia|].
      destruct (Z.of_nat k =? 0); replay_compute.
      * destruct (Z.geb_spec (total_moves d) (total_moves d)); [|lia].
        replay_compute. rewrite Z.eqb_refl. reflexivity.
      * rewrite Z.eqb_refl. reflexivity.
Qed.

(** X11: pressing Play on a freshly loaded replay and letting the playback
    interval fire [k] times shows index [min(k, total_moves)]; after Play
    the page is playing, and after a tick it is still playing exactly while
    the index is short of [total_moves], so playback stops by itself once
    the last snapshot is reached and further ticks change nothing (on a
    replay with no moves Play starts playback and the first tick stops
    it).  Pressing Play again at the last index starts playback once more,
    and the next tick stops it without moving. *)
Theorem playback_runs_to_end (d : ReplayData) (k : nat) :
  0 <= total_moves d ->
  let play := ReplayPage.Control ReplayControls.PlayPauseBtn in
  let st := ReplayPage.perform_all (ReplayPage.loaded ReplayPage.mounted d)
              (play :: repeat ReplayPage.PlayTick k) in
  ReplayPage.currentMoveIndex st = Z.min (Z.of_nat k) (total_moves d) /\
  ReplayPage.isPlaying st = ((Z.of_nat k =? 0) || (Z.of_nat k <? total_moves d)) /\
  (0 < Z.of_nat k -> total_moves d <= Z.of_nat k ->
     ReplayPage.isPlaying st = false /\
     ReplayPage.perform st ReplayPage.PlayTick = st /\
     ReplayPage.isPlaying (ReplayPage.perform st play) = true /\
     ReplayPage.currentMoveIndex (ReplayPage.perform st play) = total_moves d /\
     ReplayPage.perform (ReplayPage.perform st play) ReplayPage.PlayTick = st).
Proof.
  intros Ht play st. unfold st, play. rewrite playback_state by exact Ht.
  split; [reflexivity|]. split; [reflexivity|].
  intros Hk0 Hk.
  destruct (Z.eqb_spec (Z.of_nat k) 0) as [E|_]; [lia|].
  destruct (Z.ltb_spec (Z.of_nat k) (total_moves d)); [lia|].
  rewrite Z.min_r by lia. cbn [orb].
  replay_compute. rewrite ?Z.eqb_refl.
  split; [reflexivity|]. split; [reflexivity|].
  split; [reflexivity|]. split; [reflexivity|].
  destruct (Z.geb_spec (total_moves d) (total_moves d)); [|lia].
  replay_compute. rewrite Z.eqb_refl. reflexivity.
Qed.

Lemma playback_runs_to_end_witness :
  let play := ReplayPage.Control ReplayControls.PlayPauseBtn in
  let st := ReplayPage.perform_all
              (ReplayPage.loaded ReplayPage.mounted (payload_of finished_game))
              (play :: repeat ReplayPage.PlayTick 7) in
  ReplayPage.currentMoveIndex st = 5 /\ ReplayPage.isPlaying st = false /\
  ReplayPage.isPlaying (ReplayPage.perform st play) = true.
Proof.
  intros play st.
  destruct (playback_runs_to_end (payload_of finished_game) 7 ltac:(vm_compute; discriminate))
    as (H1 & _ & H3).
  destruct (H3 ltac:(vm_compute; reflexivity) ltac:(vm_compute; discriminate))
    as (H4 & _ & H5 & _).
  split; [exact H1|]. split; [exact H4 | exact H5].
Defined.






Lemma move_entries_active (ms : list Move) (cur : Z) :
  forall (i : Z) (k : nat) (e : MoveHistory.entry),
    nth_error (MoveHistory.move_entries i ms cur) k = Some e ->
    MoveHistory.active e = (cur =? i + Z.of_nat k + 1).
Proof.
  induction ms as [|m ms IH]; intros i k e H.
  - destruct k; discriminate H.
  - destruct k as [|k]; simpl in H.
    + injection H as <-. simpl. f_equal. lia.
    + apply IH in H. rewrite H. f_equal. lia.
Qed.

Lemma entries_nth (ms : list Move) (cur : Z) (k : nat) (e : MoveHistory.entry) :
  nth_error (MoveHistory.entries ms cur) k = Some e ->
  MoveHistory.click e = Z.of_nat k /\ MoveHistory.active e = (cur =? Z.of_nat k).
Proof.
  unfold MoveHistory.entries. destruct k as [|k]; simpl nth_error; intros H.
  - injection H as <-. split; reflexivity.
  - split.
    + apply move_entries_nth in H. lia.
    + apply move_entries_active in H. rewrite H. f_equal. lia.
Qed.

Lemma entries_length (ms : list Move) (cur : Z) :
  List.length (MoveHistory.entries ms cur) = S (List.length ms).
Proof. unfold MoveHistory.entries. simpl. rewrite move_entries_length. reflexivity. Qed.

(** X13: on a loaded replay every index [v] from 0 to [total_moves] can be
    reached at once, by moving the slider to [v] or by clicking the [v]-th
    entry of the move history, with the same result: playback is paused, the
    board of snapshot [v] is shown with that snapshot's move highlighted, the
    result banner and the winning line appear only for [v = total_moves], and
    in the move history exactly the [v]-th entry is marked active. *)
Theorem replay_random_access (d : ReplayData) (st : ReplayPage.page) (v : Z) :
  well_formed d -> in_range d st -> 0 <= v <= total_moves d ->
  let st' := ReplayPage.perform st (ReplayPage.Control (ReplayControls.SliderTo v)) in
  ReplayPage.perform st (ReplayPage.HistoryClick (Z.to_nat v)) = st' /\
  ReplayPage.currentMoveIndex st' = v /\
  ReplayPage.isPlaying st' = false /\
  exists snap s,
    index (snapshots d) v = Some snap /\
    ReplayPage.render st' = ReplayPage.Shown s /\
    ReplayPage.shown_board s = snap_board snap /\
    ReplayPage.highlightedMove s = option_map position (snap_move snap) /\
    ReplayPage.shown_banner s
      = (if v =? total_moves d then Some (ReplayPage.result_banner (game d)) else None) /\
    ReplayPage.shown_winningLine s
      = (if v =? total_moves d then winning_line (state (game d)) else None) /\
    forall k e, nth_error (ReplayPage.history s) k = Some e ->
                (MoveHistory.active e = true <-> Z.of_nat k = v).
Proof.
  intros (Ht & Hs) (Hd & Hl & Hi) Hv st'.
  destruct st as [rd ld idx playing speed].
  cbn [ReplayPage.replayData ReplayPage.loading ReplayPage.currentMoveIndex] in *.
  subst rd ld.
  assert (E' : st' = ReplayPage.mkPage (Some d) false v false speed).
  { unfold st'. replay_compute.
    destruct (Z.leb_spec 0 v); [|lia]. destruct (Z.leb_spec v (total_moves d)); [|lia].
    cbn [andb]. replay_compute.
    destruct (v =? idx); [reflexivity|].
    destruct (v >=? total_moves d); reflexivity. }
  rewrite E'. clear E' st'.
  split; [|split; [reflexivity|split; [reflexivity|]]].
  - unfold ReplayPage.perform.
    cbn [ReplayPage.replayData ReplayPage.loading ReplayPage.currentMoveIndex].
    destruct (nth_error (MoveHistory.entries (moves (game d)) idx) (Z.to_nat v))
      as [e|] eqn:Ee.
    + apply entries_nth in Ee. destruct Ee as (Ec & _). rewrite Ec, Z2Nat.id by lia.
      replay_compute.
      destruct (v =? idx); [reflexivity|].
      destruct (v >=? total_moves d); reflexivity.
    + apply nth_error_None in Ee. rewrite entries_length in Ee. lia.
  - destruct (index_in_bounds (snapshots d) v) as (snap & Hsnap); [rewrite Hs; lia|].
    unfold ReplayPage.render.
    cbn [ReplayPage.replayData ReplayPage.loading ReplayPage.currentMoveIndex].
    rewrite Hsnap. eexists; eexists. split; [reflexivity|]. split; [reflexivity|].
    cbn [ReplayPage.shown_board ReplayPage.highlightedMove ReplayPage.shown_banner
         ReplayPage.shown_winningLine ReplayPage.history].
    repeat (split; [reflexivity|]).
    intros k e He. apply entries_nth in He. destruct He as (_ & ->).
    rewrite Z.eqb_eq. split; congruence.
Qed.

Lemma replay_random_access_witness :
  let d := payload_of finished_game in
  let st := ReplayPage.loaded ReplayPage.mounted d in
  ReplayPage.perform st (ReplayPage.HistoryClick 3)
  = ReplayPage.perform st (ReplayPage.Control (ReplayControls.SliderTo 3)).
Proof.
  intros d st.
  assert (Hwf : well_formed d) by (split; reflexivity).
  assert (Hr : in_range d st) by (repeat split; vm_compute; discriminate).
  exact (proj1 (replay_random_access d st 3 Hwf Hr ltac:(vm_compute; split; discriminate))).
Defined.

(** ** The hook: disconnecting, reconnecting, sending *)

Section MoreLifecycleFacts.

Variables (backend : string) (ok : string -> bool) (gameId playerId : Js.ref).
Hypothesis game_given : Js.truthy gameId = true.
Hypothesis player_given : Js.truthy playerId = true.
Hypothesis url_accepted : ok (wsUrl backend gameId playerId) = true.

Lemma disconnect_state (n : nat) :
  WebSocketHook.disconnect (while_open backend ok gameId playerId n)
  = after_disconnect backend ok gameId playerId n 0.
Proof.
  unfold while_open, after_disconnect, WebSocketHook.disconnect. hook_compute.
  rewrite Z.add_0_r. reflexivity.
Qed.

Lemma tick_after_disconnect (n m : nat) :
  WebSocketHook.tick (after_disconnect backend ok gameId playerId n m)
  = after_disconnect backend ok gameId playerId n (S m).
Proof.
  unfold after_disconnect, WebSocketHook.tick. hook_compute.
  rewrite Nat2Z.inj_succ. unfold Z.succ. rewrite Z.add_assoc. reflexivity.
Qed.

Lemma elapse_after_disconnect (n m : nat) :
  WebSocketHook.elapse m (after_disconnect backend ok gameId playerId n 0)
  = after_disconnect backend ok gameId playerId n m.
Proof.
  induction m as [|m IH]; [reflexivity|].
  rewrite elapse_tick, IH. apply tick_after_disconnect.
Qed.

Lemma late_close_state (n m : nat) :
  WebSocketHook.handle gameId playerId (after_disconnect backend ok gameId playerId n m)
                       (WebSocketHook.SocketClose 0)
  = after_late_close backend ok gameId playerId n m 0.
Proof.
  unfold after_disconnect, after_late_close. hook_compute.
  rewrite Z.add_0_r. reflexivity.
Qed.

Lemma tick_after_late_close (n m k : nat) :
  WebSocketHook.tick (after_late_close backend ok gameId playerId n m k)
  = after_late_close backend ok gameId playerId n m (S k).
Proof.
  unfold after_late_close, WebSocketHook.tick.
  rewrite Nat2Z.inj_succ. unfold Z.succ.
  destruct (Z.ltb_spec (Z.of_nat k) 2000) as [H1|H1];
    destruct (Z.ltb_spec (Z.of_nat k + 1) 2000) as [H2|H2]; try lia;
    hook_compute.
  - destruct (Z.eqb_spec (Z.of_nat n + Z.of_nat m + 2000)
                         (Z.of_nat n + Z.of_nat m + Z.of_nat k + 1)); [lia|].
    hook_compute. rewrite Z.add_assoc. reflexivity.
  - destruct (Z.eqb_spec (Z.of_nat n + Z.of_nat m + 2000)
                         (Z.of_nat n + Z.of_nat m + Z.of_nat k + 1)); [|lia].
    hook_compute. rewrite game_given, player_given.
    unfold WebSocketHook.connect. rewrite game_given, player_given.
    hook_compute. fold (wsUrl backend gameId playerId). rewrite url_accepted.
    rewrite Z.add_assoc. reflexivity.
  - rewrite Z.add_assoc. reflexivity.
Qed.

Lemma elapse_after_late_close (n m k : nat) :
  WebSocketHook.elapse k (after_late_close backend ok gameId playerId n m 0)
  = after_late_close backend ok gameId playerId n m k.
Proof.
  induction k as [|k IH]; [reflexivity|].
  rewrite elapse_tick, IH. apply tick_after_late_close.
Qed.




End MoreLifecycleFacts.

(** X14: when the hook disconnects an open connection it is at once not
    connected, holds no current socket and no pending timer, and the socket
    is closing; no ping is sent and no socket is created however long one
    waits.  But once the browser reports that socket closed, its [onclose]
    handler schedules a reconnect all the same: 2 000 ms later a new socket
    for the same game and player is the current one. *)
Theorem disconnect_then_close_reconnects (backend : string) (ok : string -> bool)
        (gameId playerId : Js.ref) (n m k : nat) :
  Js.truthy gameId = true -> Js.truthy playerId = true ->
  ok (Api.getWebSocketUrl backend gameId playerId) = true ->
  let url := Api.getWebSocketUrl backend gameId playerId in
  let disconnected :=
    WebSocketHook.run gameId playerId (WebSocketHook.initial backend ok)
      [WebSocketHook.Connect; WebSocketHook.SocketOpen 0; WebSocketHook.Elapse n;
       WebSocketHook.Disconnect; WebSocketHook.Elapse m] in
  let h := WebSocketHook.elapse k
             (WebSocketHook.handle gameId playerId disconnected
                                   (WebSocketHook.SocketClose 0)) in
  (WebSocketHook.isConnected disconnected = false /\
   WebSocketHook.wsRef disconnected = None /\
   WebSocketHook.timers disconnected = [] /\
   map (fun s => (WebSocketHook.readyState s, WebSocketHook.sent s))
       (WebSocketHook.sockets disconnected)
     = [(WebSocketHook.CLOSING,
         repeat WebSocketHook.ping (Z.to_nat (Z.of_nat n / 30000)))]) /\
  (Z.of_nat k < 2000 ->
     WebSocketHook.wsRef h = None /\
     map WebSocketHook.readyState (WebSocketHook.sockets h) = [WebSocketHook.CLOSED]) /\
  (2000 <= Z.of_nat k ->
     WebSocketHook.wsRef h = Some 1%nat /\
     map (fun s => (WebSocketHook.url s, WebSocketHook.readyState s))
         (WebSocketHook.sockets h)
       = [(url, WebSocketHook.CLOSED); (url, WebSocketHook.CONNECTING)]).
Proof.
  intros Hg Hp Hok url disconnected h.
  assert (Ed : disconnected = after_disconnect backend ok gameId playerId n m).
  { unfold disconnected.
    change (WebSocketHook.run gameId playerId (WebSocketHook.initial backend ok)
              [WebSocketHook.Connect; WebSocketHook.SocketOpen 0; WebSocketHook.Elapse n;
               WebSocketHook.Disconnect; WebSocketHook.Elapse m])
      with (WebSocketHook.elapse m
              (WebSocketHook.disconnect
                 (WebSocketHook.elapse n
                    (WebSocketHook.run gameId playerId (WebSocketHook.initial backend ok)
                       [WebSocketHook.Connect; WebSocketHook.SocketOpen 0])))).
    rewrite opened_state, elapse_while_open, disconnect_state by assumption.
    apply elapse_after_disconnect. }
  assert (Eh : h = after_late_close backend ok gameId playerId n m k).
  { unfold h. rewrite Ed, late_close_state. apply elapse_after_late_close; assumption. }
  rewrite Ed, Eh. unfold after_disconnect, after_late_close.
  split; [repeat split|].
  destruct (Z.ltb_spec (Z.of_nat k) 2000); split; intros; try lia; split; reflexivity.
Qed.

Lemma disconnect_then_close_reconnects_witness :
  let h := WebSocketHook.run (Js.Str "g1") (Js.Str "p-alice")
             (WebSocketHook.initial "http://localhost:8080" (fun _ => true))
             [WebSocketHook.Connect; WebSocketHook.SocketOpen 0; WebSocketHook.Elapse 5;
              WebSocketHook.Disconnect; WebSocketHook.Elapse 7] in
  WebSocketHook.isConnected h = false /\ WebSocketHook.wsRef h = None.
Proof.
  intros h.
  destruct (disconnect_then_close_reconnects "http://localhost:8080" (fun _ => true)
              (Js.Str "g1") (Js.Str "p-alice") 5 7 0 eq_refl eq_refl eq_refl)
    as ((H1 & H2 & _) & _).
  split; [exact H1 | exact H2].
Defined.



(** X16: [sendMove] writes to the current socket only while it is open: on
    an open connection the move message is appended after what was sent
    before and nothing else changes; while the socket is still connecting, or
    after the connection closed, the call changes nothing at all: the move
    is dropped, not queued. *)
Theorem sendMove_only_when_open (backend : string) (ok : string -> bool)
        (gameId playerId : Js.ref) (n m : nat) (position : Z) :
  Js.truthy gameId = true -> Js.truthy playerId = true ->
  ok (Api.getWebSocketUrl backend gameId playerId) = true ->
  let start := WebSocketHook.initial backend ok in
  let connecting := WebSocketHook.run gameId playerId start [WebSocketHook.Connect] in
  let opened := WebSocketHook.run gameId playerId start
                  [WebSocketHook.Connect; WebSocketHook.SocketOpen 0;
                   WebSocketHook.Elapse n] in
  let closed := WebSocketHook.run gameId playerId start
                  [WebSocketHook.Connect; WebSocketHook.SocketOpen 0;
                   WebSocketHook.Elapse n; WebSocketHook.SocketClose 0;
                   WebSocketHook.Elapse m] in
  let message := "{" ++ WebSocketHook.quoted "type" ++ ":" ++ WebSocketHook.quoted "move"
                 ++ "," ++ WebSocketHook.quoted "position" ++ ":" ++ Js.show position
                 ++ "}" in
  WebSocketHook.sendMove position connecting = connecting /\
  WebSocketHook.sendMove position closed = closed /\
  WebSocketHook.sendMove position opened
    = WebSocketHook.set_sockets
        [WebSocketHook.mkSocket (Api.getWebSocketUrl backend gameId playerId)
           WebSocketHook.OPEN
           (repeat WebSocketHook.ping (Z.to_nat (Z.of_nat n / 30000)) ++ [message])%list
           gameId playerId]
        opened.
Proof.
  intros Hg Hp Hok start connecting opened closed message.
  assert (Ec : connecting =
    WebSocketHook.mkHook false None None (Some 0%nat) None None
      [WebSocketHook.mkSocket (wsUrl backend gameId playerId) WebSocketHook.CONNECTING
                              [] gameId playerId]
      [] 0 1 [] backend ok).
  { unfold connecting, start, WebSocketHook.run. cbn [fold_left WebSocketHook.handle].
    unfold WebSocketHook.connect. rewrite Hg, Hp.
    cbn -[Api.getWebSocketUrl]. rewrite Hok. reflexivity. }
  assert (Eo : opened = while_open backend ok gameId playerId n).
  { unfold opened, start.
    change (WebSocketHook.run gameId playerId (WebSocketHook.initial backend ok)
              [WebSocketHook.Connect; WebSocketHook.SocketOpen 0; WebSocketHook.Elapse n])
      with (WebSocketHook.elapse n
              (WebSocketHook.run gameId playerId (WebSocketHook.initial backend ok)
                 [WebSocketHook.Connect; WebSocketHook.SocketOpen 0])).
    rewrite opened_state by assumption. apply elapse_while_open. }
  assert (El : closed = after_close backend ok gameId playerId n m).
  { unfold closed, start.
    change (WebSocketHook.run gameId playerId (WebSocketHook.initial backend ok)
              [WebSocketHook.Connect; WebSocketHook.SocketOpen 0; WebSocketHook.Elapse n;
               WebSocketHook.SocketClose 0; WebSocketHook.Elapse m])
      with (WebSocketHook.elapse m
              (WebSocketHook.handle gameId playerId
                 (WebSocketHook.elapse n
                    (WebSocketHook.run gameId playerId (WebSocketHook.initial backend ok)
                       [WebSocketHook.Connect; WebSocketHook.SocketOpen 0]))
                 (WebSocketHook.SocketClose 0))).
    rewrite opened_state, elapse_while_open, close_state by assumption.
    apply elapse_after_close; assumption. }
  rewrite Ec, Eo, El. unfold WebSocketHook.sendMove, WebSocketHook.sendMessage.
  split; [reflexivity|]. split.
  - unfold after_close. destruct (Z.of_nat m <? 2000); reflexivity.
  - reflexivity.
Qed.

Lemma sendMove_only_when_open_witness :
  let connecting := WebSocketHook.run (Js.Str "g1") (Js.Str "p-alice")
                      (WebSocketHook.initial "http://localhost:8080" (fun _ => true))
                      [WebSocketHook.Connect] in
  WebSocketHook.sendMove 4 connecting = connecting.
Proof.
  intros connecting.
  exact (proj1 (sendMove_only_when_open "http://localhost:8080" (fun _ => true)
                  (Js.Str "g1") (Js.Str "p-alice") 0 0 4 eq_refl eq_refl eq_refl)).
Defined.

(** X17: when the game id and the player id are there but the WebSocket
    constructor throws, [connect] records "Failed to connect" and creates
    nothing: no socket, no timer.  So the failure is not retried: however
    much time passes the hook stays unconnected with that error. *)
Theorem failed_connect_is_not_retried (backend : string) (ok : string -> bool)
        (gameId playerId : Js.ref) (n : nat) :
  Js.truthy gameId = true -> Js.truthy playerId = true ->
  ok (Api.getWebSocketUrl backend gameId playerId) = false ->
  let h := WebSocketHook.run gameId playerId (WebSocketHook.initial backend ok)
             [WebSocketHook.Connect; WebSocketHook.Elapse n] in
  WebSocketHook.connectionError h = Some "Failed to connect" /\
  WebSocketHook.sockets h = [] /\
  WebSocketHook.timers h = [] /\
  WebSocketHook.wsRef h = None /\
  WebSocketHook.isConnected h = false.
Proof.
  intros Hg Hp Hok h. unfold h, WebSocketHook.run.
  cbn [fold_left WebSocketHook.handle].
  unfold WebSocketHook.connect. rewrite Hg, Hp.
  cbn -[Api.getWebSocketUrl WebSocketHook.elapse]. rewrite Hok.
  match goal with
  | |- context [WebSocketHook.elapse n ?h0] =>
      destruct (elapse_without_timers n h0 eq_refl) as (H1 & H2 & H3 & H4 & H5 & _)
  end.
  repeat split; assumption.
Qed.

Lemma failed_connect_is_not_retried_witness :
  let h := WebSocketHook.run (Js.Str "g1") (Js.Str "p-alice")
             (WebSocketHook.initial "http://localhost:8080" (fun _ => false))
             [WebSocketHook.Connect; WebSocketHook.Elapse 3] in
  WebSocketHook.connectionError h = Some "Failed to connect".
Proof.
  intros h.
  exact (proj1 (failed_connect_is_not_retried "http://localhost:8080" (fun _ => false)
                  (Js.Str "g1") (Js.Str "p-alice") 3 eq_refl eq_refl eq_refl)).
Defined.

(** ** The join dialog: one request at a time *)

(** X18: pressing Join in the join dialog issues a request only for a
    logged-in player, with no join pending and a held code of exactly 6
    characters that is not all white space; the request is the join-by-code
    call for the trimmed code and that player; once it is out, pressing Join
    again issues nothing.  A held code of 6 characters that are all white
    space gets the error "Please enter a game code" and no request. *)
Theorem join_dialog_submits_once (J : Js.strings) (st : HomePage.page) :
  (forall r, In (Request r) (snd (HomePage.click_join J st)) ->
     exists p,
       HomePage.player st = Some p /\
       HomePage.loading st = false /\
       Js.length J (HomePage.gameCode st) = 6 /\
       Js.trim J (HomePage.gameCode st) <> EmptyString /\
       r = Api.joinGameByCode J (Js.trim J (HomePage.gameCode st)) (player_id p) /\
       HomePage.click_join J (fst (HomePage.click_join J st))
         = (fst (HomePage.click_join J st), [])) /\
  (HomePage.loading st = false -> Js.length J (HomePage.gameCode st) = 6 ->
   Js.trim J (HomePage.gameCode st) = EmptyString ->
   HomePage.click_join J st = (st, [Toast TError "Please enter a game code"])).
Proof.
  unfold HomePage.click_join, HomePage.join_disabled, HomePage.handleJoinByCode.
  split.
  - intros r H.
    destruct (HomePage.loading st) eqn:El; [destruct H|].
    destruct (Z.eqb_spec (Js.length J (HomePage.gameCode st)) 6) as [E6|E6];
      [|destruct H].
    cbn [negb orb] in H.
    destruct (HomePage.player st) as [p|] eqn:Ep;
      [|destruct H as [H|[]]; discriminate H].
    destruct (String.eqb_spec (Js.trim J (HomePage.gameCode st)) EmptyString) as [Et|Et];
      [destruct H as [H|[]]; discriminate H|].
    destruct H as [H|[]]. injection H as <-.
    exists p. repeat split; assumption.
  - intros El E6 Et. rewrite El, E6, Et. cbn [Z.eqb negb orb Pos.eqb].
    destruct (HomePage.player st); reflexivity.
Qed.

Lemma join_dialog_submits_once_witness :
  let st := HomePage.mkPage (Some alice) "      " false true in
  HomePage.click_join ascii_strings st
  = (st, [Toast TError "Please enter a game code"]).
Proof.
  intros st.
  exact (proj2 (join_dialog_submits_once ascii_strings st) eq_refl eq_refl eq_refl).
Defined.
